(** * EZLyricVideoMaker: the subtitle-to-video pipeline of [VideoService]

    A shallow embedding of [src/services/aiService.ts] (class [VideoService]):
    the timestamp parser ([timeToSeconds], [fixSingleTime]), the subtitle
    track parser ([parseSrtToSubtitles]), the styled-event export
    ([srtToAss]), caption wrapping ([wrapText]) and the video assembler
    ([createVideo]) with its frame cache and its cleanup; then the timing
    normalization ([normalizeSrtTiming], [fixTimingLine]), the frame
    compositor ([renderFrame]) and, of the AI service of the same file, the
    stored configuration ([setApiConfig], [getApiConfig], [clearApiConfig]),
    the client getters and the transcription ([generateSrtFromAudio]).

    Conventions of the model.
    - A JavaScript string is a [string]; a character is one code unit
      below 256.
    - A JavaScript number holding an integer is a [Z]; a time in seconds is
      a rational [Q] (the doubles of the source are read as exact numbers).
    - [NaN] and [null] are [None].
    - What the browser and the network provide (the image decoder, the text
      measure, the JPEG encoder, the encoder engine, [JSON], the remote
      calls) is a variable of the section that uses it. *)

From Stdlib Require Import Ascii ZArith QArith Qround Bool Lia Lqa.
From Stdlib Require DecimalString DecimalZ.
From stdpp Require Import gmap strings list.

Close Scope Q_scope.
Local Open Scope Z_scope.

(** ** JavaScript string primitives used by the service *)

Definition code (c : ascii) : Z := Z.of_N (N_of_ascii c).

(** White space of [String.prototype.trim], [\s] and [parseInt]:
    TAB, LF, VT, FF, CR, SP and NBSP. *)
Definition isSpace (c : ascii) : bool :=
  let n := code c in
  ((9 <=? n) && (n <=? 13)) || (n =? 32) || (n =? 160).

(** [\d] *)
Definition isDigit (c : ascii) : bool :=
  let n := code c in (48 <=? n) && (n <=? 57).

Fixpoint trimStart (s : string) : string :=
  match s with
  | String c s' => if isSpace c then trimStart s' else s
  | EmptyString => EmptyString
  end.

Definition isEmpty (s : string) : bool :=
  match s with EmptyString => true | String _ _ => false end.

Fixpoint trimEnd (s : string) : string :=
  match s with
  | String c s' =>
      let r := trimEnd s' in
      if isSpace c && isEmpty r then EmptyString else String c r
  | EmptyString => EmptyString
  end.

(** [s.trim()] *)
Definition trim (s : string) : string := trimEnd (trimStart s).

Fixpoint repeatChar (n : nat) (c : ascii) : string :=
  match n with O => EmptyString | S n' => String c (repeatChar n' c) end.

(** [s.padStart(n, c)] and [s.padEnd(n, c)] for a one-character filler *)
Definition padStart (n : nat) (c : ascii) (s : string) : string :=
  repeatChar (n - String.length s) c +:+ s.

Definition padEnd (n : nat) (c : ascii) (s : string) : string :=
  s +:+ repeatChar (n - String.length s) c.

(** [s.slice(0, n)] *)
Fixpoint sliceTo (n : nat) (s : string) : string :=
  match n, s with
  | S n', String c s' => String c (sliceTo n' s')
  | _, _ => EmptyString
  end.

(** Adds a character in front of the first piece of a split. *)
Definition pushChar (c : ascii) (ps : list string) : list string :=
  match ps with
  | [] => [String c EmptyString]
  | p :: ps' => String c p :: ps'
  end.

(** The character class [[:,\.]] *)
Definition isSep (c : ascii) : bool :=
  (c =? ":")%char || (c =? ",")%char || (c =? ".")%char.

(** [s.split(sep)] for a separator that is one character of a class *)
Fixpoint splitOn (isSep : ascii -> bool) (s : string) : list string :=
  match s with
  | String c s' =>
      if isSep c then EmptyString :: splitOn isSep s'
      else pushChar c (splitOn isSep s')
  | EmptyString => [EmptyString]
  end.

Definition isColon (c : ascii) : bool := (c =? ":")%char.
Definition isDot (c : ascii) : bool := (c =? ".")%char.

(** [s.split(/[:,\.]/)] *)
Definition splitSep (s : string) : list string := splitOn isSep s.

(** [s.split('-->')] *)
Fixpoint splitArrow (s : string) : list string :=
  match s with
  | String "-" (String "-" (String ">" rest)) => EmptyString :: splitArrow rest
  | String c s' => pushChar c (splitArrow s')
  | EmptyString => [EmptyString]
  end.

(** [s.includes('-->')] *)
Fixpoint includesArrow (s : string) : bool :=
  match s with
  | String "-" (String "-" (String ">" _)) => true
  | String _ s' => includesArrow s'
  | EmptyString => false
  end.

Definition CR : ascii := "013"%char.
Definition LF : ascii := "010"%char.

(** [s.split(/\r?\n/)] *)
Fixpoint splitLines (s : string) : list string :=
  match s with
  | String "013" (String "010" rest) => EmptyString :: splitLines rest
  | String "010" rest => EmptyString :: splitLines rest
  | String c s' => pushChar c (splitLines s')
  | EmptyString => [EmptyString]
  end.

(** [s.split(/\r?\n\r?\n+/)]: a separator is an optional CR, a LF, an
    optional CR, a LF and then every LF that follows.  [swallow] is set
    while the trailing [\n+] of a separator is being consumed. *)
Fixpoint splitBlocksFrom (swallow : bool) (s : string) : list string :=
  match swallow, s with
  | true, String "010" rest => splitBlocksFrom true rest
  | _, String "013" (String "010" (String "013" (String "010" rest))) =>
      EmptyString :: splitBlocksFrom true rest
  | _, String "013" (String "010" (String "010" rest)) =>
      EmptyString :: splitBlocksFrom true rest
  | _, String "010" (String "013" (String "010" rest)) =>
      EmptyString :: splitBlocksFrom true rest
  | _, String "010" (String "010" rest) =>
      EmptyString :: splitBlocksFrom true rest
  | _, String c s' => pushChar c (splitBlocksFrom false s')
  | _, EmptyString => [EmptyString]
  end.

Definition splitBlocks (s : string) : list string := splitBlocksFrom false s.

(** [parts.join(sep)] *)
Fixpoint join (sep : string) (l : list string) : string :=
  match l with
  | [] => EmptyString
  | [x] => x
  | x :: l' => x +:+ sep +:+ join sep l'
  end.

(** ** [parseInt] *)

(** Value of a character as a digit in the given radix. *)
Definition digitOf (radix : Z) (c : ascii) : option Z :=
  let n := code c in
  let v :=
    if (48 <=? n) && (n <=? 57) then Some (n - 48)
    else if (97 <=? n) && (n <=? 122) then Some (n - 87)
    else if (65 <=? n) && (n <=? 90) then Some (n - 55)
    else None in
  match v with
  | Some d => if d <? radix then Some d else None
  | None => None
  end.

Fixpoint accDigits (radix acc : Z) (s : string) : Z :=
  match s with
  | String c s' =>
      match digitOf radix c with
      | Some d => accDigits radix (acc * radix + d) s'
      | None => acc
      end
  | EmptyString => acc
  end.

(** The longest prefix of digits, [None] (NaN) when it is empty. *)
Definition parseDigits (radix : Z) (s : string) : option Z :=
  match s with
  | String c s' =>
      match digitOf radix c with
      | Some d => Some (accDigits radix d s')
      | None => None
      end
  | EmptyString => None
  end.

(** The digits after the sign.  With no radix argument a [0x] or [0X]
    prefix selects radix 16; with radix 10 it does not. *)
Definition parseBody (radix : option Z) (s : string) : option Z :=
  match radix with
  | Some r => parseDigits r s
  | None =>
      match s with
      | String "0" (String "x" rest) => parseDigits 16 rest
      | String "0" (String "X" rest) => parseDigits 16 rest
      | _ => parseDigits 10 s
      end
  end.

(** [parseInt(s, radix)] ([radix] is [None] when the argument is absent). *)
Definition parseInt (radix : option Z) (s : string) : option Z :=
  match trimStart s with
  | String "-" rest => Z.opp <$> parseBody radix rest
  | String "+" rest => parseBody radix rest
  | body => parseBody radix body
  end.

(** [v || 0] on a number: NaN and 0 give 0. *)
Definition orZero (v : option Z) : Z := default 0 v.

(** [v > n] on a number: false on NaN. *)
Definition gtNum (v : option Z) (n : Z) : bool :=
  match v with Some z => n <? z | None => false end.

(** ** Timestamp parser *)

(** [parts[i]] on an array of strings whose length was checked. *)
Definition part (parts : list string) (i : nat) : string :=
  nth i parts EmptyString.

(** [hours * 3600 + minutes * 60 + seconds + ms / 1000] *)
Definition secondsOf (hours minutes seconds ms : Z) : Q :=
  (inject_Z hours * 3600 + inject_Z minutes * 60 + inject_Z seconds
   + inject_Z ms / 1000)%Q.

(** [VideoService.timeToSeconds] *)
Definition timeToSeconds (time : string) : option Q :=
  let time := trim time in
  let parts := splitSep time in
  if (length parts =? 4)%nat then
    let hours := orZero (parseInt (Some 10) (part parts 0)) in
    let minutes := orZero (parseInt (Some 10) (part parts 1)) in
    let seconds := orZero (parseInt (Some 10) (part parts 2)) in
    let ms := orZero (parseInt (Some 10) (part parts 3)) in
    Some (secondsOf hours minutes seconds ms)
  else if (length parts =? 3)%nat then
    let p1 := orZero (parseInt (Some 10) (part parts 0)) in
    let p2 := orZero (parseInt (Some 10) (part parts 1)) in
    let p3 := orZero (parseInt (Some 10) (part parts 2)) in
    if (59 <? p3) || (String.length (part parts 2) =? 3)%nat then
      Some (secondsOf 0 p1 p2 p3)
    else
      Some (secondsOf p1 p2 p3 0)
  else if (length parts =? 2)%nat then
    let minutes := orZero (parseInt (Some 10) (part parts 0)) in
    let seconds := orZero (parseInt (Some 10) (part parts 1)) in
    Some (secondsOf 0 minutes seconds 0)
  else None.

(** [VideoService.fixSingleTime] *)
Definition fixSingleTime (time : string) : string :=
  let time := trim time in
  let parts := splitSep time in
  if (length parts =? 4)%nat then
    let hh := part parts 0 in
    let mm := part parts 1 in
    let ss := part parts 2 in
    let mmm := part parts 3 in
    padStart 2 "0" hh +:+ ":" +:+ padStart 2 "0" mm +:+ ":"
      +:+ padStart 2 "0" ss +:+ "," +:+ sliceTo 3 (padEnd 3 "0" mmm)
  else if (length parts =? 3)%nat then
    let p1 := part parts 0 in
    let p2 := part parts 1 in
    let p3 := part parts 2 in
    if gtNum (parseInt None p3) 59 || (String.length p3 =? 3)%nat then
      "00:" +:+ padStart 2 "0" p1 +:+ ":" +:+ padStart 2 "0" p2 +:+ ","
        +:+ sliceTo 3 (padEnd 3 "0" p3)
    else
      padStart 2 "0" p1 +:+ ":" +:+ padStart 2 "0" p2 +:+ ":"
        +:+ padStart 2 "0" p3 +:+ ",000"
  else if (length parts =? 2)%nat then
    let mm := part parts 0 in
    let ss := part parts 1 in
    "00:" +:+ padStart 2 "0" mm +:+ ":" +:+ padStart 2 "0" ss +:+ ",000"
  else time.


(** ** Subtitle track parser *)

Record Cue := mkCue { text : string; startSec : Q; endSec : Q }.

(** The scan for the timing line: the first line that contains the arrow
    and the index of the line after it ([''] and [0] when there is none). *)
Fixpoint findTiming (lines : list string) (i : nat) : string * nat :=
  match lines with
  | l :: ls => if includesArrow l then (l, S i) else findTiming ls (S i)
  | [] => (EmptyString, O)
  end.

(** [lines.slice(textStartIndex).filter(l => l.trim())] *)
Definition textLinesOf (lines : list string) (textStartIndex : nat) : list string :=
  List.filter (fun l => negb (isEmpty (trim l))) (drop textStartIndex lines).

(** One iteration of the loop of [parseSrtToSubtitles]: [None] is a
    [continue] or a block whose text is empty, [Some] is a [push]. *)
Definition cueOfBlock (block : string) : option Cue :=
  let lines := splitLines block in
  if (length lines <? 2)%nat then None else
  let '(timingLine, textStartIndex) := findTiming lines 0 in
  if isEmpty timingLine then None else
  let parts := map trim (splitArrow timingLine) in
  if negb (length parts =? 2)%nat then None else
  match timeToSeconds (part parts 0), timeToSeconds (part parts 1) with
  | Some startSec, Some endSec =>
      let textLines := textLinesOf lines textStartIndex in
      let text := join " " textLines in
      if isEmpty text then None else Some (mkCue text startSec endSec)
  | _, _ => None
  end.

(** The loop over the blocks, [subtitles] being the array built so far. *)
Fixpoint parseBlocks (blocks : list string) (subtitles : list Cue) : list Cue :=
  match blocks with
  | [] => subtitles
  | block :: rest =>
      match cueOfBlock block with
      | Some cue => parseBlocks rest (subtitles ++ [cue])
      | None => parseBlocks rest subtitles
      end
  end.

(** [VideoService.parseSrtToSubtitles] *)
Definition parseSrtToSubtitles (srtContent : string) : list Cue :=
  parseBlocks (splitBlocks (trim srtContent)) [].

(** ** Styled-event export *)

(** [n.toString()] of a number holding an integer, ["NaN"] for NaN. *)
Definition numToString (v : option Z) : string :=
  match v with
  | Some z => DecimalString.NilZero.string_of_int (Z.to_int z)
  | None => "NaN"
  end.

(** [VideoService.convertToAssTime] *)
Definition convertToAssTime (hhmmss ms : string) : string :=
  let parts := splitOn isColon hhmmss in
  let h := parseInt (Some 10) (part parts 0) in
  let mm := part parts 1 in
  let ss := part parts 2 in
  let cc := sliceTo 2 ms in
  numToString h +:+ ":" +:+ mm +:+ ":" +:+ ss +:+ "." +:+ cc.

(** *** The two timing patterns

    Each piece of a pattern is a function from the text still to match to
    the text it captured and the text left. *)

(** [n] characters of a class. *)
Fixpoint takeN (p : ascii -> bool) (n : nat) (s : string) : option (string * string) :=
  match n with
  | O => Some (EmptyString, s)
  | S n' =>
      match s with
      | String c s' =>
          if p c then '(a, r) ← takeN p n' s'; Some (String c a, r) else None
      | EmptyString => None
      end
  end.

(** One character of a class, not captured. *)
Definition oneOf (p : ascii -> bool) (s : string) : option string :=
  match s with
  | String c s' => if p c then Some s' else None
  | EmptyString => None
  end.

(** The literal [-->]. *)
Definition arrow (s : string) : option string :=
  match s with
  | String "-" (String "-" (String ">" rest)) => Some rest
  | _ => None
  end.

Definition isCommaDot (c : ascii) : bool := (c =? ",")%char || (c =? ".")%char.
Definition isCommaColon (c : ascii) : bool := (c =? ",")%char || (c =? ":")%char.

(** [(\d{h}:\d{2}:\d{2})[,.](\d{3})] with [h] digits of hours. *)
Definition stdStamp (h : nat) (s : string) : option (string * string * string) :=
  '(a, r) ← takeN isDigit h s;
  r ← oneOf isColon r;
  '(b, r) ← takeN isDigit 2 r;
  r ← oneOf isColon r;
  '(c, r) ← takeN isDigit 2 r;
  r ← oneOf isCommaDot r;
  '(m, r) ← takeN isDigit 3 r;
  Some (a +:+ ":" +:+ b +:+ ":" +:+ c, m, r).

(** The standard pattern at the start of [s], with [h1] and [h2] digits
    for the two [\d{1,2}]. *)
Definition stdWith (h1 h2 : nat) (s : string)
  : option (string * string * string * string) :=
  '(g1, g2, r) ← stdStamp h1 s;
  r ← arrow (trimStart r);
  '(g3, g4, _) ← stdStamp h2 (trimStart r);
  Some (g1, g2, g3, g4).

Definition orElse {A} (x y : option A) : option A :=
  match x with Some _ => x | None => y end.

(** [\d{1,2}] is greedy: two digits are tried before one. *)
Definition stdAt (s : string) : option (string * string * string * string) :=
  orElse (stdWith 2 2 s) (orElse (stdWith 2 1 s)
    (orElse (stdWith 1 2 s) (stdWith 1 1 s))).

(** [(\d{h}):(\d{2})[,:](\d{3})] *)
Definition nsStamp (h : nat) (s : string)
  : option (string * string * string * string) :=
  '(a, r) ← takeN isDigit h s;
  r ← oneOf isColon r;
  '(b, r) ← takeN isDigit 2 r;
  r ← oneOf isCommaColon r;
  '(m, r) ← takeN isDigit 3 r;
  Some (a, b, m, r).

Definition nsWith (h1 h2 : nat) (s : string)
  : option (string * string * string * string * string * string) :=
  '(g1, g2, g3, r) ← nsStamp h1 s;
  r ← arrow (trimStart r);
  '(g4, g5, g6, _) ← nsStamp h2 (trimStart r);
  Some (g1, g2, g3, g4, g5, g6).

Definition nsAt (s : string)
  : option (string * string * string * string * string * string) :=
  orElse (nsWith 2 2 s) (orElse (nsWith 2 1 s)
    (orElse (nsWith 1 2 s) (nsWith 1 1 s))).

(** [s.match(re)] for a pattern without the global flag: the match at the
    leftmost position where there is one. *)
Fixpoint search {A} (at_ : string -> option A) (s : string) : option A :=
  match at_ s with
  | Some g => Some g
  | None =>
      match s with
      | String _ s' => search at_ s'
      | EmptyString => None
      end
  end.

(** The start and end clock strings of a timing line, [None] where the
    source logs "Failed to match timing" and continues. *)
Definition assTimes (timingLine : string) : option (string * string) :=
  match search stdAt timingLine with
  | Some (g1, g2, g3, g4) =>
      Some (convertToAssTime g1 g2, convertToAssTime g3 g4)
  | None =>
      match search nsAt timingLine with
      | Some (g1, g2, g3, g4, g5, g6) =>
          let startMM := padStart 2 "0" g1 in
          let endMM := padStart 2 "0" g4 in
          Some ("0:" +:+ startMM +:+ ":" +:+ g2 +:+ "." +:+ sliceTo 2 g3,
                "0:" +:+ endMM +:+ ":" +:+ g5 +:+ "." +:+ sliceTo 2 g6)
      | None => None
      end
  end.

(** One iteration of the loop of [srtToAss]. *)
Definition eventOfBlock (block : string) : option string :=
  let lines := splitLines block in
  if (length lines <? 2)%nat then None else
  let '(timingLine, textStartIndex) := findTiming lines 0 in
  if isEmpty timingLine then None else
  match assTimes timingLine with
  | Some (startTime, endTime) =>
      let textLines := textLinesOf lines textStartIndex in
      let text := join "\N" textLines in
      if isEmpty text then None
      else Some ("Dialogue: 0," +:+ startTime +:+ "," +:+ endTime
                 +:+ ",Default,,0,0,0,," +:+ text)
  | None => None
  end.

Fixpoint assBlocks (blocks : list string) (events : list string) : list string :=
  match blocks with
  | [] => events
  | block :: rest =>
      match eventOfBlock block with
      | Some ev => assBlocks rest (events ++ [ev])
      | None => assBlocks rest events
      end
  end.

(** The [events] array of [srtToAss]. *)
Definition assEvents (srtContent : string) : list string :=
  assBlocks (splitBlocks (trim srtContent)) [].

Definition nl : string := String LF EmptyString.

Definition assHeader : string :=
  join nl
    ["[Script Info]"; "Title: Lyrics"; "ScriptType: v4.00+"; "WrapStyle: 0";
     "ScaledBorderAndShadow: yes"; "YCbCr Matrix: None"; "PlayResX: 1920";
     "PlayResY: 1080"; ""; "[V4+ Styles]";
     "Format: Name, Fontname, Fontsize, PrimaryColour, SecondaryColour, OutlineColour, BackColour, Bold, Italic, Underline, StrikeOut, ScaleX, ScaleY, Spacing, Angle, BorderStyle, Outline, Shadow, Alignment, MarginL, MarginR, MarginV, Encoding";
     "Style: Default,Arial,72,&H00FFFFFF,&H000000FF,&H00000000,&H80000000,-1,0,0,0,100,100,0,0,1,4,2,2,20,20,60,1";
     ""; "[Events]";
     "Format: Layer, Start, End, Style, Name, MarginL, MarginR, MarginV, Effect, Text";
     ""].

(** [VideoService.srtToAss] *)
Definition srtToAss (srtContent : string) : string :=
  assHeader +:+ join nl (assEvents srtContent).

(** ** Caption selection *)

(** [currentTime >= sub.startSec && currentTime < sub.endSec] *)
Definition covers (currentTime : Q) (sub : Cue) : bool :=
  Qle_bool (startSec sub) currentTime && negb (Qle_bool (endSec sub) currentTime).

(** [s || ''] on a string or [undefined] *)
Definition orEmpty (s : option string) : string :=
  match s with
  | Some t => if isEmpty t then EmptyString else t
  | None => EmptyString
  end.

(** The caption of the frame at [currentTime]:
    [subtitles.find(...)?.text || ''] *)
Definition captionAt (subtitles : list Cue) (currentTime : Q) : string :=
  let currentSubtitle := List.find (covers currentTime) subtitles in
  orEmpty (text <$> currentSubtitle).

(** ** Caption wrapping *)

Section Wrap.

(** [ctx.measureText(s).width] for the font the compositor selects. *)
Variable measureText : string -> Q.

(** [text.split('')] *)
Fixpoint splitChars (s : string) : list string :=
  match s with
  | String c s' => String c EmptyString :: splitChars s'
  | EmptyString => []
  end.

(** The body of the loop of [wrapText] on the pair of [lines] and
    [currentLine]. *)
Definition wrapStep (maxWidth : Q) (st : list string * string) (char : string)
  : list string * string :=
  let '(lines, currentLine) := st in
  let testLine := currentLine +:+ char in
  if negb (Qle_bool (measureText testLine) maxWidth) && negb (isEmpty currentLine)
  then (lines ++ [currentLine], char)
  else (lines, testLine).

(** [VideoService.wrapText] *)
Definition wrapText (text : string) (maxWidth : Q) : list string :=
  let words := splitChars text in
  let '(lines, currentLine) := fold_left (wrapStep maxWidth) words ([], EmptyString) in
  if isEmpty currentLine then lines else lines ++ [currentLine].

End Wrap.

(** ** The encoder and its working storage *)

Definition bytes : Type := list Byte.byte.

(** What a job can observe and change: the files of the encoder's working
    storage, the captions the compositor was invoked with and the
    [writeFile] calls made, both in call order. *)
Record World := mkWorld {
  files : gmap string bytes;
  composed : list string;
  written : list (string * bytes)
}.

Inductive Result (A : Type) : Type :=
| Ok (a : A)
| Throw (msg : string).
Arguments Ok {A} a.
Arguments Throw {A} msg.

(** An asynchronous method: it runs on a world and returns or throws. *)
Definition Job (A : Type) : Type := World -> Result A * World.

Definition ret {A} (a : A) : Job A := fun w => (Ok a, w).
Definition throw {A} (msg : string) : Job A := fun w => (Throw msg, w).

Definition bind {A B} (m : Job A) (k : A -> Job B) : Job B :=
  fun w =>
    match m w with
    | (Ok a, w') => k a w'
    | (Throw msg, w') => (Throw msg, w')
    end.

(** [try { m } catch (e) { handler }] *)
Definition tryCatch {A} (m : Job A) (handler : string -> Job A) : Job A :=
  fun w =>
    match m w with
    | (Ok a, w') => (Ok a, w')
    | (Throw msg, w') => handler msg w'
    end.

Notation "'let*' x ':=' m 'in' k" := (bind m (fun x => k))
  (at level 10, x pattern, m at level 100, k at level 200).
Notation "m ';;;' k" := (bind m (fun _ => k))
  (at level 100, k at level 200, right associativity).

(** [for (const x of l) { s = await body(s, x) }] *)
Fixpoint forEach {S A} (body : S -> A -> Job S) (l : list A) (s : S) : Job S :=
  match l with
  | [] => ret s
  | x :: l' => let* s' := body s x in forEach body l' s'
  end.

Record AudioFile := mkAudio {
  fileName : string;
  fileBytes : bytes;
  (** [audio.duration] once the metadata has loaded, [None] when loading
      fails or the duration is NaN *)
  probe : option Q
}.

(** [VideoService.getAudioDuration]: [audio.duration || 180], and 180 on
    error. *)
Definition getAudioDuration (audioFile : AudioFile) : Q :=
  match probe audioFile with
  | Some d => if Qeq_bool d 0 then 180%Q else d
  | None => 180%Q
  end.

(** [`frame${i.toString().padStart(5, '0')}.jpg`] *)
Definition frameName (i : nat) : string :=
  "frame" +:+ padStart 5 "0" (numToString (Some (Z.of_nat i))) +:+ ".jpg".

(** [const fps = 4] *)
Definition fps : Z := 4.

(** The frame cache of [createVideo]. *)
Record Cache := mkCache {
  lastSubtitle : string;
  cachedFrameData : option bytes
}.

Section Assembler.

(** The collaborators of [createVideo]: the decoded image type and
    [loadImage] ([None] when the promise rejects), the compositor, the
    encoder run ([None] when [exec] rejects) and the deletions that the
    working storage refuses. *)
Variable Image : Type.
Variable loadImage : bytes -> option Image.
Variable renderPixels : Image -> string -> Z -> Z -> Z -> bytes.
Variable exec : list string -> gmap string bytes -> option (gmap string bytes).
Variable deleteFails : gmap string bytes -> string -> bool.

(** [VideoService.renderFrame]: composes a frame, which counts as one
    invocation of the compositor. *)
Definition renderFrame (baseImage : Image) (subtitle : string)
    (width height subtitlePosition : Z) : Job bytes :=
  fun w =>
    (Ok (renderPixels baseImage subtitle width height subtitlePosition),
     mkWorld (files w) (composed w ++ [subtitle]) (written w)).

(** [ffmpeg.writeFile(name, data)] *)
Definition writeFile (name : string) (data : bytes) : Job unit :=
  fun w =>
    (Ok tt, mkWorld (<[name := data]> (files w)) (composed w)
              (written w ++ [(name, data)])).

(** [ffmpeg.readFile(name)] *)
Definition readFile (name : string) : Job bytes :=
  fun w =>
    match files w !! name with
    | Some data => (Ok data, w)
    | None => (Throw "readFile", w)
    end.

(** [ffmpeg.deleteFile(name)] *)
Definition deleteFile (name : string) : Job unit :=
  fun w =>
    if deleteFails (files w) name then (Throw "deleteFile", w)
    else (Ok tt, mkWorld (delete name (files w)) (composed w) (written w)).

(** [ffmpeg.exec(args)] *)
Definition execJob (args : list string) : Job unit :=
  fun w =>
    match exec args (files w) with
    | Some fs => (Ok tt, mkWorld fs (composed w) (written w))
    | None => (Throw "exec", w)
    end.

(** The body of the frame loop of [createVideo]. *)
Definition frameStep (baseImage : Image) (subtitles : list Cue)
    (subtitlePosition : Z) (cache : Cache) (i : nat) : Job Cache :=
  let currentTime := (inject_Z (Z.of_nat i) / inject_Z fps)%Q in
  let subtitleText := captionAt subtitles currentTime in
  let* cache' :=
    (if negb (String.eqb subtitleText (lastSubtitle cache))
        || negb (bool_decide (is_Some (cachedFrameData cache)))
     then
       let* data := renderFrame baseImage subtitleText 1280 720 subtitlePosition in
       ret (mkCache subtitleText (Some data))
     else ret cache) in
  writeFile (frameName i) (default [] (cachedFrameData cache'));;;
  ret cache'.

(** The frame loop: [for (let i = 0; i < totalFrames; i++)]. *)
Definition generateFrames (baseImage : Image) (subtitles : list Cue)
    (subtitlePosition : Z) (totalFrames : nat) : Job Cache :=
  forEach (frameStep baseImage subtitles subtitlePosition)
    (seq 0 totalFrames) (mkCache EmptyString None).

(** The statements inside the [try] of the cleanup. *)
Definition cleanupBody (totalFrames : nat) (audioName outputName : string) : Job unit :=
  forEach (fun _ i => deleteFile (frameName i)) (seq 0 totalFrames) tt;;;
  deleteFile audioName;;;
  deleteFile outputName.

Definition cleanup (totalFrames : nat) (audioName outputName : string) : Job unit :=
  tryCatch (cleanupBody totalFrames audioName outputName) (fun _ => ret tt).

(** [audioFile.name.split('.').pop() || 'mp3'] *)
Definition audioExtOf (name : string) : string :=
  let ext := List.last (splitOn isDot name) EmptyString in
  if isEmpty ext then "mp3" else ext.

(** [Math.ceil(audioDuration * fps)], the bound of the two loops. *)
Definition totalFramesOf (audioFile : AudioFile) : nat :=
  Z.to_nat (Qceiling (getAudioDuration audioFile * inject_Z fps)).

Definition execArgs (audioName outputName : string) : list string :=
  ["-framerate"; numToString (Some fps); "-i"; "frame%05d.jpg"; "-i"; audioName;
   "-c:v"; "libx264"; "-preset"; "ultrafast"; "-c:a"; "aac"; "-b:a"; "128k";
   "-pix_fmt"; "yuv420p"; "-shortest"; outputName].

(** [VideoService.createVideo].  [loaded] is the field [this.loaded]; the
    result is the container bytes the returned URL stands for.  Progress
    reports and console output change neither the storage nor the
    result and are left out. *)
Definition createVideo (loaded : bool) (imageFile : bytes)
    (audioFile : AudioFile) (srtContent : string) (subtitlePosition : Z)
  : Job bytes :=
  if negb loaded then throw "FFmpeg not loaded" else
  let audioExt := audioExtOf (fileName audioFile) in
  let audioName := "audio." +:+ audioExt in
  let outputName := "output.mp4" in
  let subtitles := parseSrtToSubtitles srtContent in
  let totalFrames := totalFramesOf audioFile in
  match loadImage imageFile with
  | None => throw "loadImage"
  | Some baseImage =>
      generateFrames baseImage subtitles subtitlePosition totalFrames;;;
      writeFile audioName (fileBytes audioFile);;;
      execJob (execArgs audioName outputName);;;
      let* data := readFile outputName in
      cleanup totalFrames audioName outputName;;;
      ret data
  end.

(** What [createVideo] does before the cleanup: the data it read back
    and the world at that point, or the exception. *)
Definition beforeCleanup (loaded : bool) (imageFile : bytes)
    (audioFile : AudioFile) (srtContent : string) (subtitlePosition : Z)
  : Job bytes :=
  if negb loaded then throw "FFmpeg not loaded" else
  match loadImage imageFile with
  | None => throw "loadImage"
  | Some baseImage =>
      generateFrames baseImage (parseSrtToSubtitles srtContent)
        subtitlePosition (totalFramesOf audioFile);;;
      writeFile ("audio." +:+ audioExtOf (fileName audioFile)) (fileBytes audioFile);;;
      execJob (execArgs ("audio." +:+ audioExtOf (fileName audioFile)) "output.mp4");;;
      readFile "output.mp4"
  end.

(** The cache after a frame with caption [prev], or before any frame. *)
Definition cacheAfter (baseImage : Image) (subtitlePosition : Z)
    (prev : option string) (cache : Cache) : Prop :=
  match prev with
  | None => cachedFrameData cache = None
  | Some c =>
      cache = mkCache c (Some (renderPixels baseImage c 1280 720 subtitlePosition))
  end.

End Assembler.

(** ** Timing normalization *)

(** [VideoService.fixTimingLine] *)
Definition fixTimingLine (line : string) : string :=
  let parts := map trim (splitArrow line) in
  if negb (length parts =? 2)%nat then line else
  let startFixed := fixSingleTime (part parts 0) in
  let endFixed := fixSingleTime (part parts 1) in
  startFixed +:+ " --> " +:+ endFixed.

(** The loop of [normalizeSrtTiming], [result] being the array built so
    far. *)
Fixpoint normalizeLines (lines : list string) (result : list string) : list string :=
  match lines with
  | [] => result
  | line :: rest =>
      if includesArrow line
      then normalizeLines rest (result ++ [fixTimingLine line])
      else normalizeLines rest (result ++ [line])
  end.

(** [VideoService.normalizeSrtTiming] *)
Definition normalizeSrtTiming (srtContent : string) : string :=
  let lines := splitLines srtContent in
  join nl (normalizeLines lines []).

(** ** The frame compositor *)

(** The calls [renderFrame] makes on the canvas and its 2D context:
    setting the canvas size, assigning a context property, and the four
    drawing calls it uses. *)
Inductive CanvasOp (Image : Type) : Type :=
| CanvasSize (width height : Q)
| SetText (name value : string)
| SetNumber (name : string) (value : Q)
| FillRect (x y w h : Q)
| DrawImage (image : Image) (x y w h : Q)
| StrokeText (text : string) (x y : Q)
| FillText (text : string) (x y : Q).
Arguments CanvasSize {Image} width height.
Arguments SetText {Image} name value.
Arguments SetNumber {Image} name value.
Arguments FillRect {Image} x y w h.
Arguments DrawImage {Image} image x y w h.
Arguments StrokeText {Image} text x y.
Arguments FillText {Image} text x y.

(** [Math.max(a, b)] *)
Definition maxNum (a b : Q) : Q := if Qle_bool a b then b else a.

(** The rectangle the base image is drawn into: [(x, y, scaledWidth,
    scaledHeight)]. *)
Definition imageRect (width height imageWidth imageHeight : Q) : Q * Q * Q * Q :=
  let scale := maxNum (width / imageWidth) (height / imageHeight) in
  let scaledWidth := (imageWidth * scale)%Q in
  let scaledHeight := (imageHeight * scale)%Q in
  let x := ((width - scaledWidth) / 2)%Q in
  let y := ((height - scaledHeight) / 2)%Q in
  (x, y, scaledWidth, scaledHeight).

Definition quote : string := String "034" EmptyString.

(** The font selected for captions. *)
Definition captionFont : string :=
  "bold 48px " +:+ quote +:+ "Microsoft YaHei" +:+ quote +:+ ", "
    +:+ quote +:+ "PingFang SC" +:+ quote +:+ ", "
    +:+ quote +:+ "Noto Sans SC" +:+ quote +:+ ", Arial, sans-serif".

Definition fontSize : Q := 48.
Definition lineHeight : Q := (fontSize * 1.3)%Q.

(** The callback of [lines.forEach] in [renderFrame], from line [index]
    on. *)
Fixpoint drawLines {Image} (lines : list string) (index : nat)
    (startY width : Q) : list (CanvasOp Image) :=
  match lines with
  | [] => []
  | line :: rest =>
      let lineY := (startY + inject_Z (Z.of_nat index) * lineHeight)%Q in
      [SetText "strokeStyle" "#000000"; SetNumber "lineWidth" 6;
       SetText "lineJoin" "round"; StrokeText line (width / 2) lineY;
       SetText "fillStyle" "#FFFFFF"; FillText line (width / 2) lineY]
      ++ drawLines rest (S index) startY width
  end.

Section Compositor.

(** The decoded image with its natural size, the text measure of the
    context for the caption font, and the JPEG encoder of the canvas
    ([canvas.toBlob] at quality 0.9). *)
Variable Image : Type.
Variable imageWidth imageHeight : Image -> Q.
Variable measureText : string -> Q.
Variable toJpeg : list (CanvasOp Image) -> bytes.

(** The canvas calls of [VideoService.renderFrame], in order. *)
Definition frameOps (baseImage : Image) (subtitle : string)
    (width height subtitlePosition : Q) : list (CanvasOp Image) :=
  let '(x, y, scaledWidth, scaledHeight) :=
    imageRect width height (imageWidth baseImage) (imageHeight baseImage) in
  [CanvasSize width height;
   SetText "fillStyle" "#000000"; FillRect 0 0 width height;
   DrawImage baseImage x y scaledWidth scaledHeight]
  ++ (if isEmpty subtitle then [] else
      let maxWidth := (width - 60)%Q in
      let lines := wrapText measureText subtitle maxWidth in
      let totalHeight := (inject_Z (Z.of_nat (length lines)) * lineHeight)%Q in
      let baseY := (height * subtitlePosition / 100)%Q in
      let startY := (baseY - totalHeight / 2 + lineHeight / 2)%Q in
      [SetText "font" captionFont; SetText "textAlign" "center";
       SetText "textBaseline" "middle"]
      ++ drawLines lines 0 startY width).

(** [VideoService.renderFrame]: the JPEG bytes of the composed canvas. *)
Definition renderFrameBytes (baseImage : Image) (subtitle : string)
    (width height subtitlePosition : Q) : bytes :=
  toJpeg (frameOps baseImage subtitle width height subtitlePosition).

End Compositor.

(** ** The AI service: stored configuration and reply cleaning *)

Inductive ApiProvider := GOOGLE_GEMINI | OPENAI.

Record ApiConfig := mkApiConfig {
  provider : ApiProvider;
  apiKey : string;
  geminiModel : option string;
  openaiModel : option string
}.

(** The module variable [cachedConfig] and the browser's local storage. *)
Record ConfigState := mkConfigState {
  cachedConfig : option ApiConfig;
  localStorage : gmap string string
}.

Definition configKey : string := "ai_api_config".

Section ApiConfigStore.

(** [JSON.stringify] on a configuration, and [JSON.parse] on a stored
    text: [None] when it throws or yields [null]. *)
Variable stringify : ApiConfig -> string.
Variable parseJson : string -> option ApiConfig.

(** [setApiConfig] *)
Definition setApiConfig (config : ApiConfig) (st : ConfigState) : ConfigState :=
  mkConfigState (Some config) (<[configKey := stringify config]> (localStorage st)).

(** [getApiConfig]: the value returned and the state left. *)
Definition getApiConfig (st : ConfigState) : option ApiConfig * ConfigState :=
  match cachedConfig st with
  | Some config => (Some config, st)
  | None =>
      match localStorage st !! configKey with
      | Some stored =>
          if isEmpty stored then (None, st) else
          match parseJson stored with
          | Some config => (Some config, mkConfigState (Some config) (localStorage st))
          | None => (None, st)
          end
      | None => (None, st)
      end
  end.

(** [clearApiConfig] *)
Definition clearApiConfig (st : ConfigState) : ConfigState :=
  mkConfigState None (delete configKey (localStorage st)).

(** [getGeminiClient] and [getOpenAIClient]: the API key the client is
    built with, or the exception. *)
Definition getGeminiClient (st : ConfigState) : Result string * ConfigState :=
  match getApiConfig st with
  | (Some config, st') =>
      match provider config with
      | GOOGLE_GEMINI => (Ok (apiKey config), st')
      | OPENAI => (Throw "Please configure Google Gemini API Key first", st')
      end
  | (None, st') => (Throw "Please configure Google Gemini API Key first", st')
  end.

Definition getOpenAIClient (st : ConfigState) : Result string * ConfigState :=
  match getApiConfig st with
  | (Some config, st') =>
      match provider config with
      | OPENAI => (Ok (apiKey config), st')
      | GOOGLE_GEMINI => (Throw "Please configure OpenAI API Key first", st')
      end
  | (None, st') => (Throw "Please configure OpenAI API Key first", st')
  end.

End ApiConfigStore.

(** [s.replace(/```[\s\S]*?```/g, '')].  [inside] holds the text read
    since an opening fence that has not been closed yet. *)
Fixpoint stripFencesFrom (inside : option string) (s : string) : string :=
  match inside, s with
  | None, String "`" (String "`" (String "`" rest)) =>
      stripFencesFrom (Some EmptyString) rest
  | None, String c s' => String c (stripFencesFrom None s')
  | None, EmptyString => EmptyString
  | Some buf, String "`" (String "`" (String "`" rest)) =>
      stripFencesFrom None rest
  | Some buf, String c s' =>
      stripFencesFrom (Some (buf +:+ String c EmptyString)) s'
  | Some buf, EmptyString => "```" +:+ buf
  end.

Definition stripFences (s : string) : string := stripFencesFrom None s.

(** The clean-up of the model's reply in [generateSrtWithGemini]. *)
Definition cleanGeminiReply (text : string) : Result string :=
  let srtContent := trim (stripFences text) in
  if isEmpty srtContent then Throw "Empty SRT content received"
  else Ok srtContent.

(** ** Transcription with the configured provider *)

(** [error.message || "Unknown error"], an error without a message
    having the empty one. *)
Definition orUnknown (message : string) : string :=
  if isEmpty message then "Unknown error" else message.

(** [config.geminiModel || "gemini-2.0-flash-exp"] *)
Definition geminiModelOf (config : ApiConfig) : string :=
  match geminiModel config with
  | Some model => if isEmpty model then "gemini-2.0-flash-exp" else model
  | None => "gemini-2.0-flash-exp"
  end.

Section Transcription.

(** The two remote calls, each with what it awaits before it (the
    reading of the audio file): the text of the reply, or the message of
    the exception.  The Gemini call is given the key of the client and
    the model, the Whisper call the key of the client.  [provider] has
    the two values of the enumeration, so the branch for any other
    provider has no counterpart here. *)
Variable parseJson : string -> option ApiConfig.
Variable geminiCall : string -> string -> Result string.
Variable whisperCall : string -> Result string.

(** [generateSrtWithGemini] *)
Definition generateSrtWithGemini (config : ApiConfig) (st : ConfigState)
    : Result string * ConfigState :=
  match getGeminiClient parseJson st with
  | (Ok client, st') =>
      match geminiCall client (geminiModelOf config) with
      | Ok text => (cleanGeminiReply text, st')
      | Throw message => (Throw message, st')
      end
  | (Throw message, st') => (Throw message, st')
  end.

(** [generateSrtWithOpenAI] *)
Definition generateSrtWithOpenAI (config : ApiConfig) (st : ConfigState)
    : Result string * ConfigState :=
  match getOpenAIClient parseJson st with
  | (Ok client, st') => (whisperCall client, st')
  | (Throw message, st') => (Throw message, st')
  end.

(** [generateSrtFromAudio] *)
Definition generateSrtFromAudio (st : ConfigState) : Result string * ConfigState :=
  match getApiConfig parseJson st with
  | (None, st') => (Throw "Please configure API Key first", st')
  | (Some config, st') =>
      let '(result, st'') :=
        match provider config with
        | GOOGLE_GEMINI => generateSrtWithGemini config st'
        | OPENAI => generateSrtWithOpenAI config st'
        end in
      match result with
      | Ok srtContent => (Ok srtContent, st'')
      | Throw message =>
          (Throw ("SRT generation failed: " +:+ orUnknown message), st'')
      end
  end.

End Transcription.

(** ** Definitions used to state the properties *)

(** *** Timestamps *)

(** The value read from one component: its integer, 0 when it has none. *)
Definition componentValue (c : string) : Z :=
  match parseInt (Some 10) c with
  | Some v => v
  | None => 0
  end.

(** The reading of a timestamp by the number of its components, as the
    specification words it. *)
Definition readByShape (time : string) : option Q :=
  match splitSep (trim time) with
  | [h; m; s; ms] =>
      Some (secondsOf (componentValue h) (componentValue m)
              (componentValue s) (componentValue ms))
  | [a; b; c] =>
      if (59 <? componentValue c) || (String.length c =? 3)%nat
      then Some (secondsOf 0 (componentValue a) (componentValue b) (componentValue c))
      else Some (secondsOf (componentValue a) (componentValue b) (componentValue c) 0)
  | [m; s] => Some (secondsOf 0 (componentValue m) (componentValue s) 0)
  | _ => None
  end.

(** Every character of the string is in the class. *)
Fixpoint allChars (p : ascii -> bool) (s : string) : bool :=
  match s with
  | String c s' => p c && allChars p s'
  | EmptyString => true
  end.

(** The string holds none of the separators [:], [,] and [.]. *)
Definition noSep (s : string) : bool := allChars (fun c => negb (isSep c)) s.

(** The string holds no [-]. *)
Definition noDash (s : string) : bool := allChars (fun c => negb (c =? "-")%char) s.

(** The string does not start, respectively end, with white space. *)
Definition headOk (s : string) : bool :=
  match s with
  | String c _ => negb (isSpace c)
  | EmptyString => true
  end.

Fixpoint lastOk (s : string) : bool :=
  match s with
  | EmptyString => true
  | String c EmptyString => negb (isSpace c)
  | String _ s' => lastOk s'
  end.

(** The third character of the string, if it has one, is not white space. *)
Definition thirdCharOk (s : string) : bool :=
  match s with
  | String _ (String _ (String c _)) => negb (isSpace c)
  | _ => true
  end.

(** The layout of the canonical form, from its four fields. *)
Definition stamp4 (hh mm ss mmm : string) : string :=
  hh +:+ ":" +:+ mm +:+ ":" +:+ ss +:+ "," +:+ mmm.

(** The conditions under which a string in the canonical layout is read
    back field by field. *)
Definition fieldsOk (hh mm ss mmm : string) : Prop :=
  (noSep hh = true /\ noSep mm = true /\ noSep ss = true /\ noSep mmm = true) /\
  (headOk hh = true /\ isEmpty hh = false) /\
  (lastOk mmm = true /\ isEmpty mmm = false).

(** The two field formats of [fixSingleTime]. *)
Definition pad2 (s : string) : string := padStart 2 "0" s.
Definition ms3 (s : string) : string := sliceTo 3 (padEnd 3 "0" s).

(** Every component that [timeToSeconds] or [fixSingleTime] reads as
    milliseconds is exactly three characters wide. *)
Definition msThreeWide (time : string) : bool :=
  match splitSep (trim time) with
  | [_; _; _; ms] => (String.length ms =? 3)%nat
  | [_; _; c] =>
      (String.length c =? 3)%nat
      || (negb (59 <? componentValue c) && negb (gtNum (parseInt None c) 59))
  | _ => true
  end.

(** The three characters that [fixSingleTime] keeps of the millisecond
    component do not end in white space. *)
Definition msKeepsEnd (time : string) : bool :=
  match splitSep (trim time) with
  | [_; _; _; ms] => thirdCharOk ms
  | [_; _; c] =>
      if gtNum (parseInt None c) 59 || (String.length c =? 3)%nat
      then thirdCharOk c else true
  | _ => true
  end.

(** A timestamp in the canonical form HH:MM:SS,mmm. *)
Definition canonicalOf (a b c d e f g h i : ascii) : string :=
  String a (String b (String ":" (String c (String d (String ":"
    (String e (String f (String "," (String g (String h (String i "")))))))))))%string.

Definition Canonical (time : string) : Prop :=
  exists a b c d e f g h i,
    Forall (fun ch => isDigit ch = true) [a; b; c; d; e; f; g; h; i] /\
    time = canonicalOf a b c d e f g h i.

(** *** Cues and blocks *)

(** The instant [t] falls within the half-open interval of the cue. *)
Definition inside (t : Q) (cue : Cue) : Prop :=
  (startSec cue <= t)%Q /\ (t < endSec cue)%Q.

(** The two cues of the frame-selection example. *)
Definition cuesAB : list Cue := [mkCue "A" 0 2; mkCue "B" 2 4].

(** The lines of [block] are [pre], then its arrow line [line] (the first
    line that contains the arrow), then [post]. *)
Definition ArrowLine (block : string) (pre : list string) (line : string)
    (post : list string) : Prop :=
  splitLines block = pre ++ line :: post /\
  Forall (fun l => includesArrow l = false) pre /\
  includesArrow line = true.

(** The blocks the specification calls malformed. *)
Inductive Malformed (block : string) : Prop :=
| NoArrowLine :
    Forall (fun l => includesArrow l = false) (splitLines block) ->
    Malformed block
| NotTwoTimestamps pre line post :
    ArrowLine block pre line post ->
    length (splitArrow line) <> 2%nat ->
    Malformed block
| NoRecognizedShape pre line post a b :
    ArrowLine block pre line post ->
    splitArrow line = [a; b] ->
    timeToSeconds (trim a) = None \/ timeToSeconds (trim b) = None ->
    Malformed block
| EmptyText pre line post :
    ArrowLine block pre line post ->
    Forall (fun l => trim l = "") post ->
    Malformed block.

(** A well-formed block followed by a block without the arrow. *)
Definition mixedDoc : string :=
  join nl ["1"; "00:00:01,000 --> 00:00:04,000"; "Hello"; "";
           "2"; "00:00:05,000 00:00:08,000"; "World"].

(** A block whose end timestamp is before its start timestamp. *)
Definition backwardsDoc : string :=
  join nl ["1"; "00:00:05,000 --> 00:00:01,000"; "Hi"].

(** A block timed in minutes and seconds only, and a block whose timing
    line has a second arrow. *)
Definition minutesDoc : string := join nl ["1"; "00:05 --> 00:08"; "World"].
Definition twoArrowsDoc : string :=
  join nl ["1"; "00:00:09,500 --> 00:00:10,250 --> x"; "Again"].

Definition isSome {A} (o : option A) : bool :=
  match o with Some _ => true | None => false end.

(** The timing line of a block: the first line that contains the arrow. *)
Definition timingLineOf (block : string) : string :=
  fst (findTiming (splitLines block) 0).

(** The cue parse accepts a timing line that splits on the arrow into
    exactly two timestamps of a recognized shape. *)
Definition cueAccepts (timingLine : string) : bool :=
  let parts := map trim (splitArrow timingLine) in
  (length parts =? 2)%nat
  && isSome (timeToSeconds (part parts 0))
  && isSome (timeToSeconds (part parts 1)).

(** The styled-event export accepts a timing line in which one of its two
    patterns matches. *)
Definition assAccepts (timingLine : string) : bool :=
  isSome (assTimes timingLine).

(** The blocks for which a loop body produces a record. *)
Definition keptBy {A} (body : string -> option A) (blocks : list string) : list string :=
  List.filter (fun block => isSome (body block)) blocks.

(** A timing line in the strict form HH:MM:SS,mmm --> HH:MM:SS,mmm. *)
Definition StrictLine (line : string) : Prop :=
  exists t1 t2, Canonical t1 /\ Canonical t2 /\ line = t1 +:+ " --> " +:+ t2.

(** *** Captions, frames and the working storage *)

(** Concatenation of the lines in order. *)
Fixpoint concatLines (lines : list string) : string :=
  match lines with
  | [] => EmptyString
  | line :: rest => line +:+ concatLines rest
  end.

(** One caption per maximal run of equal consecutive captions; [prev] is
    the caption just before the list, if there is one. *)
Fixpoint runHeads (prev : option string) (captions : list string) : list string :=
  match captions with
  | [] => []
  | c :: rest =>
      if decide (prev = Some c) then runHeads (Some c) rest
      else c :: runHeads (Some c) rest
  end.

(** The instant of frame [i]: [i / fps]. *)
Definition frameTime (i : nat) : Q := (inject_Z (Z.of_nat i) / inject_Z fps)%Q.

(** The storage after deleting the frames of [indices]. *)
Definition framesDeleted (fs : gmap string bytes) (indices : list nat)
  : gmap string bytes :=
  fold_left (fun fs i => delete (frameName i) fs) indices fs.

(** The temporary artifacts of a run: the frame files, the audio file and
    the output file. *)
Definition artifacts (audioFile : AudioFile) : list string :=
  map frameName (seq 0 (totalFramesOf audioFile))
  ++ ["audio." +:+ audioExtOf (fileName audioFile); "output.mp4"].

(** Collaborators for the sample runs: an image that always loads, a
    compositor that returns no bytes, an encoder that writes the output
    file, an encoder that rejects, a storage that refuses to delete the
    first frame and a storage that refuses nothing. *)
Definition loadAny (imageFile : bytes) : option unit := Some tt.
Definition renderNone (baseImage : unit) (subtitle : string) (width height pos : Z)
  : bytes := [].
Definition execWrites (args : list string) (fs : gmap string bytes)
  : option (gmap string bytes) := Some (<["output.mp4" := []]> fs).
Definition execRejects (args : list string) (fs : gmap string bytes)
  : option (gmap string bytes) := None.
Definition refuseFirstFrame (fs : gmap string bytes) (name : string) : bool :=
  String.eqb name "frame00000.jpg".
Definition refuseNothing (fs : gmap string bytes) (name : string) : bool := false.

(** Half a second of audio: two frames. *)
Definition halfSecond : AudioFile := mkAudio "song.mp3" [] (Some 0.5%Q).

Definition emptyWorld : World := mkWorld ∅ [] [].

(** *** Loosely written timestamps *)

(** At most [n] characters, all of them digits. *)
Definition digitsUpTo (n : nat) (s : string) : bool :=
  (String.length s <=? n)%nat && allChars isDigit s.

(** A timestamp of two to four components of digits, the clock
    components at most two digits wide (and the third of three at most
    three). *)
Definition looseStamp (time : string) : bool :=
  match splitSep (trim time) with
  | [hh; mm; ss; ms] =>
      digitsUpTo 2 hh && digitsUpTo 2 mm && digitsUpTo 2 ss && allChars isDigit ms
  | [p1; p2; p3] => digitsUpTo 2 p1 && digitsUpTo 2 p2 && digitsUpTo 3 p3
  | [mm; ss] => digitsUpTo 2 mm && digitsUpTo 2 ss
  | _ => false
  end.

(** The clock string of the styled-event format for the fields of a
    canonical timestamp: the hour without a leading zero, centiseconds. *)
Definition assClock (a b c d e f g h : ascii) : string :=
  (if (a =? "0")%char then String b EmptyString else String a (String b EmptyString))
  +:+ ":" +:+ String c (String d EmptyString)
  +:+ ":" +:+ String e (String f EmptyString)
  +:+ "." +:+ String g (String h EmptyString).

(** The string holds no carriage return and no line feed. *)
Definition noBreak (s : string) : bool :=
  allChars (fun c => negb (c =? "013")%char && negb (c =? "010")%char) s.

(** The string holds no carriage return. *)
Definition noCR (s : string) : bool := allChars (fun c => negb (c =? "013")%char) s.

(** What the loop of [normalizeSrtTiming] does to one line. *)
Definition normalizeLine (line : string) : string :=
  if includesArrow line then fixTimingLine line else line.

(** *** Wrapped lines *)

(** The first character of a string, as a string. *)
Definition headOf (s : string) : string :=
  match s with
  | String c _ => String c EmptyString
  | EmptyString => EmptyString
  end.

(** A line fits, or is a single character. *)
Definition lineFits (measureText : string -> Q) (maxWidth : Q) (line : string) : Prop :=
  String.length line = 1%nat \/ (measureText line <= maxWidth)%Q.

(** Adding the first character of the next line to a line exceeds the
    width. *)
Fixpoint breaksLate (measureText : string -> Q) (maxWidth : Q)
    (lines : list string) : Prop :=
  match lines with
  | a :: (b :: _) as rest =>
      ~ (measureText (a +:+ headOf b) <= maxWidth)%Q
      /\ breaksLate measureText maxWidth rest
  | _ => True
  end.

(** The invariant of the loop of [wrapText]. *)
Definition wrapInv (measureText : string -> Q) (maxWidth : Q)
    (st : list string * string) : Prop :=
  Forall (lineFits measureText maxWidth) (fst st) /\
  (snd st = "" /\ fst st = []
   \/ snd st <> "" /\ lineFits measureText maxWidth (snd st)
      /\ breaksLate measureText maxWidth (fst st ++ [snd st])).

(** A measure for the sample runs: ten units per character. *)
Definition tenPerChar (s : string) : Q := inject_Z (10 * Z.of_nat (String.length s)).

(** The number a string of decimal digits stands for, leading zeros
    allowed. *)
Definition decimalValue (s : string) : option Z :=
  Z.of_uint <$> DecimalString.NilEmpty.uint_of_string s.

(** The storage after the [writeFile] calls of [entries], in order. *)
Definition filesWritten (fs : gmap string bytes) (entries : list (string * bytes))
  : gmap string bytes :=
  fold_left (fun fs e => <[fst e := snd e]> fs) entries fs.

(** The world in which the encoder runs: after the frame loop and the
    write of the audio file. *)
Definition stagedWorld {Image} (renderPixels : Image -> string -> Z -> Z -> Z -> bytes)
    (baseImage : Image) (audioFile : AudioFile) (srtContent : string)
    (subtitlePosition : Z) (w : World) : World :=
  snd ((generateFrames Image renderPixels baseImage (parseSrtToSubtitles srtContent)
          subtitlePosition (totalFramesOf audioFile);;;
        writeFile ("audio." +:+ audioExtOf (fileName audioFile)) (fileBytes audioFile)) w).

(** *** Values of canonical timestamps and well-formed blocks *)

(** The value of a decimal digit. *)
Definition digitValue (c : ascii) : Z := code c - 48.

(** The number of seconds that the fields of HH:MM:SS,mmm denote. *)
Definition stampSeconds (a b c d e f g h i : ascii) : Q :=
  secondsOf (10 * digitValue a + digitValue b) (10 * digitValue c + digitValue d)
    (10 * digitValue e + digitValue f)
    (100 * digitValue g + 10 * digitValue h + digitValue i).

(** A line of caption text: no line break in it, and not blank. *)
Definition captionLine (l : string) : bool :=
  noBreak l && negb (isEmpty (trim l)).

(** *** Code fences *)

(** The string holds no backquote. *)
Definition noTick (s : string) : bool := allChars (fun c => negb (c =? "`")%char) s.

(** The fence of three backquotes. *)
Definition fence : string := "```".

(** *** The stored configuration *)

(** The state a new page load starts from: the module variable is empty
    again, the local storage is as it was left. *)
Definition reload (st : ConfigState) : ConfigState :=
  mkConfigState None (localStorage st).

(** What [generateSrtFromAudio] makes of the outcome of the provider's
    path: a result is passed on, a message is wrapped. *)
Definition wrapFailure (r : Result string) : Result string :=
  match r with
  | Ok srtContent => Ok srtContent
  | Throw message => Throw ("SRT generation failed: " +:+ orUnknown message)
  end.

(** A configuration, a serializer and a reader used in examples. *)
Definition geminiConfig : ApiConfig := mkApiConfig GOOGLE_GEMINI "key-1" None None.
Definition stringifyFixed (config : ApiConfig) : string := "{}".
Definition parseFixed (stored : string) : option ApiConfig := Some geminiConfig.
Definition emptyConfigState : ConfigState := mkConfigState None ∅.

(** *** What a frame shows *)






(** *** Well-formed documents *)

(** The timestamp is written HH:MM:SS,mmm. *)
Definition isCanonical (t : string) : bool :=
  match t with
  | String a (String b (String s1 (String c (String d (String s2
      (String e (String f (String s3 (String g (String h (String i
        EmptyString))))))))))) =>
      forallb isDigit [a; b; c; d; e; f; g; h; i]
      && (s1 =? ":")%char && (s2 =? ":")%char && (s3 =? ",")%char
  | _ => false
  end.

(** The seconds and the clock string that a timestamp HH:MM:SS,mmm
    denotes. *)
Definition stampValue (t : string) : Q :=
  match t with
  | String a (String b (String _ (String c (String d (String _
      (String e (String f (String _ (String g (String h (String i _))))))))))) =>
      stampSeconds a b c d e f g h i
  | _ => 0%Q
  end.

Definition stampClock (t : string) : string :=
  match t with
  | String a (String b (String _ (String c (String d (String _
      (String e (String f (String _ (String g (String h _)))))))))) =>
      assClock a b c d e f g h
  | _ => EmptyString
  end.

(** An entry of a subtitle document: its index line, its two
    timestamps and its lines of text. *)
Record Entry := mkEntry {
  entryIndex : string;
  entryStart : string;
  entryEnd : string;
  entryLines : list string
}.

(** The block an entry is written as, and a document of entries
    separated by one blank line. *)
Definition entryBlock (e : Entry) : string :=
  join nl (entryIndex e :: (entryStart e +:+ " --> " +:+ entryEnd e) :: entryLines e).

Definition blankLine : string := nl +:+ nl.

Definition documentOf (entries : list Entry) : string :=
  join blankLine (map entryBlock entries).

(** The index line is not empty and holds no arrow, the timestamps are
    written HH:MM:SS,mmm, and there is at least one line of text, none of
    them blank. *)
Definition wellFormed (e : Entry) : bool :=
  noBreak (entryIndex e) && negb (isEmpty (entryIndex e))
  && negb (includesArrow (entryIndex e))
  && isCanonical (entryStart e) && isCanonical (entryEnd e)
  && negb (length (entryLines e) =? 0)%nat && forallb captionLine (entryLines e).

(** The cue and the Dialogue record an entry stands for. *)
Definition entryCue (e : Entry) : Cue :=
  mkCue (join " " (entryLines e)) (stampValue (entryStart e)) (stampValue (entryEnd e)).

Definition entryEvent (e : Entry) : string :=
  "Dialogue: 0," +:+ stampClock (entryStart e) +:+ "," +:+ stampClock (entryEnd e)
    +:+ ",Default,,0,0,0,," +:+ join "\N" (entryLines e).

(** [a] put in front of the first string of the list. *)
Definition prependHead (a : string) (l : list string) : list string :=
  match l with
  | x :: xs => (a +:+ x) :: xs
  | [] => [a]
  end.

(** Two entries for the sample runs. *)
Definition entryHello : Entry := mkEntry "1" "00:00:01,000" "00:00:04,500" ["Hello"; "world"].
Definition entryBye : Entry := mkEntry "2" "00:00:05,000" "00:01:08,250" ["Bye"].

(** *** Timestamps that start with the minutes *)

(** A timestamp MM:SS:mmm or MM:SS,mmm, the clock string 0:MM:SS.cc of
    its fields and the seconds they denote. *)
Definition minuteStamp (sep a b c d e f g : ascii) : string :=
  String a (String b (String ":" (String c (String d (String sep
    (String e (String f (String g EmptyString)))))))).

Definition minuteClock (a b c d e f : ascii) : string :=
  "0:" +:+ String a (String b EmptyString) +:+ ":" +:+ String c (String d EmptyString)
    +:+ "." +:+ String e (String f EmptyString).

Definition minuteSeconds (a b c d e f g : ascii) : Q :=
  secondsOf 0 (10 * digitValue a + digitValue b) (10 * digitValue c + digitValue d)
    (100 * digitValue e + 10 * digitValue f + digitValue g).

(** ** Strings: basic facts *)

Lemma append_nil_l (s : string) : "" +:+ s = s.
Proof. reflexivity. Qed.

Lemma append_cons (c : ascii) (s t : string) : String c s +:+ t = String c (s +:+ t).
Proof. reflexivity. Qed.

Lemma append_nil_r (s : string) : s +:+ "" = s.
Proof. induction s as [|c s IH]; [reflexivity|]. now rewrite append_cons, IH. Qed.

Lemma append_assoc (s t u : string) : (s +:+ t) +:+ u = s +:+ (t +:+ u).
Proof. induction s as [|c s IH]; [reflexivity|]. now rewrite !append_cons, IH. Qed.

Lemma isEmpty_true (s : string) : isEmpty s = true <-> s = "".
Proof. destruct s; cbn; split; congruence. Qed.

Lemma isEmpty_false (s : string) : isEmpty s = false <-> s <> "".
Proof. destruct s; cbn; split; congruence. Qed.

Lemma isEmpty_append (s t : string) : isEmpty (s +:+ t) = isEmpty s && isEmpty t.
Proof. now destruct s. Qed.

(** ** The timestamp parser reads a timestamp by its shape *)

Lemma orZero_componentValue (c : string) :
  orZero (parseInt (Some 10) c) = componentValue c.
Proof. unfold orZero, componentValue. now destruct (parseInt (Some 10) c). Qed.

Lemma timeToSeconds_readByShape (time : string) :
  timeToSeconds time = readByShape time.
Proof.
  unfold timeToSeconds, readByShape, part.
  rewrite !orZero_componentValue.
  destruct (splitSep (trim time)) as [|a [|b [|c [|d [|e rest]]]]]; reflexivity.
Qed.

(** C2. For every timestamp string, [timeToSeconds] splits it (once
    trimmed) on [:], [,] or [.] and returns
    [hours*3600 + minutes*60 + seconds + milliseconds/1000], reading four
    components as H:MM:SS:mmm, three components as MM:SS:mmm exactly when
    the third one's value exceeds 59 or its width is three characters and
    as H:MM:SS otherwise, two components as MM:SS, and failing on any other
    count; a component with no integer in front counts as 0.
    ["01:02:03,004"] yields 3723.004 and ["01:02,500"] yields 62.5, not
    3722. *)
Theorem timeToSeconds_by_shape :
  (forall time, timeToSeconds time = readByShape time) /\
  (forall c, parseInt (Some 10) c = None -> componentValue c = 0) /\
  (exists q, timeToSeconds "01:02:03,004" = Some q /\ (q == 3723.004)%Q) /\
  (exists q, timeToSeconds "01:02,500" = Some q /\ (q == 62.5)%Q /\ ~ (q == 3722)%Q).
Proof.
  split; [exact timeToSeconds_readByShape|].
  split; [intros c H; unfold componentValue; now rewrite H|].
  split.
  - eexists. split; [reflexivity|]. reflexivity.
  - eexists. split; [reflexivity|]. split; [reflexivity|]. discriminate.
Qed.

Lemma timeToSeconds_by_shape_witness : componentValue "abc" = 0.
Proof. apply (proj1 (proj2 timeToSeconds_by_shape)). reflexivity. Defined.

(** ** Caption selection takes the first cue that covers the instant *)

Lemma covers_inside (t : Q) (cue : Cue) : covers t cue = true <-> inside t cue.
Proof.
  unfold covers, inside. rewrite andb_true_iff, negb_true_iff, Qle_bool_iff.
  split; intros [H1 H2]; split; try assumption.
  - apply Qnot_le_lt. intros H. apply Qle_bool_iff in H. congruence.
  - destruct (Qle_bool (endSec cue) t) eqn:E; [|reflexivity].
    apply Qle_bool_iff in E. exfalso. eapply Qlt_not_le; eassumption.
Qed.

Lemma orEmpty_Some (s : string) : orEmpty (Some s) = s.
Proof. now destruct s. Qed.

Lemma find_first {A} (p : A -> bool) (l : list A) :
  match List.find p l with
  | Some x => exists before after,
      l = before ++ x :: after /\ Forall (fun y => p y = false) before /\ p x = true
  | None => Forall (fun y => p y = false) l
  end.
Proof.
  induction l as [|y l IH]; cbn; [constructor|].
  destruct (p y) eqn:E.
  - exists [], l. repeat split; [constructor | assumption].
  - destruct (List.find p l) as [x|].
    + destruct IH as (before & after & -> & Hb & Hx).
      exists (y :: before), after. repeat split; [constructor|]; assumption.
    + now constructor.
Qed.

(** C5. For every cue list and every sampled instant [t], the caption of
    the frame at [t] is the text of the first cue in source order with
    [startSec <= t < endSec], and the empty caption when no cue contains
    [t]; for the cues [{0,2,"A"}; {2,4,"B"}], 1.9 yields "A", 2.0 yields "B"
    and 5.0 the empty caption. *)
Theorem captionAt_first_match :
  (forall (subtitles : list Cue) (t : Q),
     (exists before cue after,
        subtitles = before ++ cue :: after /\
        Forall (fun c => ~ inside t c) before /\
        inside t cue /\
        captionAt subtitles t = text cue)
     \/ (Forall (fun c => ~ inside t c) subtitles /\ captionAt subtitles t = "")) /\
  captionAt cuesAB 1.9 = "A" /\
  captionAt cuesAB 2.0 = "B" /\
  captionAt cuesAB 5.0 = "".
Proof.
  split; [|repeat split; reflexivity].
  intros subtitles t. unfold captionAt.
  assert (Hno : forall l, Forall (fun y => covers t y = false) l ->
                          Forall (fun c => ~ inside t c) l).
  { intros l Hl. eapply Forall_impl; [exact Hl|]. intros c Hc Hin.
    apply covers_inside in Hin. congruence. }
  pose proof (find_first (covers t) subtitles) as H.
  destruct (List.find (covers t) subtitles) as [cue|].
  - left. destruct H as (before & after & -> & Hb & Hx).
    exists before, cue, after. repeat split.
    + now apply Hno.
    + apply covers_inside in Hx. apply Hx.
    + apply covers_inside in Hx. apply Hx.
    + cbn. apply orEmpty_Some.
  - right. split; [now apply Hno | reflexivity].
Qed.

(** ** Caption wrapping keeps the text *)

Section WrapFacts.

Variable measureText : string -> Q.

Lemma concatLines_app (l1 l2 : list string) :
  concatLines (l1 ++ l2) = concatLines l1 +:+ concatLines l2.
Proof.
  induction l1 as [|x l1 IH]; [reflexivity|].
  cbn. rewrite IH. symmetry. apply append_assoc.
Qed.

Lemma concatLines_splitChars (s : string) : concatLines (splitChars s) = s.
Proof.
  induction s as [|c s IH]; [reflexivity|].
  cbn. now rewrite IH, append_cons, append_nil_l.
Qed.

Lemma wrapStep_fold (maxWidth : Q) (words : list string) :
  forall lines currentLine,
    Forall (fun l => l <> "") lines ->
    concatLines (fst (fold_left (wrapStep measureText maxWidth) words (lines, currentLine)))
      +:+ snd (fold_left (wrapStep measureText maxWidth) words (lines, currentLine))
      = concatLines lines +:+ currentLine +:+ concatLines words
    /\ Forall (fun l => l <> "")
         (fst (fold_left (wrapStep measureText maxWidth) words (lines, currentLine))).
Proof.
  induction words as [|w words IH]; intros lines currentLine Hne; cbn [fold_left].
  - cbn. split; [now rewrite append_nil_r | assumption].
  - destruct (wrapStep measureText maxWidth (lines, currentLine) w)
      as [lines' currentLine'] eqn:Hstep.
    unfold wrapStep in Hstep.
    destruct (negb (Qle_bool (measureText (currentLine +:+ w)) maxWidth)
              && negb (isEmpty currentLine)) eqn:E; inversion Hstep; subst; clear Hstep.
    + apply andb_true_iff in E as [_ E].
      apply negb_true_iff, isEmpty_false in E.
      destruct (IH (lines ++ [currentLine]) currentLine') as [H1 H2].
      { apply Forall_app. split; [assumption | now repeat constructor]. }
      split; [|exact H2].
      rewrite H1, concatLines_app. cbn.
      now rewrite append_nil_r, !append_assoc.
    + destruct (IH lines' (currentLine +:+ w) Hne) as [H1 H2].
      split; [|exact H2].
      rewrite H1. cbn. now rewrite !append_assoc.
Qed.

(** C10. Wrapping loses no text: the concatenation, in order, of the
    lines [wrapText] returns is the caption itself, and every line is
    non-empty. *)
Theorem wrapText_keeps_text (text : string) (maxWidth : Q) :
  concatLines (wrapText measureText text maxWidth) = text
  /\ Forall (fun line => line <> "") (wrapText measureText text maxWidth).
Proof.
  unfold wrapText.
  pose proof (wrapStep_fold maxWidth (splitChars text) [] "" (List.Forall_nil _)) as H.
  destruct (fold_left (wrapStep measureText maxWidth) (splitChars text) ([], ""))
    as [lines currentLine].
  cbn [fst snd] in H. destruct H as [H1 H2].
  rewrite concatLines_splitChars in H1. cbn in H1.
  destruct (isEmpty currentLine) eqn:E.
  - apply isEmpty_true in E. subst. rewrite append_nil_r in H1. now split.
  - apply isEmpty_false in E. split.
    + rewrite concatLines_app. cbn. now rewrite append_nil_r.
    + apply Forall_app. split; [assumption | now repeat constructor].
Qed.

End WrapFacts.

(** ** The subtitle track parser *)

Lemma parseBlocks_omap (blocks : list string) :
  forall subtitles, parseBlocks blocks subtitles = subtitles ++ omap cueOfBlock blocks.
Proof.
  induction blocks as [|b blocks IH]; intros subtitles; cbn.
  - now rewrite app_nil_r.
  - destruct (cueOfBlock b) as [cue|]; rewrite IH; [|reflexivity].
    now rewrite <- app_assoc.
Qed.

Lemma includesArrow_nonempty (line : string) :
  includesArrow line = true -> isEmpty line = false.
Proof. now destruct line. Qed.

Lemma findTiming_none (lines : list string) :
  forall i, Forall (fun l => includesArrow l = false) lines ->
            findTiming lines i = ("", O).
Proof.
  induction lines as [|l lines IH]; intros i H; [reflexivity|].
  inversion H as [|? ? Hl Hrest]; subst. cbn. rewrite Hl. now apply IH.
Qed.

Lemma findTiming_arrow (pre : list string) (line : string) (post : list string) :
  forall i, Forall (fun l => includesArrow l = false) pre ->
            includesArrow line = true ->
            findTiming (pre ++ line :: post) i = (line, S (i + length pre)).
Proof.
  induction pre as [|l pre IH]; intros i Hpre Hline; cbn.
  - rewrite Hline. do 2 f_equal. lia.
  - inversion Hpre as [|? ? Hl Hrest]; subst. rewrite Hl.
    rewrite IH by assumption. do 2 f_equal. lia.
Qed.

Lemma findTiming_found (lines : list string) :
  forall i line k,
    findTiming lines i = (line, k) -> isEmpty line = false ->
    exists pre post,
      lines = pre ++ line :: post /\
      Forall (fun l => includesArrow l = false) pre /\
      includesArrow line = true /\ k = S (i + length pre).
Proof.
  induction lines as [|l lines IH]; intros i line k H Hne; cbn in H.
  - inversion H; subst. discriminate.
  - destruct (includesArrow l) eqn:E.
    + inversion H; subst. exists [], lines. repeat split; auto; cbn; lia.
    + destruct (IH _ _ _ H Hne) as (pre & post & -> & Hpre & Hl & ->).
      exists (l :: pre), post. repeat split; auto; cbn; lia.
Qed.

Lemma drop_after_arrow (pre : list string) (line : string) (post : list string) :
  drop (S (0 + length pre)) (pre ++ line :: post) = post.
Proof.
  cbn [Nat.add]. change (S (length pre)) with (1 + length pre)%nat.
  rewrite Nat.add_comm, <- drop_drop, drop_app_length. reflexivity.
Qed.

Lemma textLinesOf_blank (lines : list string) :
  Forall (fun l => trim l = "") lines ->
  List.filter (fun l => negb (isEmpty (trim l))) lines = [].
Proof.
  induction 1 as [|l lines Hl _ IH]; [reflexivity|].
  cbn. now rewrite Hl, IH.
Qed.

Lemma cueOfBlock_malformed (block : string) :
  Malformed block -> cueOfBlock block = None.
Proof.
  intros H. unfold cueOfBlock.
  destruct (length (splitLines block) <? 2)%nat; [reflexivity|].
  destruct H as [Hno | pre line post (Hl & Hpre & Hline) Hlen
                 | pre line post a b (Hl & Hpre & Hline) Hsplit Hshape
                 | pre line post (Hl & Hpre & Hline) Hblank].
  - now rewrite findTiming_none.
  - rewrite Hl, findTiming_arrow, (includesArrow_nonempty _ Hline) by assumption.
    rewrite length_map.
    destruct (length (splitArrow line) =? 2)%nat eqn:E; [|reflexivity].
    apply Nat.eqb_eq in E. contradiction.
  - rewrite Hl, findTiming_arrow, (includesArrow_nonempty _ Hline) by assumption.
    rewrite Hsplit. cbn.
    destruct Hshape as [-> | ->]; [reflexivity|].
    now destruct (timeToSeconds (trim a)).
  - rewrite Hl, findTiming_arrow, (includesArrow_nonempty _ Hline) by assumption.
    destruct (negb _); [reflexivity|].
    destruct (timeToSeconds _); [|reflexivity].
    destruct (timeToSeconds _); [|reflexivity].
    unfold textLinesOf. rewrite drop_after_arrow, textLinesOf_blank by assumption.
    reflexivity.
Qed.

(** C9. The subtitle track parser is a total function of the document (no
    step of it can raise), and a malformed block contributes no cue: a
    block with no arrow line, a block whose arrow line does not split into
    exactly two timestamps, a block with a timestamp of no recognized shape
    and a block whose text is empty after trimming are each skipped, so the
    parse equals the parse of the other blocks.  A document with one
    well-formed block and one block without the arrow yields exactly one
    cue. *)
Theorem parse_drops_malformed :
  (forall srtContent before block after,
     splitBlocks (trim srtContent) = before ++ block :: after ->
     Malformed block ->
     parseSrtToSubtitles srtContent = parseBlocks (before ++ after) []) /\
  map text (parseSrtToSubtitles mixedDoc) = ["Hello"].
Proof.
  split.
  - intros srtContent before block after Hsplit Hbad.
    unfold parseSrtToSubtitles. rewrite Hsplit, !parseBlocks_omap.
    rewrite !omap_app. cbn. now rewrite (cueOfBlock_malformed _ Hbad).
  - reflexivity.
Qed.

Lemma parse_drops_malformed_witness :
  parseSrtToSubtitles mixedDoc
  = parseBlocks ([join nl ["1"; "00:00:01,000 --> 00:00:04,000"; "Hello"]] ++ []) [].
Proof.
  apply (proj1 parse_drops_malformed mixedDoc _
           (join nl ["2"; "00:00:05,000 00:00:08,000"; "World"]) []).
  - reflexivity.
  - apply NoArrowLine. repeat constructor.
Defined.

Lemma join_nonempty (sep : string) (lines : list string) :
  isEmpty (join sep lines) = false -> lines <> [].
Proof. now destruct lines. Qed.

Lemma cueOfBlock_times (block : string) (cue : Cue) :
  cueOfBlock block = Some cue ->
  exists pre line post a b,
    ArrowLine block pre line post /\
    splitArrow line = [a; b] /\
    timeToSeconds (trim a) = Some (startSec cue) /\
    timeToSeconds (trim b) = Some (endSec cue) /\
    text cue <> "".
Proof.
  unfold cueOfBlock. intros H.
  destruct (length (splitLines block) <? 2)%nat; [discriminate|].
  destruct (findTiming (splitLines block) 0) as [line k] eqn:Hf.
  destruct (isEmpty line) eqn:Hne; [discriminate|].
  destruct (findTiming_found _ _ _ _ Hf Hne) as (pre & post & Hl & Hpre & Hline & _).
  destruct (splitArrow line) as [|a [|b [|c rest]]] eqn:Hs; try discriminate.
  cbn in H.
  destruct (timeToSeconds (trim a)) as [st|] eqn:Ha; [|discriminate].
  destruct (timeToSeconds (trim b)) as [en|] eqn:Hb; [|discriminate].
  destruct (isEmpty (join " " (textLinesOf (splitLines block) k))) eqn:Ht; [discriminate|].
  inversion H; subst; clear H. cbn.
  exists pre, line, post, a, b. repeat split; auto.
  now apply isEmpty_false.
Qed.

(** C8, as the code has it.  Every cue the parser produces carries, as
    [startSec] and [endSec], the values [timeToSeconds] gives for the left
    and the right side of the arrow line of its block, and a non-empty
    text; the two values are not compared. *)
Theorem cue_times_as_written (srtContent : string) (cue : Cue) :
  In cue (parseSrtToSubtitles srtContent) ->
  exists block pre line post a b,
    In block (splitBlocks (trim srtContent)) /\
    ArrowLine block pre line post /\
    splitArrow line = [a; b] /\
    timeToSeconds (trim a) = Some (startSec cue) /\
    timeToSeconds (trim b) = Some (endSec cue) /\
    text cue <> "".
Proof.
  unfold parseSrtToSubtitles. rewrite parseBlocks_omap. cbn.
  intros H. apply list_elem_of_In, list_elem_of_omap in H.
  destruct H as (block & Hin & Hcue).
  destruct (cueOfBlock_times _ _ Hcue) as (pre & line & post & a & b & H).
  exists block, pre, line, post, a, b. split; [|exact H].
  now apply list_elem_of_In.
Qed.

Lemma cue_times_as_written_witness :
  exists block pre line post a b,
    In block (splitBlocks (trim backwardsDoc)) /\
    ArrowLine block pre line post /\
    splitArrow line = [a; b] /\
    timeToSeconds (trim a) = Some 5.000%Q /\
    timeToSeconds (trim b) = Some 1.000%Q /\
    "Hi" <> "".
Proof.
  apply (cue_times_as_written backwardsDoc (mkCue "Hi" 5.000 1.000)).
  left. reflexivity.
Defined.

(** C8 fails as stated: the cue of [backwardsDoc] ends before it starts. *)
Lemma cue_end_before_start :
  ~ Forall (fun cue => (startSec cue <= endSec cue)%Q) (parseSrtToSubtitles backwardsDoc).
Proof.
  intros H. apply Forall_inv in H. vm_compute in H. now apply H.
Qed.

(** ** The frame cache *)

Section FrameCache.

Variable Image : Type.
Variable renderPixels : Image -> string -> Z -> Z -> Z -> bytes.
Variable baseImage : Image.
Variable subtitles : list Cue.
Variable subtitlePosition : Z.

Let caption (i : nat) : string := captionAt subtitles (frameTime i).
Let pixels (c : string) : bytes := renderPixels baseImage c 1280 720 subtitlePosition.

Local Abbreviation cacheAfter :=
  (cacheAfter Image renderPixels baseImage subtitlePosition).

Lemma frameStep_run (prev : option string) (cache : Cache) (i : nat) (w : World) :
  cacheAfter prev cache ->
  exists w',
    frameStep Image renderPixels baseImage subtitles subtitlePosition cache i w
      = (Ok (mkCache (caption i) (Some (pixels (caption i)))), w') /\
    composed w' = composed w ++ runHeads prev [caption i] /\
    written w' = written w ++ [(frameName i, pixels (caption i))].
Proof.
  intros Hc. unfold frameStep, bind, renderFrame, writeFile, ret.
  fold (frameTime i). fold (caption i).
  destruct prev as [p|]; cbn in Hc.
  - subst cache. cbn [lastSubtitle cachedFrameData].
    destruct (String.eqb_spec (caption i) p) as [E|E]; cbn.
    + rewrite E. eexists. split; [reflexivity|]. cbn.
      rewrite decide_True by reflexivity. now rewrite app_nil_r.
    + eexists. split; [reflexivity|]. cbn.
      rewrite decide_False by congruence. split; reflexivity.
  - rewrite Hc. rewrite orb_true_r. cbn.
    eexists. split; [reflexivity|]. split; reflexivity.
Qed.

Lemma runHeads_cons (prev : option string) (c : string) (rest : list string) :
  runHeads prev (c :: rest) = runHeads prev [c] ++ runHeads (Some c) rest.
Proof. cbn. now destruct (decide (prev = Some c)). Qed.

Lemma frames_run (indices : list nat) :
  forall prev cache w,
    cacheAfter prev cache ->
    exists cache' w',
      forEach (frameStep Image renderPixels baseImage subtitles subtitlePosition)
        indices cache w = (Ok cache', w') /\
      composed w' = composed w ++ runHeads prev (map caption indices) /\
      written w' = written w ++ map (fun i => (frameName i, pixels (caption i))) indices.
Proof.
  induction indices as [|i indices IH]; intros prev cache w Hc.
  - exists cache, w. cbn. rewrite !app_nil_r. now repeat split.
  - destruct (frameStep_run prev cache i w Hc) as (w1 & Hstep & Hcomp & Hwr).
    destruct (IH (Some (caption i)) _ w1 eq_refl) as (cache' & w' & Hrest & Hcomp' & Hwr').
    exists cache', w'. split; [|split].
    + cbn [forEach]. unfold bind at 1. now rewrite Hstep.
    + rewrite Hcomp', Hcomp, <- app_assoc. f_equal.
      change (map caption (i :: indices)) with (caption i :: map caption indices).
      symmetry. apply runHeads_cons.
    + rewrite Hwr', Hwr, <- app_assoc. reflexivity.
Qed.

(** C6. The frame loop invokes the compositor exactly once per maximal
    run of consecutive frames with the same caption, in order (so two
    consecutive frames with one caption never compose twice), and the
    bytes written for every frame are the bytes the compositor gives
    for that frame's caption. *)
Theorem frame_cache_once_per_run (totalFrames : nat) (w : World) :
  exists cache w',
    generateFrames Image renderPixels baseImage subtitles subtitlePosition
      totalFrames w = (Ok cache, w') /\
    composed w' = composed w ++ runHeads None (map caption (seq 0 totalFrames)) /\
    written w' = written w
      ++ map (fun i => (frameName i, pixels (caption i))) (seq 0 totalFrames).
Proof. unfold generateFrames. now apply frames_run. Qed.

End FrameCache.

(** ** Cleanup of the working storage *)

Section Cleanup.

Variable Image : Type.
Variable loadImage : bytes -> option Image.
Variable renderPixels : Image -> string -> Z -> Z -> Z -> bytes.
Variable exec : list string -> gmap string bytes -> option (gmap string bytes).

Local Abbreviation beforeCleanup :=
  (beforeCleanup Image loadImage renderPixels exec).

Lemma framesDeleted_lookup (indices : list nat) :
  forall (fs : gmap string bytes) (name : string),
    In name (map frameName indices) \/ fs !! name = None ->
    framesDeleted fs indices !! name = None.
Proof.
  induction indices as [|i indices IH]; intros fs name H; cbn.
  - destruct H as [[]|H]; exact H.
  - apply IH. destruct H as [[<-|H]|H]; [right|left|right].
    + apply lookup_delete_eq.
    + exact H.
    + apply lookup_delete_None. now right.
Qed.

Lemma delete_frames_ok (deleteFails : gmap string bytes -> string -> bool)
    (indices : list nat) :
  (forall fs name, deleteFails fs name = false) ->
  forall w,
    forEach (fun _ i => deleteFile deleteFails (frameName i)) indices tt w
    = (Ok tt, mkWorld (framesDeleted (files w) indices) (composed w) (written w)).
Proof.
  intros Hok. induction indices as [|i indices IH]; intros w.
  - now destruct w.
  - cbn [forEach]. unfold bind at 1, deleteFile at 1.
    rewrite Hok, IH. reflexivity.
Qed.

(** The cleanup never throws, whatever the storage refuses. *)
Lemma cleanup_returns (deleteFails : gmap string bytes -> string -> bool)
    (totalFrames : nat) (audioName outputName : string) (w : World) :
  exists w', cleanup deleteFails totalFrames audioName outputName w = (Ok tt, w').
Proof.
  unfold cleanup, tryCatch, ret.
  destruct (cleanupBody deleteFails totalFrames audioName outputName w) as [[[]|msg] w'];
    eauto.
Qed.

(** With nothing refused, the cleanup removes every artifact. *)
Lemma cleanup_removes (deleteFails : gmap string bytes -> string -> bool)
    (totalFrames : nat) (audioName outputName : string) (w : World) :
  (forall fs name, deleteFails fs name = false) ->
  exists w',
    cleanup deleteFails totalFrames audioName outputName w = (Ok tt, w') /\
    forall name,
      In name (map frameName (seq 0 totalFrames) ++ [audioName; outputName]) ->
      files w' !! name = None.
Proof.
  intros Hok. unfold cleanup, tryCatch, cleanupBody, bind.
  rewrite delete_frames_ok by assumption.
  unfold deleteFile. cbn [files composed written]. rewrite !Hok.
  eexists. split; [reflexivity|].
  cbn [files]. intros name Hin.
  apply in_app_or in Hin as [Hin | [<- | [<- | []]]].
  - apply lookup_delete_None. right. apply lookup_delete_None. right.
    apply framesDeleted_lookup. now left.
  - apply lookup_delete_None. right. apply lookup_delete_eq.
  - apply lookup_delete_eq.
Qed.

Lemma createVideo_split (deleteFails : gmap string bytes -> string -> bool)
    (loaded : bool) (imageFile : bytes) (audioFile : AudioFile)
    (srtContent : string) (subtitlePosition : Z) (w : World) :
  createVideo Image loadImage renderPixels exec deleteFails loaded imageFile
    audioFile srtContent subtitlePosition w
  = match beforeCleanup loaded imageFile audioFile srtContent subtitlePosition w with
    | (Ok data, w1) =>
        (Ok data,
         snd (cleanup deleteFails (totalFramesOf audioFile)
                ("audio." +:+ audioExtOf (fileName audioFile)) "output.mp4" w1))
    | (Throw msg, w1) => (Throw msg, w1)
    end.
Proof.
  unfold createVideo, beforeCleanup.
  destruct loaded; cbn [negb]; [|reflexivity].
  destruct (loadImage imageFile) as [baseImage|]; [|reflexivity].
  unfold bind.
  destruct (generateFrames _ _ _ _ _ _ w) as [[cache|msg] w1]; [|reflexivity].
  destruct (writeFile _ _ w1) as [[[]|msg] w2]; [|reflexivity].
  destruct (execJob _ _ w2) as [[[]|msg] w3]; [|reflexivity].
  destruct (readFile _ w3) as [[data|msg] w4]; [|reflexivity].
  destruct (cleanup_returns deleteFails (totalFramesOf audioFile)
              ("audio." +:+ audioExtOf (fileName audioFile)) "output.mp4" w4)
    as [w5 ->].
  reflexivity.
Qed.

(** C1, as the code has it.  A deletion that fails never makes
    [createVideo] fail: its result does not depend on what the storage
    refuses to delete.  When [createVideo] returns and no deletion fails,
    none of the frame files, the audio file and the output file remain
    in the working storage. *)
Theorem createVideo_cleanup (loaded : bool) (imageFile : bytes)
    (audioFile : AudioFile) (srtContent : string) (subtitlePosition : Z)
    (w : World) :
  (forall deleteFails1 deleteFails2,
     fst (createVideo Image loadImage renderPixels exec deleteFails1 loaded
            imageFile audioFile srtContent subtitlePosition w)
     = fst (createVideo Image loadImage renderPixels exec deleteFails2 loaded
              imageFile audioFile srtContent subtitlePosition w)) /\
  (forall deleteFails data w',
     createVideo Image loadImage renderPixels exec deleteFails loaded
       imageFile audioFile srtContent subtitlePosition w = (Ok data, w') ->
     (forall fs name, deleteFails fs name = false) ->
     forall name, In name (artifacts audioFile) -> files w' !! name = None).
Proof.
  split.
  - intros d1 d2. rewrite !createVideo_split.
    now destruct (beforeCleanup _ _ _ _ _ w) as [[data|msg] w1].
  - intros deleteFails data w' Hrun Hok name Hin.
    rewrite createVideo_split in Hrun.
    destruct (beforeCleanup _ _ _ _ _ w) as [[data1|msg] w1]; [|discriminate].
    inversion Hrun; subst; clear Hrun.
    destruct (cleanup_removes deleteFails (totalFramesOf audioFile)
                ("audio." +:+ audioExtOf (fileName audioFile)) "output.mp4" w1 Hok)
      as (w5 & -> & Hgone).
    now apply Hgone.
Qed.

End Cleanup.

Lemma createVideo_cleanup_witness :
  files (snd (createVideo unit loadAny renderNone execWrites refuseNothing true []
                halfSecond "" 50 emptyWorld)) !! "frame00001.jpg" = None.
Proof.
  apply (proj2 (createVideo_cleanup unit loadAny renderNone execWrites true []
                  halfSecond "" 50 emptyWorld) refuseNothing []).
  - vm_compute. reflexivity.
  - reflexivity.
  - vm_compute. right. left. reflexivity.
Defined.

(** C1 fails as stated.  When the storage refuses to delete the first
    frame, [createVideo] returns and the second frame, the audio file and
    the output file stay, although nothing refuses their deletion; when the
    encoder rejects, [createVideo] throws and both frames and the audio
    file stay. *)
Lemma cleanup_leaves_artifacts :
  (exists data w',
     createVideo unit loadAny renderNone execWrites refuseFirstFrame true []
       halfSecond "" 50 emptyWorld = (Ok data, w') /\
     Forall (fun name => refuseFirstFrame (files w') name = false
                         /\ is_Some (files w' !! name))
       ["frame00001.jpg"; "audio.mp3"; "output.mp4"]) /\
  (exists msg w',
     createVideo unit loadAny renderNone execRejects refuseNothing true []
       halfSecond "" 50 emptyWorld = (Throw msg, w') /\
     Forall (fun name => is_Some (files w' !! name))
       ["frame00000.jpg"; "frame00001.jpg"; "audio.mp3"]).
Proof.
  split.
  - eexists _, _. split; [vm_compute; reflexivity|].
    repeat constructor; vm_compute; eauto.
  - eexists _, _. split; [vm_compute; reflexivity|].
    repeat constructor; vm_compute; eauto.
Qed.

(** ** Trimming *)

Lemma trimStart_id (s : string) : headOk s = true -> trimStart s = s.
Proof.
  destruct s as [|c s]; [reflexivity|]. cbn. intros H.
  apply negb_true_iff in H. now rewrite H.
Qed.

Lemma trimEnd_id (s : string) : lastOk s = true -> trimEnd s = s.
Proof.
  induction s as [|c s IH]; [reflexivity|].
  destruct s as [|c' s'].
  - cbn. intros H. apply negb_true_iff in H. now rewrite H.
  - intros H. change (lastOk (String c' s') = true) in H.
    cbn [trimEnd]. cbn [trimEnd] in IH. rewrite (IH H).
    cbn. now rewrite andb_false_r.
Qed.

Lemma headOk_trimStart (s : string) : headOk (trimStart s) = true.
Proof.
  induction s as [|c s IH]; [reflexivity|].
  cbn. destruct (isSpace c) eqn:E; [exact IH|]. cbn. now rewrite E.
Qed.

Lemma lastOk_trimEnd (s : string) : lastOk (trimEnd s) = true.
Proof.
  induction s as [|c s IH]; [reflexivity|].
  cbn [trimEnd]. destruct (trimEnd s) as [|c' r] eqn:E.
  - destruct (isSpace c) eqn:Ec; cbn; [reflexivity|]. now rewrite Ec.
  - rewrite andb_false_r. exact IH.
Qed.

Lemma headOk_trimEnd (s : string) : headOk s = true -> headOk (trimEnd s) = true.
Proof.
  destruct s as [|c s]; [reflexivity|]. cbn. intros H.
  apply negb_true_iff in H. rewrite H. cbn. now rewrite H.
Qed.

Lemma trim_id (s : string) : headOk s = true -> lastOk s = true -> trim s = s.
Proof. intros Hh Hl. unfold trim. now rewrite trimStart_id, trimEnd_id. Qed.

Lemma headOk_trim (s : string) : headOk (trim s) = true.
Proof. apply headOk_trimEnd, headOk_trimStart. Qed.

Lemma lastOk_trim (s : string) : lastOk (trim s) = true.
Proof. apply lastOk_trimEnd. Qed.

Lemma trim_trim (s : string) : trim (trim s) = trim s.
Proof. apply trim_id; [apply headOk_trim | apply lastOk_trim]. Qed.

Lemma headOk_append (s t : string) :
  isEmpty s = false -> headOk (s +:+ t) = headOk s.
Proof. now destruct s. Qed.

Lemma lastOk_append (s t : string) :
  isEmpty t = false -> lastOk (s +:+ t) = lastOk t.
Proof.
  intros Ht. induction s as [|c s IH]; [reflexivity|].
  rewrite append_cons. destruct (s +:+ t) as [|c' r] eqn:E.
  - apply (f_equal isEmpty) in E.
    rewrite isEmpty_append, Ht, andb_false_r in E. discriminate.
  - exact IH.
Qed.

(** ** Splitting on the separators *)

Lemma allChars_append (p : ascii -> bool) (s t : string) :
  allChars p (s +:+ t) = allChars p s && allChars p t.
Proof.
  induction s as [|c s IH]; [reflexivity|].
  rewrite append_cons. cbn. now rewrite IH, andb_assoc.
Qed.

Lemma splitSep_noSep (a : string) : noSep a = true -> splitSep a = [a].
Proof.
  unfold splitSep, noSep. induction a as [|c a IH]; [reflexivity|].
  cbn. intros H. apply andb_true_iff in H as [Hc Ha].
  apply negb_true_iff in Hc. rewrite Hc, (IH Ha). reflexivity.
Qed.

Lemma splitSep_append (a : string) (c : ascii) (b : string) :
  noSep a = true -> isSep c = true ->
  splitSep (a +:+ String c b) = a :: splitSep b.
Proof.
  unfold splitSep, noSep. intros Ha Hc.
  induction a as [|x a IH].
  - rewrite append_nil_l. cbn. now rewrite Hc.
  - cbn in Ha. apply andb_true_iff in Ha as [Hx Ha].
    apply negb_true_iff in Hx. rewrite append_cons. cbn.
    rewrite Hx, (IH Ha). reflexivity.
Qed.

Lemma splitSep_parts (s : string) :
  Forall (fun p => noSep p = true) (splitSep s).
Proof.
  unfold splitSep, noSep. induction s as [|c s IH]; [now repeat constructor|].
  cbn. destruct (isSep c) eqn:E.
  - now constructor.
  - destruct (splitOn isSep s) as [|p ps]; cbn.
    + repeat constructor. cbn. now rewrite E.
    + inversion IH; subst. constructor; [|assumption].
      cbn. rewrite E. assumption.
Qed.

Lemma splitSep_head (s : string) :
  headOk s = true -> headOk (part (splitSep s) 0) = true.
Proof.
  unfold splitSep, part. destruct s as [|c s]; [reflexivity|].
  cbn. intros H. destruct (isSep c); [reflexivity|].
  now destruct (splitOn isSep s).
Qed.

Lemma splitSep_nonempty (s : string) : splitSep s <> [].
Proof.
  unfold splitSep. destruct s as [|c s]; [discriminate|].
  cbn. destruct (isSep c); [discriminate|]. now destruct (splitOn isSep s).
Qed.

Lemma splitSep_last (s : string) :
  lastOk s = true -> lastOk (List.last (splitSep s) "") = true.
Proof.
  unfold splitSep. induction s as [|c s IH]; [reflexivity|].
  intros H. cbn [splitOn].
  destruct s as [|c' s'].
  - cbn in *. destruct (isSep c); [reflexivity|]. cbn. exact H.
  - change (lastOk (String c' s') = true) in H. specialize (IH H).
    pose proof (splitSep_nonempty (String c' s')) as Hne. unfold splitSep in Hne.
    destruct (splitOn isSep (String c' s')) as [|p [|q ps]] eqn:E; [contradiction| |].
    + destruct (isSep c); cbn; cbn in IH; [exact IH|].
      destruct p as [|x p]; [|exact IH].
      exfalso. cbn in E. destruct (isSep c').
      * inversion E as [E']. now apply (splitSep_nonempty s').
      * now destruct (splitOn isSep s').
    + destruct (isSep c); exact IH.
Qed.

(** ** The two field formats *)

Lemma pad2_long (c1 c2 : ascii) (s : string) :
  pad2 (String c1 (String c2 s)) = String c1 (String c2 s).
Proof. reflexivity. Qed.

Lemma pad2_pad2 (s : string) : pad2 (pad2 s) = pad2 s.
Proof. now destruct s as [|c1 [|c2 s]]. Qed.

Lemma isEmpty_pad2 (s : string) : isEmpty (pad2 s) = false.
Proof. now destruct s as [|c1 [|c2 s]]. Qed.

Lemma headOk_pad2 (s : string) : headOk s = true -> headOk (pad2 s) = true.
Proof. now destruct s as [|c1 [|c2 s]]. Qed.

Lemma noSep_pad2 (s : string) : noSep s = true -> noSep (pad2 s) = true.
Proof. now destruct s as [|c1 [|c2 s]]. Qed.

Lemma componentValue_pad2 (s : string) : componentValue (pad2 s) = componentValue s.
Proof.
  destruct s as [|c1 [|c2 s]]; [reflexivity| |reflexivity].
  destruct c1 as [[] [] [] [] [] [] [] []]; reflexivity.
Qed.

Lemma ms3_three (s : string) : String.length s = 3%nat -> ms3 s = s.
Proof. destruct s as [|a [|b [|c [|d s]]]]; try discriminate. reflexivity. Qed.

Lemma ms3_ms3 (s : string) : ms3 (ms3 s) = ms3 s.
Proof. now destruct s as [|a [|b [|c s]]]. Qed.

Lemma isEmpty_ms3 (s : string) : isEmpty (ms3 s) = false.
Proof. now destruct s as [|a [|b [|c s]]]. Qed.

Lemma ms3_short :
  ms3 "" = "000" /\
  (forall a, ms3 (String a "") = String a "00") /\
  (forall a b, ms3 (String a (String b "")) = String a (String b "0")) /\
  (forall a b c s,
     ms3 (String a (String b (String c s))) = String a (String b (String c ""))).
Proof. repeat split. Qed.

Lemma noSep_ms3 (s : string) : noSep s = true -> noSep (ms3 s) = true.
Proof.
  destruct ms3_short as (H0 & H1 & H2 & H3).
  destruct s as [|a [|b [|c s]]]; [rewrite H0 | rewrite H1 | rewrite H2 | rewrite H3];
    unfold noSep; cbn; intros H;
    repeat (apply andb_true_iff in H as [? H]);
    repeat (apply andb_true_iff; split); auto.
Qed.

Lemma lastOk_ms3 (s : string) : thirdCharOk s = true -> lastOk (ms3 s) = true.
Proof. now destruct s as [|a [|b [|c s]]]. Qed.

Lemma thirdCharOk_three (s : string) :
  String.length s = 3%nat -> lastOk s = true -> thirdCharOk s = true.
Proof. destruct s as [|a [|b [|c [|d s]]]]; try discriminate. now cbn. Qed.

(** ** Timestamps in the canonical layout *)

Lemma stamp4_split (hh mm ss mmm : string) :
  noSep hh = true -> noSep mm = true -> noSep ss = true -> noSep mmm = true ->
  splitSep (stamp4 hh mm ss mmm) = [hh; mm; ss; mmm].
Proof.
  intros H1 H2 H3 H4. unfold stamp4.
  change (hh +:+ ":" +:+ mm +:+ ":" +:+ ss +:+ "," +:+ mmm)
    with (hh +:+ String ":" (mm +:+ String ":" (ss +:+ String "," mmm))).
  rewrite !splitSep_append by (assumption || reflexivity).
  now rewrite splitSep_noSep.
Qed.

Lemma stamp4_trim (hh mm ss mmm : string) :
  headOk hh = true -> isEmpty hh = false ->
  lastOk mmm = true -> isEmpty mmm = false ->
  trim (stamp4 hh mm ss mmm) = stamp4 hh mm ss mmm.
Proof.
  intros H1 H2 H3 H4. unfold stamp4. apply trim_id.
  - now rewrite headOk_append.
  - rewrite (lastOk_append hh) by reflexivity.
    change (lastOk (String ":" mm +:+ String ":" ss +:+ String "," mmm) = true).
    rewrite (lastOk_append (String ":" mm)) by reflexivity.
    rewrite (lastOk_append (String ":" ss)) by reflexivity.
    change (lastOk ("," +:+ mmm) = true).
    now rewrite lastOk_append.
Qed.

Lemma timeToSeconds_stamp4 (hh mm ss mmm : string) :
  fieldsOk hh mm ss mmm ->
  timeToSeconds (stamp4 hh mm ss mmm)
  = Some (secondsOf (componentValue hh) (componentValue mm)
            (componentValue ss) (componentValue mmm)).
Proof.
  intros ((H1 & H2 & H3 & H4) & (H5 & H6) & (H7 & H8)).
  rewrite timeToSeconds_readByShape. unfold readByShape.
  now rewrite stamp4_trim, stamp4_split.
Qed.

Lemma fixSingleTime_by_shape (time : string) :
  fixSingleTime time =
  match splitSep (trim time) with
  | [hh; mm; ss; mmm] => stamp4 (pad2 hh) (pad2 mm) (pad2 ss) (ms3 mmm)
  | [p1; p2; p3] =>
      if gtNum (parseInt None p3) 59 || (String.length p3 =? 3)%nat
      then stamp4 "00" (pad2 p1) (pad2 p2) (ms3 p3)
      else stamp4 (pad2 p1) (pad2 p2) (pad2 p3) "000"
  | [mm; ss] => stamp4 "00" (pad2 mm) (pad2 ss) "000"
  | _ => trim time
  end.
Proof.
  unfold fixSingleTime, part.
  destruct (splitSep (trim time)) as [|a [|b [|c [|d [|e rest]]]]]; reflexivity.
Qed.

Lemma fixSingleTime_stamp4 (hh mm ss mmm : string) :
  fieldsOk hh mm ss mmm ->
  fixSingleTime (stamp4 hh mm ss mmm)
  = stamp4 (pad2 hh) (pad2 mm) (pad2 ss) (ms3 mmm).
Proof.
  intros ((H1 & H2 & H3 & H4) & (H5 & H6) & (H7 & H8)).
  rewrite fixSingleTime_by_shape.
  now rewrite stamp4_trim, stamp4_split.
Qed.

(** What is known of the components of a trimmed string. *)
Lemma components_of_trimmed (time : string) :
  Forall (fun p => noSep p = true) (splitSep (trim time)) /\
  headOk (part (splitSep (trim time)) 0) = true /\
  lastOk (List.last (splitSep (trim time)) "") = true.
Proof.
  split; [apply splitSep_parts|]. split.
  - apply splitSep_head, headOk_trim.
  - apply splitSep_last, lastOk_trim.
Qed.

Lemma unshaped_fixed (time : string) :
  match splitSep (trim time) with
  | [_; _; _; _] | [_; _; _] | [_; _] => True
  | _ => fixSingleTime (trim time) = trim time /\ timeToSeconds (trim time) = None
  end.
Proof.
  pose proof (fixSingleTime_by_shape (trim time)) as Hf.
  pose proof (timeToSeconds_readByShape (trim time)) as Ht.
  unfold readByShape in Ht. rewrite trim_trim in Hf, Ht.
  destruct (splitSep (trim time)) as [|a [|b [|c [|d [|e rest]]]]]; auto.
Qed.

Lemma length3_nonempty (s : string) : String.length s = 3%nat -> isEmpty s = false.
Proof. now destruct s. Qed.

Ltac field_ok :=
  first
    [ reflexivity
    | assumption
    | apply noSep_pad2; assumption
    | apply noSep_ms3; assumption
    | apply headOk_pad2; assumption
    | apply isEmpty_pad2
    | apply isEmpty_ms3
    | apply lastOk_ms3; assumption
    | apply length3_nonempty; assumption ].

Ltac fields_ok := unfold fieldsOk; repeat split; field_ok.

(** C3, as the code has it.  For every timestamp in which every component
    read as milliseconds is exactly three characters wide, parsing the
    canonicalized form gives the value of parsing the original. *)
Theorem timeToSeconds_fixSingleTime (time : string) :
  msThreeWide time = true ->
  timeToSeconds (fixSingleTime time) = timeToSeconds time.
Proof.
  intros Hw. unfold msThreeWide in Hw.
  rewrite fixSingleTime_by_shape, (timeToSeconds_readByShape time).
  unfold readByShape.
  destruct (components_of_trimmed time) as (Hparts & Hhead & Hlast).
  pose proof (unshaped_fixed time) as Hun.
  unfold part in Hhead.
  destruct (splitSep (trim time)) as [|a [|b [|c [|d [|e rest]]]]];
    try exact (proj2 Hun).
  - (* MM:SS *)
    inversion Hparts as [|? ? Ha Hp1]; subst. inversion Hp1 as [|? ? Hb Hp2]; subst.
    rewrite timeToSeconds_stamp4 by fields_ok.
    now rewrite !componentValue_pad2.
  - (* three components *)
    inversion Hparts as [|? ? Ha Hp1]; subst. inversion Hp1 as [|? ? Hb Hp2]; subst.
    inversion Hp2 as [|? ? Hc Hp3]; subst. cbn in Hlast, Hhead.
    destruct (String.length c =? 3)%nat eqn:El.
    + apply Nat.eqb_eq in El. rewrite !orb_true_r.
      rewrite (ms3_three c El).
      rewrite timeToSeconds_stamp4 by fields_ok.
      now rewrite !componentValue_pad2.
    + cbn in Hw. apply andb_true_iff in Hw as [H1 H2].
      apply negb_true_iff in H1, H2. rewrite H1, H2. cbn [orb].
      rewrite timeToSeconds_stamp4 by fields_ok.
      now rewrite !componentValue_pad2.
  - (* four components *)
    inversion Hparts as [|? ? Ha Hp1]; subst. inversion Hp1 as [|? ? Hb Hp2]; subst.
    inversion Hp2 as [|? ? Hc Hp3]; subst. inversion Hp3 as [|? ? Hd Hp4]; subst.
    cbn in Hlast, Hhead. apply Nat.eqb_eq in Hw.
    rewrite (ms3_three d Hw).
    rewrite timeToSeconds_stamp4 by fields_ok.
    now rewrite !componentValue_pad2.
Qed.

Lemma timeToSeconds_fixSingleTime_witness :
  timeToSeconds (fixSingleTime " 1:02.500 ") = timeToSeconds " 1:02.500 ".
Proof. apply (timeToSeconds_fixSingleTime " 1:02.500 "). reflexivity. Defined.

(** C3 fails as stated: ["1:2:3:4"] is read as 3723.004 seconds and its
    canonical form ["01:02:03,400"] as 3723.4 seconds. *)
Lemma fixSingleTime_changes_value :
  fixSingleTime "1:2:3:4" = "01:02:03,400" /\
  exists q1 q2,
    timeToSeconds (fixSingleTime "1:2:3:4") = Some q1 /\
    timeToSeconds "1:2:3:4" = Some q2 /\
    (q1 == 3723.4)%Q /\ (q2 == 3723.004)%Q /\ ~ (q1 == q2)%Q.
Proof.
  split; [reflexivity|]. eexists _, _.
  split; [reflexivity|]. split; [reflexivity|].
  split; [reflexivity|]. split; [reflexivity|]. discriminate.
Qed.

Ltac use_digits :=
  repeat match goal with
         | H : Forall _ (_ :: _) |- _ =>
             let Hx := fresh "Hx" in
             inversion H as [|? ? Hx ?]; subst; clear H
         | H : Forall _ [] |- _ => clear H
         end.

Lemma digit_plain (c : ascii) :
  isDigit c = true -> isSep c = false /\ isSpace c = false.
Proof.
  destruct c as [[] [] [] [] [] [] [] []]; vm_compute; intros H;
    first [discriminate H | split; reflexivity].
Qed.

Lemma canonical_fixed (time : string) : Canonical time -> fixSingleTime time = time.
Proof.
  intros (a & b & c & d & e & f & g & h & i & Hd & ->). use_digits.
  repeat match goal with
         | H : isDigit _ = true |- _ => apply digit_plain in H as [? ?]
         end.
  change (canonicalOf a b c d e f g h i)
    with (stamp4 (String a (String b "")) (String c (String d ""))
            (String e (String f "")) (String g (String h (String i "")))).
  rewrite fixSingleTime_stamp4; [reflexivity|].
  unfold fieldsOk, noSep. cbn.
  repeat match goal with H : _ = false |- _ => rewrite H; clear H end.
  now repeat split.
Qed.

(** C4, as the code has it.  Canonicalization is idempotent on every
    timestamp in which the three characters kept of the millisecond
    component do not end in white space, and a timestamp already in the
    form HH:MM:SS,mmm is reproduced unchanged. *)
Theorem fixSingleTime_idempotent :
  (forall time, msKeepsEnd time = true ->
                fixSingleTime (fixSingleTime time) = fixSingleTime time) /\
  (forall time, Canonical time -> fixSingleTime time = time).
Proof.
  split; [|exact canonical_fixed].
  intros time Hk. unfold msKeepsEnd in Hk.
  rewrite (fixSingleTime_by_shape time).
  destruct (components_of_trimmed time) as (Hparts & Hhead & Hlast).
  pose proof (unshaped_fixed time) as Hun.
  unfold part in Hhead.
  destruct (splitSep (trim time)) as [|a [|b [|c [|d [|e rest]]]]];
    try exact (proj1 Hun).
  - inversion Hparts as [|? ? Ha Hp1]; subst. inversion Hp1 as [|? ? Hb Hp2]; subst.
    rewrite fixSingleTime_stamp4 by fields_ok.
    now rewrite !pad2_pad2.
  - inversion Hparts as [|? ? Ha Hp1]; subst. inversion Hp1 as [|? ? Hb Hp2]; subst.
    inversion Hp2 as [|? ? Hc Hp3]; subst. cbn in Hhead.
    destruct (gtNum (parseInt None c) 59 || (String.length c =? 3)%nat).
    + rewrite fixSingleTime_stamp4 by fields_ok.
      now rewrite !pad2_pad2, ms3_ms3.
    + rewrite fixSingleTime_stamp4 by fields_ok.
      now rewrite !pad2_pad2.
  - inversion Hparts as [|? ? Ha Hp1]; subst. inversion Hp1 as [|? ? Hb Hp2]; subst.
    inversion Hp2 as [|? ? Hc Hp3]; subst. inversion Hp3 as [|? ? Hd Hp4]; subst.
    cbn in Hhead.
    rewrite fixSingleTime_stamp4 by fields_ok.
    now rewrite !pad2_pad2, ms3_ms3.
Qed.

Lemma fixSingleTime_idempotent_witness :
  fixSingleTime (fixSingleTime "1:2:3:4") = fixSingleTime "1:2:3:4"
  /\ fixSingleTime "01:02:03,004" = "01:02:03,004".
Proof.
  split.
  - apply (proj1 fixSingleTime_idempotent "1:2:3:4"). reflexivity.
  - apply (proj2 fixSingleTime_idempotent "01:02:03,004").
    exists "0"%char, "1"%char, "0"%char, "2"%char, "0"%char, "3"%char,
      "0"%char, "0"%char, "4"%char.
    split; [repeat constructor | reflexivity].
Defined.

(** C4 fails as stated: the canonical form of ["00:00:01,4  5"] ends in
    two spaces, which the second pass trims before it pads. *)
Lemma fixSingleTime_not_idempotent :
  fixSingleTime "00:00:01,4  5" = "00:00:01,4  " /\
  fixSingleTime (fixSingleTime "00:00:01,4  5") = "00:00:01,400" /\
  fixSingleTime (fixSingleTime "00:00:01,4  5") <> fixSingleTime "00:00:01,4  5".
Proof. repeat split. discriminate. Qed.

(** ** The styled-event export against the cue parse *)

Lemma assBlocks_omap (blocks : list string) :
  forall events, assBlocks blocks events = events ++ omap eventOfBlock blocks.
Proof.
  induction blocks as [|b blocks IH]; intros events; cbn.
  - now rewrite app_nil_r.
  - destruct (eventOfBlock b) as [ev|]; rewrite IH; [|reflexivity].
    now rewrite <- app_assoc.
Qed.

(** Whether the joined text is empty does not depend on the separator. *)
Lemma isEmpty_join (sep1 sep2 : string) (lines : list string) :
  isEmpty sep1 = false -> isEmpty sep2 = false ->
  isEmpty (join sep1 lines) = isEmpty (join sep2 lines).
Proof.
  intros H1 H2. destruct lines as [|x [|y rest]]; [reflexivity..|].
  cbn [join]. rewrite !isEmpty_append, H1, H2. cbn. now rewrite !andb_false_r.
Qed.

Lemma cueOfBlock_kept (block : string) :
  isSome (cueOfBlock block)
  = negb (length (splitLines block) <? 2)%nat
    && negb (isEmpty (timingLineOf block))
    && cueAccepts (timingLineOf block)
    && negb (isEmpty (join " " (textLinesOf (splitLines block)
                                  (snd (findTiming (splitLines block) 0))))).
Proof.
  unfold cueOfBlock, timingLineOf, cueAccepts.
  destruct (length (splitLines block) <? 2)%nat; [reflexivity|].
  destruct (findTiming (splitLines block) 0) as [line k]. cbn [fst snd negb andb].
  destruct (isEmpty line); [reflexivity|]. cbn [negb andb].
  destruct (length (map trim (splitArrow line)) =? 2)%nat; [|reflexivity].
  cbn [negb andb].
  destruct (timeToSeconds (part (map trim (splitArrow line)) 0)); [|reflexivity].
  destruct (timeToSeconds (part (map trim (splitArrow line)) 1)); [|reflexivity].
  cbn [isSome andb].
  now destruct (isEmpty (join " " (textLinesOf (splitLines block) k))).
Qed.

Lemma eventOfBlock_kept (block : string) :
  isSome (eventOfBlock block)
  = negb (length (splitLines block) <? 2)%nat
    && negb (isEmpty (timingLineOf block))
    && assAccepts (timingLineOf block)
    && negb (isEmpty (join " " (textLinesOf (splitLines block)
                                  (snd (findTiming (splitLines block) 0))))).
Proof.
  unfold eventOfBlock, timingLineOf, assAccepts.
  destruct (length (splitLines block) <? 2)%nat; [reflexivity|].
  destruct (findTiming (splitLines block) 0) as [line k]. cbn [fst snd negb andb].
  destruct (isEmpty line); [reflexivity|]. cbn [negb andb].
  rewrite (isEmpty_join " " "\N") by reflexivity.
  destruct (assTimes line) as [[startTime endTime]|]; [|reflexivity].
  cbn [isSome andb].
  now destruct (isEmpty (join "\N" (textLinesOf (splitLines block) k))).
Qed.

Lemma length_omap_keptBy {A} (body : string -> option A) (blocks : list string) :
  length (omap body blocks) = length (keptBy body blocks).
Proof.
  induction blocks as [|b blocks IH]; [reflexivity|].
  cbn. destruct (body b); cbn; now rewrite IH.
Qed.

(** *** Timing lines in the strict form *)

Lemma digit_not_dash (c : ascii) : isDigit c = true -> (c =? "-")%char = false.
Proof.
  destruct c as [[] [] [] [] [] [] [] []]; vm_compute; intros H;
    first [discriminate H | reflexivity].
Qed.

Ltac step_digits :=
  repeat (cbn;
          progress repeat match goal with
          | H : isDigit ?x = true |- context [isDigit ?x] => rewrite H
          end).

Lemma stdStamp_canonical (t r : string) :
  Canonical t -> exists g1 g2, stdStamp 2 (t +:+ r) = Some (g1, g2, r).
Proof.
  intros (a & b & c & d & e & f & g & h & i & Hd & ->). use_digits.
  change (canonicalOf a b c d e f g h i +:+ r)
    with (String a (String b (String ":" (String c (String d (String ":"
           (String e (String f (String "," (String g (String h (String i r)))))))))))).
  unfold stdStamp. step_digits. eauto.
Qed.

Lemma canonical_plain (t : string) :
  Canonical t ->
  headOk t = true /\ lastOk t = true /\ noDash t = true /\
  isSome (timeToSeconds t) = true.
Proof.
  intros (a & b & c & d & e & f & g & h & i & Hd & ->). use_digits.
  repeat match goal with
         | H : isDigit ?x = true |- _ =>
             pose proof (digit_not_dash x H);
             apply digit_plain in H as [? ?]
         end.
  split; [|split; [|split]].
  - cbn. now rewrite negb_true_iff.
  - cbn. now rewrite negb_true_iff.
  - unfold noDash. cbn.
    repeat match goal with H : (_ =? "-")%char = false |- _ => rewrite H; clear H end.
    reflexivity.
  - change (canonicalOf a b c d e f g h i)
      with (stamp4 (String a (String b "")) (String c (String d ""))
              (String e (String f "")) (String g (String h (String i "")))).
    rewrite timeToSeconds_stamp4; [reflexivity|].
    unfold fieldsOk, noSep. cbn.
    repeat match goal with H : _ = false |- _ => rewrite H; clear H end.
    now repeat split.
Qed.

Lemma search_here {A} (at_ : string -> option A) (s : string) (g : A) :
  at_ s = Some g -> search at_ s = Some g.
Proof. intros H. destruct s; cbn; now rewrite H. Qed.

Lemma assAccepts_strict (line : string) : StrictLine line -> assAccepts line = true.
Proof.
  intros (t1 & t2 & H1 & H2 & ->).
  destruct (stdStamp_canonical t1 (" --> " +:+ t2) H1) as (g1 & g2 & E1).
  destruct (stdStamp_canonical t2 "" H2) as (g3 & g4 & E2).
  rewrite append_nil_r in E2.
  destruct (canonical_plain t2 H2) as (Hh & _).
  unfold assAccepts, assTimes.
  rewrite (search_here stdAt _ (g1, g2, g3, g4)); [reflexivity|].
  unfold stdAt, stdWith. rewrite E1. cbn [mbind option_bind].
  change (trimStart (" --> " +:+ t2))
    with (String "-" (String "-" (String ">" (String " " t2)))).
  cbn [arrow mbind option_bind].
  change (trimStart (String " " t2)) with (trimStart t2).
  rewrite (trimStart_id t2 Hh), E2. reflexivity.
Qed.

Lemma splitArrow_push (c : ascii) (s : string) :
  (c =? "-")%char = false -> splitArrow (String c s) = pushChar c (splitArrow s).
Proof.
  destruct c as [[] [] [] [] [] [] [] []]; intros H;
    first [discriminate H | reflexivity].
Qed.

Lemma splitArrow_noDash (s : string) : noDash s = true -> splitArrow s = [s].
Proof.
  unfold noDash. induction s as [|c s IH]; [reflexivity|].
  cbn [allChars]. intros H. apply andb_true_iff in H as [Hc Hs].
  apply negb_true_iff in Hc. rewrite (splitArrow_push c s Hc), (IH Hs). reflexivity.
Qed.

Lemma splitArrow_append (s t : string) :
  noDash s = true -> splitArrow (s +:+ "-->" +:+ t) = s :: splitArrow t.
Proof.
  unfold noDash. induction s as [|c s IH]; [reflexivity|].
  cbn [allChars]. intros H. apply andb_true_iff in H as [Hc Hs].
  apply negb_true_iff in Hc.
  rewrite append_cons, (splitArrow_push c _ Hc), (IH Hs). reflexivity.
Qed.

Lemma trimEnd_space (s : string) : lastOk s = true -> trimEnd (s +:+ " ") = s.
Proof.
  induction s as [|c s IH]; [reflexivity|].
  intros H. rewrite append_cons. cbn [trimEnd].
  destruct s as [|c' s'].
  - cbn in H. apply negb_true_iff in H. cbn. now rewrite H.
  - change (lastOk (String c' s') = true) in H. rewrite (IH H).
    cbn. now rewrite andb_false_r.
Qed.

Lemma cueAccepts_strict (line : string) : StrictLine line -> cueAccepts line = true.
Proof.
  intros (t1 & t2 & H1 & H2 & ->).
  destruct (canonical_plain t1 H1) as (Hh1 & Hl1 & Hd1 & Ht1).
  destruct (canonical_plain t2 H2) as (Hh2 & Hl2 & Hd2 & Ht2).
  assert (Hne1 : isEmpty t1 = false).
  { destruct H1 as (a & b & c & d & e & f & g & h & i & _ & ->). reflexivity. }
  unfold cueAccepts.
  replace (t1 +:+ " --> " +:+ t2) with ((t1 +:+ " ") +:+ "-->" +:+ (" " +:+ t2))
    by now rewrite !append_assoc.
  rewrite splitArrow_append, splitArrow_noDash.
  - cbn [map length Nat.eqb part nth andb].
    assert (E1 : trim (t1 +:+ " ") = t1).
    { unfold trim. rewrite trimStart_id by now rewrite headOk_append.
      now apply trimEnd_space. }
    assert (E2 : trim (" " +:+ t2) = t2).
    { unfold trim. change (" " +:+ t2) with (String " " t2).
      cbn [trimStart]. change (isSpace " ") with true. cbn iota.
      now rewrite trimStart_id, trimEnd_id. }
    now rewrite E1, E2, Ht1, Ht2.
  - unfold noDash in *. change (" " +:+ t2) with (String " " t2). cbn [allChars].
    now rewrite Hd2.
  - unfold noDash in *. rewrite allChars_append, Hd1. reflexivity.
Qed.

(** C7, as the code has it.  The export and the cue parse split the
    document into the same blocks, find the same timing line and test the
    same text lines, but each recognizes timestamps in its own way.  For
    every document in which each block's timing line is accepted by both
    or by neither, the export produces exactly one Dialogue record per cue,
    in the same order and from the same blocks; and both accept every
    timing line of the strict form HH:MM:SS,mmm --> HH:MM:SS,mmm. *)
Theorem ass_events_follow_cues :
  (forall srtContent,
     (forall block, In block (splitBlocks (trim srtContent)) ->
        assAccepts (timingLineOf block) = cueAccepts (timingLineOf block)) ->
     assEvents srtContent = omap eventOfBlock (splitBlocks (trim srtContent)) /\
     parseSrtToSubtitles srtContent = omap cueOfBlock (splitBlocks (trim srtContent)) /\
     keptBy eventOfBlock (splitBlocks (trim srtContent))
       = keptBy cueOfBlock (splitBlocks (trim srtContent)) /\
     length (assEvents srtContent) = length (parseSrtToSubtitles srtContent)) /\
  (forall line, StrictLine line -> assAccepts line = true /\ cueAccepts line = true).
Proof.
  split.
  - intros srtContent Hagree.
    assert (Hkept : keptBy eventOfBlock (splitBlocks (trim srtContent))
                    = keptBy cueOfBlock (splitBlocks (trim srtContent))).
    { unfold keptBy. apply filter_ext_in. intros block Hin.
      now rewrite eventOfBlock_kept, cueOfBlock_kept, (Hagree block Hin). }
    unfold assEvents, parseSrtToSubtitles.
    rewrite assBlocks_omap, parseBlocks_omap. cbn [app].
    repeat split; [exact Hkept|].
    now rewrite !length_omap_keptBy, Hkept.
  - intros line Hs. split; [now apply assAccepts_strict | now apply cueAccepts_strict].
Qed.

Lemma ass_events_follow_cues_witness :
  length (assEvents mixedDoc) = length (parseSrtToSubtitles mixedDoc)
  /\ assAccepts "00:00:01,000 --> 00:00:04,000" = true.
Proof.
  split.
  - apply (proj1 ass_events_follow_cues mixedDoc).
    intros block Hin. vm_compute in Hin.
    destruct Hin as [<- | [<- | []]]; vm_compute; reflexivity.
  - apply (proj2 ass_events_follow_cues "00:00:01,000 --> 00:00:04,000").
    exists "00:00:01,000", "00:00:04,000". split; [|split; [|reflexivity]].
    + exists "0"%char, "0"%char, "0"%char, "0"%char, "0"%char, "1"%char,
        "0"%char, "0"%char, "0"%char.
      split; [repeat constructor | reflexivity].
    + exists "0"%char, "0"%char, "0"%char, "0"%char, "0"%char, "4"%char,
        "0"%char, "0"%char, "0"%char.
      split; [repeat constructor | reflexivity].
Defined.

(** C7 fails as stated: the cue parse keeps the block of [minutesDoc] and
    the export drops it; the export keeps the block of [twoArrowsDoc] and
    the cue parse drops it. *)
Lemma ass_events_differ_from_cues :
  (length (parseSrtToSubtitles minutesDoc) = 1%nat /\ assEvents minutesDoc = []) /\
  (parseSrtToSubtitles twoArrowsDoc = [] /\ length (assEvents twoArrowsDoc) = 1%nat).
Proof. repeat split; vm_compute; reflexivity. Qed.


(** * Further properties of the code *)

(** ** Wrapped lines fit and break as late as possible *)

Section WrapFits.

Variable measureText : string -> Q.
Variable maxWidth : Q.

Local Abbreviation lineFits := (lineFits measureText maxWidth).
Local Abbreviation breaksLate := (breaksLate measureText maxWidth).
Local Abbreviation wrapInv := (wrapInv measureText maxWidth).

Lemma splitChars_single (s : string) :
  Forall (fun ch => exists c, ch = String c "") (splitChars s).
Proof. induction s as [|c s IH]; cbn; constructor; eauto. Qed.

Lemma breaksLate_snoc (lines : list string) (a b : string) :
  breaksLate (lines ++ [a]) ->
  ~ (measureText (a +:+ headOf b) <= maxWidth)%Q ->
  breaksLate (lines ++ [a; b]).
Proof.
  induction lines as [|x lines IH]; intros H Hab.
  - cbn. auto.
  - destruct lines as [|y lines].
    + cbn in *. destruct H as [H _]. auto.
    + cbn [app breaksLate] in *. destruct H as [H1 H2]. split; [exact H1|].
      now apply IH.
Qed.

Lemma breaksLate_grow (lines : list string) (a c : string) :
  breaksLate (lines ++ [a]) -> a <> "" ->
  breaksLate (lines ++ [a +:+ c]).
Proof.
  intros H Ha.
  assert (Hh : headOf (a +:+ c) = headOf a) by (destruct a; [contradiction|reflexivity]).
  induction lines as [|x lines IH]; [exact I|].
  destruct lines as [|y lines].
  - cbn in *. rewrite Hh. exact H.
  - cbn [app breaksLate] in *. destruct H as [H1 H2]. split; [exact H1|].
    now apply IH.
Qed.

Lemma wrapStep_inv (st : list string * string) (c : ascii) :
  wrapInv st -> wrapInv (wrapStep measureText maxWidth st (String c "")).
Proof.
  destruct st as [lines cur]. unfold wrapInv, wrapStep. cbn [fst snd].
  intros [Hl Hc].
  destruct (Qle_bool (measureText (cur +:+ String c "")) maxWidth) eqn:E;
    cbn [negb andb fst snd].
  - apply Qle_bool_iff in E. split; [exact Hl|]. right.
    split; [destruct cur; discriminate|]. split; [now right|].
    destruct Hc as [[-> ->] | (Hne & _ & Hb)]; [exact I|].
    now apply breaksLate_grow.
  - assert (Hex : ~ (measureText (cur +:+ String c "") <= maxWidth)%Q).
    { intros H. apply Qle_bool_iff in H. congruence. }
    destruct cur as [|c0 cur]; cbn [isEmpty negb fst snd].
    + split; [exact Hl|]. right. split; [discriminate|]. split; [now left|].
      destruct Hc as [[_ ->] | [Hne _]]; [exact I | contradiction].
    + destruct Hc as [[Hc _] | (_ & Hf & Hb)]; [discriminate|].
      split; [apply Forall_app; split; [exact Hl | now constructor]|].
      right. split; [discriminate|]. split; [now left|].
      rewrite <- app_assoc. now apply breaksLate_snoc.
Qed.

Lemma wrap_fold_inv (words : list string) :
  Forall (fun ch => exists c, ch = String c "") words ->
  forall st, wrapInv st ->
             wrapInv (fold_left (wrapStep measureText maxWidth) words st).
Proof.
  induction 1 as [|w words [c ->] _ IH]; intros st Hst; [exact Hst|].
  cbn [fold_left]. apply IH. now apply wrapStep_inv.
Qed.

Lemma wrapText_inv (text : string) :
  Forall lineFits (wrapText measureText text maxWidth)
  /\ breaksLate (wrapText measureText text maxWidth).
Proof.
  unfold wrapText.
  assert (H0 : wrapInv ([], "")) by (split; [constructor | now left]).
  pose proof (wrap_fold_inv (splitChars text) (splitChars_single text) _ H0) as H.
  destruct (fold_left (wrapStep measureText maxWidth) (splitChars text) ([], ""))
    as [lines cur].
  destruct H as [Hl Hc]. cbn [fst snd] in *.
  destruct Hc as [[-> ->] | (Hne & Hf & Hb)]; [now split|].
  apply isEmpty_false in Hne as Hne'. rewrite Hne'. split; [|exact Hb].
  apply Forall_app. split; [exact Hl | now constructor].
Qed.

(** X1. Every line [wrapText] returns fits within [maxWidth], unless it
    is a single character (which is never split). *)
Theorem wrapText_lines_fit (text : string) :
  Forall (fun line => String.length line = 1%nat
                      \/ (measureText line <= maxWidth)%Q)
    (wrapText measureText text maxWidth).
Proof. apply wrapText_inv. Qed.

(** X2. [wrapText] breaks as late as possible: a line followed by
    another line would exceed [maxWidth] with the first character of that
    next line added. *)
Theorem wrapText_breaks_late (text : string) (before after : list string)
    (line next : string) :
  wrapText measureText text maxWidth = before ++ line :: next :: after ->
  ~ (measureText (line +:+ headOf next) <= maxWidth)%Q.
Proof.
  intros E. destruct (wrapText_inv text) as [_ H]. rewrite E in H. clear E.
  induction before as [|x before IH]; [apply H|].
  apply IH. destruct before; apply H.
Qed.

End WrapFits.

Lemma wrapText_breaks_late_witness :
  ~ (tenPerChar ("ab" +:+ headOf "cd") <= 25)%Q.
Proof.
  apply (wrapText_breaks_late tenPerChar 25 "abcde" [] ["e"] "ab" "cd").
  reflexivity.
Defined.

(** ** Frame counts and frame names *)

(** X3. The frame count covers the audio: for a non-negative duration
    every sampled instant [i / 4] with [i < totalFrames] lies before the end
    of the audio and [totalFrames / 4] is not before it; when the duration
    cannot be probed, or is reported as 0, there are 720 frames. *)
Theorem totalFrames_cover_audio (audioFile : AudioFile) :
  ((0 <= getAudioDuration audioFile)%Q ->
   (forall i, (i < totalFramesOf audioFile)%nat ->
              (frameTime i < getAudioDuration audioFile)%Q) /\
   (getAudioDuration audioFile <= frameTime (totalFramesOf audioFile))%Q) /\
  (probe audioFile = None \/ (exists d, probe audioFile = Some d /\ (d == 0)%Q) ->
   totalFramesOf audioFile = 720%nat).
Proof.
  split.
  - intros Hd. unfold totalFramesOf, frameTime, fps.
    remember (getAudioDuration audioFile) as d eqn:Ed. clear Ed.
    assert (H0 : (0 <= Qceiling (d * inject_Z 4))%Z).
    { change 0%Z with (Qceiling (inject_Z 0)). apply Qceiling_resp_le.
      apply Qmult_le_0_compat; [exact Hd | discriminate]. }
    pose proof (Qle_ceiling (d * inject_Z 4)) as Hle.
    pose proof (Qceiling_lt (d * inject_Z 4)) as Hlt.
    split.
    + intros i Hi.
      assert (Hi' : (Z.of_nat i <= Qceiling (d * inject_Z 4) - 1)%Z)
        by (clear - H0 Hi; lia).
      apply Qlt_shift_div_r; [reflexivity|].
      eapply Qle_lt_trans; [|exact Hlt].
      rewrite <- Zle_Qle. exact Hi'.
    + rewrite Z2Nat.id by exact H0.
      apply Qle_shift_div_l; [reflexivity|]. exact Hle.
  - intros H. unfold totalFramesOf, getAudioDuration.
    destruct H as [-> | (d & -> & Hz)]; [reflexivity|].
    apply Qeq_bool_iff in Hz. now rewrite Hz.
Qed.

Lemma totalFrames_cover_audio_witness :
  (frameTime 1 < getAudioDuration halfSecond)%Q
  /\ totalFramesOf (mkAudio "a.mp3" [] None) = 720%nat.
Proof.
  split.
  - apply (proj1 (totalFrames_cover_audio halfSecond)); [discriminate|].
    vm_compute. lia.
  - apply (proj2 (totalFrames_cover_audio (mkAudio "a.mp3" [] None))).
    now left.
Defined.

Lemma length_append (s t : string) :
  String.length (s +:+ t) = (String.length s + String.length t)%nat.
Proof.
  induction s as [|c s IH]; [reflexivity|].
  rewrite append_cons. cbn. now rewrite IH.
Qed.

Lemma append_cancel_r (s1 s2 t : string) : s1 +:+ t = s2 +:+ t -> s1 = s2.
Proof.
  revert s2. induction s1 as [|c s1 IH]; intros [|c2 s2] H.
  - reflexivity.
  - apply (f_equal String.length) in H. rewrite !length_append in H.
    cbn in H. lia.
  - apply (f_equal String.length) in H. rewrite !length_append in H.
    cbn in H. lia.
  - rewrite !append_cons in H. inversion H; subst. f_equal. now apply IH.
Qed.

Lemma decimalValue_zeros (k : nat) (s : string) :
  decimalValue (repeatChar k "0" +:+ s) = decimalValue s.
Proof.
  induction k as [|k IH]; [reflexivity|].
  cbn [repeatChar]. rewrite append_cons. unfold decimalValue in *.
  cbn [DecimalString.NilEmpty.uint_of_string].
  rewrite <- IH.
  now destruct (DecimalString.NilEmpty.uint_of_string (repeatChar k "0" +:+ s)).
Qed.

Lemma decimalValue_uint (u : Decimal.uint) :
  decimalValue (DecimalString.NilZero.string_of_uint u) = Some (Z.of_uint u).
Proof.
  unfold decimalValue.
  destruct u; [reflexivity | ..];
    unfold DecimalString.NilZero.string_of_uint; cbv beta iota;
    now rewrite DecimalString.NilEmpty.usu.
Qed.

Lemma decimalValue_numToString (n : Z) :
  0 <= n -> decimalValue (numToString (Some n)) = Some n.
Proof.
  intros Hn. unfold numToString.
  pose proof (DecimalZ.of_to n) as Hof.
  destruct (Z.to_int n) as [u|u] eqn:E.
  - cbn [DecimalString.NilZero.string_of_int Z.of_int] in *.
    now rewrite decimalValue_uint, Hof.
  - destruct n; cbn in E; try discriminate. lia.
Qed.

Lemma decimalValue_frame (i : nat) :
  decimalValue (padStart 5 "0" (numToString (Some (Z.of_nat i)))) = Some (Z.of_nat i).
Proof.
  unfold padStart. rewrite decimalValue_zeros.
  apply decimalValue_numToString. lia.
Qed.

Lemma frameName_inj (i j : nat) : frameName i = frameName j -> i = j.
Proof.
  unfold frameName. intros H.
  apply (inj (String.app "frame")) in H.
  apply append_cancel_r in H.
  apply (f_equal decimalValue) in H. rewrite !decimalValue_frame in H.
  inversion H. lia.
Qed.

(** X4. The temporary artifacts have distinct names: two frame indices
    never share a file name, and no frame file is named like the audio file
    or the output file. *)
Theorem artifact_names_distinct (i j : nat) (ext : string) :
  (frameName i = frameName j -> i = j) /\
  frameName i <> "audio." +:+ ext /\
  frameName i <> "output.mp4".
Proof.
  split; [apply frameName_inj|]. split; discriminate.
Qed.

(** ** What the encoder is given and what [createVideo] returns *)

Section Encoding.

Variable Image : Type.
Variable loadImage : bytes -> option Image.
Variable renderPixels : Image -> string -> Z -> Z -> Z -> bytes.
Variable exec : list string -> gmap string bytes -> option (gmap string bytes).
Variable deleteFails : gmap string bytes -> string -> bool.

(** The frame loop never throws, and the storage it leaves is the storage
    it started from with its [writeFile] calls applied in order. *)
Lemma frames_written (baseImage : Image) (subtitles : list Cue)
    (subtitlePosition : Z) (indices : list nat) :
  forall cache w,
    exists cache' w' entries,
      forEach (frameStep Image renderPixels baseImage subtitles subtitlePosition)
        indices cache w = (Ok cache', w') /\
      written w' = written w ++ entries /\
      files w' = filesWritten (files w) entries.
Proof.
  induction indices as [|i indices IH]; intros cache w.
  - exists cache, w, []. cbn. now rewrite app_nil_r.
  - cbn [forEach]. unfold bind at 1.
    assert (Hstep : exists cache1 w1 data,
               frameStep Image renderPixels baseImage subtitles subtitlePosition
                 cache i w = (Ok cache1, w1) /\
               written w1 = written w ++ [(frameName i, data)] /\
               files w1 = <[frameName i := data]> (files w)).
    { unfold frameStep, bind, renderFrame, writeFile, ret.
      destruct (negb _ || negb _); cbn; eauto 7. }
    destruct Hstep as (cache1 & w1 & data & -> & Hw1 & Hf1).
    destruct (IH cache1 w1) as (cache' & w' & entries & -> & Hw & Hf).
    exists cache', w', ((frameName i, data) :: entries).
    split; [reflexivity|]. split.
    + now rewrite Hw, Hw1, <- app_assoc.
    + rewrite Hf, Hf1. reflexivity.
Qed.

Lemma filesWritten_frames (f : nat -> bytes) (indices : list nat) :
  forall (fs : gmap string bytes) (i : nat),
    In i indices \/ fs !! frameName i = Some (f i) ->
    filesWritten fs (map (fun j => (frameName j, f j)) indices) !! frameName i
    = Some (f i).
Proof.
  induction indices as [|j indices IH]; intros fs i H; cbn.
  - destruct H as [[]|H]; exact H.
  - apply IH. destruct H as [[->|H]|H]; [right|left|right].
    + apply lookup_insert_eq.
    + exact H.
    + destruct (decide (j = i)) as [->|Hne]; [apply lookup_insert_eq|].
      rewrite lookup_insert_ne; [exact H|].
      intros E. apply frameName_inj in E. contradiction.
Qed.

Lemma filesWritten_other (entries : list (string * bytes)) :
  forall (fs : gmap string bytes) (name : string),
    ~ In name (map fst entries) ->
    filesWritten fs entries !! name = fs !! name.
Proof.
  induction entries as [|[k v] entries IH]; intros fs name H; [reflexivity|].
  cbn [map fst In] in H.
  change (filesWritten fs ((k, v) :: entries))
    with (filesWritten (<[k := v]> fs) entries).
  rewrite IH by tauto. apply lookup_insert_ne. tauto.
Qed.

(** X5. When the encoder runs, the working storage holds, for every frame
    index below [totalFrames], a frame file with the composition for that
    frame's own caption, and the audio file with the bytes of the audio;
    every other file is as it was before the run. *)
Theorem encoder_input (baseImage : Image) (audioFile : AudioFile)
    (srtContent : string) (subtitlePosition : Z) (w : World) :
  let staged := stagedWorld renderPixels baseImage audioFile srtContent
                  subtitlePosition w in
  (forall i, (i < totalFramesOf audioFile)%nat ->
     files staged !! frameName i
     = Some (renderPixels baseImage
               (captionAt (parseSrtToSubtitles srtContent) (frameTime i))
               1280 720 subtitlePosition)) /\
  files staged !! ("audio." +:+ audioExtOf (fileName audioFile))
    = Some (fileBytes audioFile) /\
  (forall name, ~ In name (artifacts audioFile) ->
                files staged !! name = files w !! name).
Proof.
  cbv zeta. unfold stagedWorld, generateFrames, bind.
  destruct (frames_written baseImage (parseSrtToSubtitles srtContent)
              subtitlePosition (seq 0 (totalFramesOf audioFile))
              (mkCache "" None) w) as (cache' & w' & entries & Hrun & Hw & Hf).
  destruct (frames_run Image renderPixels baseImage (parseSrtToSubtitles srtContent)
              subtitlePosition (seq 0 (totalFramesOf audioFile)) None
              (mkCache "" None) w eq_refl) as (cache2 & w2 & Hrun2 & _ & Hw2).
  rewrite Hrun in Hrun2. inversion Hrun2; subst cache2 w2; clear Hrun2.
  rewrite Hw in Hw2. apply app_inv_head in Hw2. subst entries.
  rewrite Hrun. unfold writeFile. cbn [snd files].
  split; [|split].
  - intros i Hi. rewrite lookup_insert_ne by discriminate.
    rewrite Hf. apply filesWritten_frames. left. apply in_seq. lia.
  - apply lookup_insert_eq.
  - intros name Hn. unfold artifacts in Hn.
    rewrite lookup_insert_ne.
    + rewrite Hf. apply filesWritten_other.
      rewrite map_map. cbn [fst]. intros Hin. apply Hn.
      apply in_or_app. now left.
    + intros E. apply Hn. apply in_or_app. right. left. exact E.
Qed.

Lemma beforeCleanup_staged (imageFile : bytes) (baseImage : Image)
    (audioFile : AudioFile) (srtContent : string) (subtitlePosition : Z)
    (w : World) :
  loadImage imageFile = Some baseImage ->
  beforeCleanup Image loadImage renderPixels exec true imageFile audioFile
    srtContent subtitlePosition w
  = (execJob exec (execArgs ("audio." +:+ audioExtOf (fileName audioFile))
                     "output.mp4");;;
     readFile "output.mp4")
      (stagedWorld renderPixels baseImage audioFile srtContent subtitlePosition w).
Proof.
  intros Himg. unfold beforeCleanup, stagedWorld. cbn [negb]. rewrite Himg.
  unfold generateFrames.
  destruct (frames_written baseImage (parseSrtToSubtitles srtContent)
              subtitlePosition (seq 0 (totalFramesOf audioFile))
              (mkCache "" None) w) as (c & w1 & e & Hrun & _).
  unfold bind. rewrite Hrun. reflexivity.
Qed.

(** X6. [createVideo] returns exactly the bytes the encoder leaves in
    [output.mp4]: it returns [data] if and only if the engine is loaded, the
    image decodes, and the encoder, run on the staged storage, ends with
    [output.mp4] holding [data]; in every other case it throws. *)
Theorem createVideo_returns (loaded : bool) (imageFile : bytes)
    (audioFile : AudioFile) (srtContent : string) (subtitlePosition : Z)
    (w : World) (data : bytes) :
  (exists w', createVideo Image loadImage renderPixels exec deleteFails loaded
                imageFile audioFile srtContent subtitlePosition w = (Ok data, w'))
  <->
  loaded = true /\
  exists baseImage fs,
    loadImage imageFile = Some baseImage /\
    exec (execArgs ("audio." +:+ audioExtOf (fileName audioFile)) "output.mp4")
      (files (stagedWorld renderPixels baseImage audioFile srtContent
                subtitlePosition w)) = Some fs /\
    fs !! "output.mp4" = Some data.
Proof.
  rewrite createVideo_split.
  destruct loaded.
  2:{ split; [intros [w' H]; discriminate | intros [H _]; discriminate]. }
  destruct (loadImage imageFile) as [baseImage|] eqn:Himg.
  2:{ unfold beforeCleanup. rewrite Himg.
      split; [intros [w' H]; discriminate
             | intros (_ & b & fs & H & _); discriminate]. }
  rewrite (beforeCleanup_staged imageFile baseImage) by exact Himg.
  remember (stagedWorld renderPixels baseImage audioFile srtContent
              subtitlePosition w) as staged eqn:Es.
  unfold bind, execJob, readFile.
  destruct (exec _ (files staged)) as [fs|] eqn:Eexec; cbn [files].
  - destruct (fs !! "output.mp4") as [data1|] eqn:Eout.
    + split.
      * intros [w' H]. cbv beta iota in H. inversion H; subst data1.
        split; [reflexivity|].
        exists baseImage, fs. rewrite <- Es.
        repeat split; first [reflexivity | assumption].
      * intros (_ & b & fs' & Hb & Hfs & Hd). inversion Hb; subst b.
        rewrite <- Es, Eexec in Hfs. inversion Hfs; subst fs'.
        rewrite Eout in Hd. inversion Hd; subst. eexists. reflexivity.
    + split; [intros [w' H]; discriminate|].
      intros (_ & b & fs' & Hb & Hfs & Hd). inversion Hb; subst b.
      rewrite <- Es, Eexec in Hfs. inversion Hfs; subst fs'. congruence.
  - split; [intros [w' H]; discriminate|].
    intros (_ & b & fs' & Hb & Hfs & Hd). inversion Hb; subst b.
    rewrite <- Es in Hfs. congruence.
Qed.

(** X7. When the engine is not loaded or the image cannot be decoded,
    [createVideo] throws before it composes or writes anything: the world is
    left as it was. *)
Theorem createVideo_fails_fast (loaded : bool) (imageFile : bytes)
    (audioFile : AudioFile) (srtContent : string) (subtitlePosition : Z)
    (w : World) :
  loaded = false \/ loadImage imageFile = None ->
  exists msg,
    createVideo Image loadImage renderPixels exec deleteFails loaded imageFile
      audioFile srtContent subtitlePosition w = (Throw msg, w).
Proof.
  unfold createVideo. intros [-> | H].
  - eexists. reflexivity.
  - destruct loaded; cbn [negb]; [rewrite H|]; eexists; reflexivity.
Qed.

End Encoding.

Lemma createVideo_returns_witness :
  exists w', createVideo unit loadAny renderNone execWrites refuseNothing true []
               halfSecond "" 50 emptyWorld = (Ok [], w').
Proof.
  apply (proj2 (createVideo_returns unit loadAny renderNone execWrites
                  refuseNothing true [] halfSecond "" 50 emptyWorld [])).
  split; [reflexivity|]. exists tt. eexists.
  split; [reflexivity|]. split; [reflexivity|]. vm_compute. reflexivity.
Defined.

Lemma createVideo_fails_fast_witness :
  exists msg,
    createVideo unit loadAny renderNone execWrites refuseNothing false []
      halfSecond "" 50 emptyWorld = (Throw msg, emptyWorld).
Proof.
  apply (createVideo_fails_fast unit loadAny renderNone execWrites refuseNothing
           false [] halfSecond "" 50 emptyWorld).
  left. reflexivity.
Defined.

(** ** Timing normalization *)

Lemma pad2_digits (s : string) :
  digitsUpTo 2 s = true ->
  exists a b, isDigit a = true /\ isDigit b = true /\ pad2 s = String a (String b "").
Proof.
  unfold digitsUpTo. intros H. apply andb_true_iff in H as [Hl Hd].
  destruct s as [|c1 [|c2 [|c3 s]]]; cbn in Hl, Hd; try discriminate.
  - exists "0"%char, "0"%char. now repeat split.
  - rewrite andb_true_r in Hd. exists "0"%char, c1. now repeat split.
  - apply andb_true_iff in Hd as [H1 H2]. rewrite andb_true_r in H2.
    exists c1, c2. now repeat split.
Qed.

Lemma ms3_digits (s : string) :
  allChars isDigit s = true ->
  exists a b c, isDigit a = true /\ isDigit b = true /\ isDigit c = true
                /\ ms3 s = String a (String b (String c "")).
Proof.
  destruct ms3_short as (H0 & H1 & H2 & H3). intros Hd.
  destruct s as [|c1 [|c2 [|c3 s]]]; cbn in Hd.
  - exists "0"%char, "0"%char, "0"%char. now repeat split.
  - rewrite andb_true_r in Hd. exists c1, "0"%char, "0"%char.
    rewrite H1. now repeat split.
  - apply andb_true_iff in Hd as [Hd1 Hd2]. rewrite andb_true_r in Hd2.
    exists c1, c2, "0"%char. rewrite H2. now repeat split.
  - apply andb_true_iff in Hd as [Hd1 Hd]. apply andb_true_iff in Hd as [Hd2 Hd].
    apply andb_true_iff in Hd as [Hd3 _].
    exists c1, c2, c3. rewrite H3. now repeat split.
Qed.

Lemma canonical_stamp4 (a b c d e f g h i : ascii) :
  Forall (fun ch => isDigit ch = true) [a; b; c; d; e; f; g; h; i] ->
  Canonical (stamp4 (String a (String b "")) (String c (String d ""))
               (String e (String f "")) (String g (String h (String i "")))).
Proof. intros H. exists a, b, c, d, e, f, g, h, i. now split. Qed.

Lemma digitsUpTo_weaken (s : string) :
  digitsUpTo 3 s = true -> (String.length s =? 3)%nat = false ->
  digitsUpTo 2 s = true.
Proof.
  unfold digitsUpTo. intros H Hl. apply andb_true_iff in H as [H1 H2].
  rewrite H2, andb_true_r. apply Nat.leb_le in H1. apply Nat.eqb_neq in Hl.
  apply Nat.leb_le. lia.
Qed.

Lemma digitsUpTo_all (n : nat) (s : string) :
  digitsUpTo n s = true -> allChars isDigit s = true.
Proof. unfold digitsUpTo. intros H. now apply andb_true_iff in H as [_ H]. Qed.

Ltac stamp_fields :=
  repeat match goal with
         | H : _ && _ = true |- _ => apply andb_true_iff in H as [? ?]
         end;
  repeat match goal with
         | H : digitsUpTo 2 ?s = true |- _ =>
             let a := fresh "a" in let b := fresh "b" in
             apply pad2_digits in H as (a & b & ? & ? & ->)
         end.

(** X8. [fixSingleTime] brings every loosely written timestamp into the
    strict form: for a timestamp of two to four components of digits, with
    clock components of at most two digits, the result is of the form
    HH:MM:SS,mmm. *)
Theorem fixSingleTime_canonical (time : string) :
  looseStamp time = true -> Canonical (fixSingleTime time).
Proof.
  unfold looseStamp. rewrite fixSingleTime_by_shape.
  destruct (splitSep (trim time)) as [|p1 [|p2 [|p3 [|p4 [|p5 rest]]]]];
    try discriminate; intros H.
  - stamp_fields.
    apply (canonical_stamp4 "0" "0" _ _ _ _ "0" "0" "0"). now repeat constructor.
  - apply andb_true_iff in H as [H H3].
    destruct (String.length p3 =? 3)%nat eqn:El.
    + rewrite orb_true_r. apply digitsUpTo_all, ms3_digits in H3.
      destruct H3 as (g & h & i & ? & ? & ? & ->). stamp_fields.
      apply (canonical_stamp4 "0" "0"). now repeat constructor.
    + destruct (gtNum (parseInt None p3) 59); cbn [orb].
      * apply digitsUpTo_all, ms3_digits in H3.
        destruct H3 as (g & h & i & ? & ? & ? & ->). stamp_fields.
        apply (canonical_stamp4 "0" "0"). now repeat constructor.
      * apply digitsUpTo_weaken in H3; [|exact El]. stamp_fields.
        apply (canonical_stamp4 _ _ _ _ _ _ "0" "0" "0"). now repeat constructor.
  - apply andb_true_iff in H as [H H4]. apply ms3_digits in H4.
    destruct H4 as (g & h & i & ? & ? & ? & ->). stamp_fields.
    apply canonical_stamp4. now repeat constructor.
Qed.

Lemma fixSingleTime_canonical_witness : Canonical (fixSingleTime " 0:13.3 ").
Proof. apply (fixSingleTime_canonical " 0:13.3 "). reflexivity. Defined.

Lemma looseStamp_trim (time : string) : looseStamp (trim time) = looseStamp time.
Proof. unfold looseStamp. now rewrite trim_trim. Qed.

(** X9. [fixTimingLine] repairs a loosely written timing line: when the
    line splits on the arrow into two loosely written timestamps, the result
    is of the strict form HH:MM:SS,mmm --> HH:MM:SS,mmm, which the
    styled-event export and the cue parse both accept. *)
Theorem fixTimingLine_strict (line a b : string) :
  splitArrow line = [a; b] ->
  looseStamp a = true -> looseStamp b = true ->
  StrictLine (fixTimingLine line)
  /\ assAccepts (fixTimingLine line) = true
  /\ cueAccepts (fixTimingLine line) = true.
Proof.
  intros Hs Ha Hb.
  assert (H : StrictLine (fixTimingLine line)).
  { unfold fixTimingLine. rewrite Hs. cbn [map length Nat.eqb negb part nth].
    exists (fixSingleTime (trim a)), (fixSingleTime (trim b)).
    split; [|split; [|reflexivity]];
      apply fixSingleTime_canonical; now rewrite looseStamp_trim. }
  split; [exact H|].
  split; [now apply assAccepts_strict | now apply cueAccepts_strict].
Qed.

Lemma fixTimingLine_strict_witness :
  StrictLine (fixTimingLine "00:13:300 --> 00:15,250")
  /\ assAccepts (fixTimingLine "00:13:300 --> 00:15,250") = true
  /\ cueAccepts (fixTimingLine "00:13:300 --> 00:15,250") = true.
Proof.
  apply (fixTimingLine_strict "00:13:300 --> 00:15,250" "00:13:300 " " 00:15,250");
    reflexivity.
Defined.

Lemma strict_parts (t1 t2 : string) :
  Canonical t1 -> Canonical t2 ->
  map trim (splitArrow (t1 +:+ " --> " +:+ t2)) = [t1; t2].
Proof.
  intros H1 H2.
  destruct (canonical_plain t1 H1) as (Hh1 & Hl1 & Hd1 & _).
  destruct (canonical_plain t2 H2) as (Hh2 & Hl2 & Hd2 & _).
  assert (Hne1 : isEmpty t1 = false).
  { destruct H1 as (a & b & c & d & e & f & g & h & i & _ & ->). reflexivity. }
  replace (t1 +:+ " --> " +:+ t2) with ((t1 +:+ " ") +:+ "-->" +:+ (" " +:+ t2))
    by now rewrite !append_assoc.
  rewrite splitArrow_append, splitArrow_noDash.
  - cbn [map]. f_equal; [|f_equal].
    + unfold trim. rewrite trimStart_id by now rewrite headOk_append.
      now apply trimEnd_space.
    + unfold trim. change (" " +:+ t2) with (String " " t2).
      cbn [trimStart]. change (isSpace " ") with true. cbn iota.
      now rewrite trimStart_id, trimEnd_id.
  - unfold noDash in *. change (" " +:+ t2) with (String " " t2). cbn [allChars].
    now rewrite Hd2.
  - unfold noDash in *. rewrite allChars_append, Hd1. reflexivity.
Qed.

Lemma fixTimingLine_fixed (line : string) : StrictLine line -> fixTimingLine line = line.
Proof.
  intros (t1 & t2 & H1 & H2 & ->). unfold fixTimingLine.
  rewrite (strict_parts t1 t2 H1 H2). cbn [length Nat.eqb negb part nth].
  now rewrite !canonical_fixed.
Qed.

Lemma splitLines_plain (c : ascii) (s : string) :
  (c =? "013")%char = false -> (c =? "010")%char = false ->
  splitLines (String c s) = pushChar c (splitLines s).
Proof.
  destruct c as [[] [] [] [] [] [] [] []]; intros H1 H2;
    first [discriminate H1 | discriminate H2 | reflexivity].
Qed.

Lemma splitLines_nonempty (s : string) : splitLines s <> [].
Proof.
  destruct s as [|c s]; [discriminate|].
  destruct (c =? "013")%char eqn:E1.
  - apply Ascii.eqb_eq in E1. subst c.
    destruct s as [|c' s]; [discriminate|].
    destruct (c' =? "010")%char eqn:E2.
    + apply Ascii.eqb_eq in E2. subst c'. discriminate.
    + assert (E : splitLines (String "013" (String c' s))
                  = pushChar "013" (splitLines (String c' s))).
      { destruct c' as [[] [] [] [] [] [] [] []];
          first [discriminate E2 | reflexivity]. }
      rewrite E. now destruct (splitLines (String c' s)).
  - destruct (c =? "010")%char eqn:E2.
    + apply Ascii.eqb_eq in E2. subst c. discriminate.
    + rewrite splitLines_plain by assumption. now destruct (splitLines s).
Qed.

Lemma join_cons (sep x : string) (l : list string) :
  l <> [] -> join sep (x :: l) = x +:+ sep +:+ join sep l.
Proof. now destruct l. Qed.

Lemma join_pushChar (sep : string) (c : ascii) (l : list string) :
  l <> [] -> join sep (pushChar c l) = String c (join sep l).
Proof. intros H. destruct l as [|x [|y l]]; [contradiction|reflexivity..]. Qed.

(** Splitting into lines and joining with LF gives the document back when
    it holds no carriage return. *)
Lemma join_splitLines (s : string) : noCR s = true -> join nl (splitLines s) = s.
Proof.
  unfold noCR. induction s as [|c s IH]; [reflexivity|].
  cbn [allChars]. intros H. apply andb_true_iff in H as [Hc Hs].
  apply negb_true_iff in Hc. specialize (IH Hs).
  destruct (c =? "010")%char eqn:E.
  - apply Ascii.eqb_eq in E. subst c.
    change (splitLines (String "010" s)) with ("" :: splitLines s).
    rewrite join_cons by apply splitLines_nonempty. now rewrite IH.
  - rewrite splitLines_plain by assumption.
    rewrite join_pushChar by apply splitLines_nonempty. now rewrite IH.
Qed.

Lemma normalizeLines_map (lines : list string) :
  forall result, normalizeLines lines result = result ++ map normalizeLine lines.
Proof.
  induction lines as [|l lines IH]; intros result; cbn [normalizeLines map].
  - now rewrite app_nil_r.
  - unfold normalizeLine at 1.
    destruct (includesArrow l); rewrite IH; now rewrite <- app_assoc.
Qed.

(** X10. [normalizeSrtTiming] leaves a normalized document unchanged: when
    the document has LF line ends and every line with an arrow is of the
    strict form HH:MM:SS,mmm --> HH:MM:SS,mmm, the result is the document
    itself. *)
Theorem normalizeSrtTiming_fixed (srtContent : string) :
  noCR srtContent = true ->
  Forall (fun line => includesArrow line = true -> StrictLine line)
    (splitLines srtContent) ->
  normalizeSrtTiming srtContent = srtContent.
Proof.
  intros Hcr Hlines. unfold normalizeSrtTiming.
  rewrite normalizeLines_map. cbn [app].
  replace (map normalizeLine (splitLines srtContent)) with (splitLines srtContent).
  - now apply join_splitLines.
  - induction Hlines as [|l lines Hl _ IH]; [reflexivity|].
    cbn [map]. rewrite <- IH. f_equal. unfold normalizeLine.
    destruct (includesArrow l); [|reflexivity].
    symmetry. now apply fixTimingLine_fixed, Hl.
Qed.

Lemma normalizeSrtTiming_fixed_witness :
  normalizeSrtTiming mixedDoc = mixedDoc.
Proof.
  apply (normalizeSrtTiming_fixed mixedDoc); [reflexivity|].
  vm_compute splitLines. repeat constructor; try discriminate.
  intros _. exists "00:00:01,000", "00:00:04,000".
  split; [|split; [|reflexivity]].
  - exists "0"%char, "0"%char, "0"%char, "0"%char, "0"%char, "1"%char,
      "0"%char, "0"%char, "0"%char.
    split; [repeat constructor | reflexivity].
  - exists "0"%char, "0"%char, "0"%char, "0"%char, "0"%char, "4"%char,
      "0"%char, "0"%char, "0"%char.
    split; [repeat constructor | reflexivity].
Defined.

Lemma splitLines_line (a : string) : noBreak a = true -> splitLines a = [a].
Proof.
  unfold noBreak. induction a as [|c a IH]; [reflexivity|].
  cbn [allChars]. intros H. apply andb_true_iff in H as [Hc Ha].
  apply andb_true_iff in Hc as [H1 H2]. apply negb_true_iff in H1, H2.
  rewrite splitLines_plain, (IH Ha) by assumption. reflexivity.
Qed.

Lemma splitLines_append (a : string) (sep rest : string) :
  noBreak a = true -> sep = nl \/ sep = String "013" nl ->
  splitLines (a +:+ sep +:+ rest) = a :: splitLines rest.
Proof.
  unfold noBreak. intros Ha Hsep. induction a as [|c a IH].
  - rewrite append_nil_l. destruct Hsep as [-> | ->]; reflexivity.
  - cbn [allChars] in Ha. apply andb_true_iff in Ha as [Hc Ha].
    apply andb_true_iff in Hc as [H1 H2]. apply negb_true_iff in H1, H2.
    rewrite append_cons, splitLines_plain, (IH Ha) by assumption. reflexivity.
Qed.

Lemma splitLines_join (sep : string) (lines : list string) :
  sep = nl \/ sep = String "013" nl ->
  lines <> [] -> Forall (fun line => noBreak line = true) lines ->
  splitLines (join sep lines) = lines.
Proof.
  intros Hsep Hne H. induction H as [|l lines Hl Hrest IH]; [contradiction|].
  destruct lines as [|l2 lines].
  - cbn [join]. now apply splitLines_line.
  - rewrite join_cons by discriminate.
    rewrite splitLines_append by assumption.
    f_equal. now apply IH.
Qed.

(** X11. [normalizeSrtTiming] works line by line and writes LF line
    ends: a document made of lines separated by LF, and the same lines
    separated by CRLF, both come out as the lines joined by LF, each line
    with an arrow replaced by its [fixTimingLine] and every other line
    kept. *)
Theorem normalizeSrtTiming_lines (lines : list string) :
  lines <> [] ->
  Forall (fun line => noBreak line = true) lines ->
  normalizeSrtTiming (join nl lines) = join nl (map normalizeLine lines)
  /\ normalizeSrtTiming (join (String "013" nl) lines)
     = join nl (map normalizeLine lines).
Proof.
  intros Hne H. unfold normalizeSrtTiming.
  rewrite !normalizeLines_map. cbn [app].
  rewrite !splitLines_join by auto. now split.
Qed.

Lemma normalizeSrtTiming_lines_witness :
  normalizeSrtTiming (join nl ["1"; "0:13.3 --> 15:2"; "Hi"])
  = join nl (map normalizeLine ["1"; "0:13.3 --> 15:2"; "Hi"])
  /\ normalizeSrtTiming (join (String "013" nl) ["1"; "0:13.3 --> 15:2"; "Hi"])
     = join nl (map normalizeLine ["1"; "0:13.3 --> 15:2"; "Hi"]).
Proof.
  apply (normalizeSrtTiming_lines ["1"; "0:13.3 --> 15:2"; "Hi"]);
    [discriminate | repeat constructor].
Defined.

(** ** Clock strings of the styled-event export *)

Lemma digit_cases (c : ascii) :
  isDigit c = true ->
  In c ["0"; "1"; "2"; "3"; "4"; "5"; "6"; "7"; "8"; "9"]%char.
Proof.
  destruct c as [[] [] [] [] [] [] [] []]; vm_compute; intros H;
    first [discriminate H | tauto].
Qed.

Lemma digit_not_colon (c : ascii) : isDigit c = true -> isColon c = false.
Proof.
  intros H. apply digit_plain in H as [H _]. unfold isSep in H. unfold isColon.
  now destruct (c =? ":")%char.
Qed.

Lemma hour_string (a b : ascii) :
  isDigit a = true -> isDigit b = true ->
  numToString (parseInt (Some 10) (String a (String b "")))
  = if (a =? "0")%char then String b "" else String a (String b "").
Proof.
  intros Ha Hb. apply digit_cases in Ha, Hb. cbn [In] in Ha, Hb.
  repeat (destruct Ha as [<- | Ha]; [|]);
    try contradiction;
    repeat (destruct Hb as [<- | Hb]; [|]);
    try contradiction; reflexivity.
Qed.

Lemma convertToAssTime_clock (a b c d e f g h i : ascii) :
  Forall (fun ch => isDigit ch = true) [a; b; c; d; e; f; g; h; i] ->
  convertToAssTime
    (String a (String b "") +:+ ":" +:+ String c (String d "") +:+ ":"
       +:+ String e (String f ""))
    (String g (String h (String i "")))
  = assClock a b c d e f g h.
Proof.
  intros Hd. use_digits. unfold convertToAssTime, assClock.
  rewrite <- (hour_string a b) by assumption.
  repeat match goal with
         | H : isDigit ?x = true |- _ =>
             let Hc := fresh "Hc" in
             pose proof (digit_not_colon x H) as Hc; clear H
         end.
  change (String a (String b "") +:+ ":" +:+ String c (String d "") +:+ ":"
            +:+ String e (String f ""))
    with (String a (String b (String ":" (String c (String d (String ":"
            (String e (String f "")))))))).
  cbn [splitOn].
  repeat match goal with H : isColon _ = false |- _ => rewrite H; clear H end.
  reflexivity.
Qed.

Lemma stdStamp_groups (a b c d e f g h i : ascii) (r : string) :
  Forall (fun ch => isDigit ch = true) [a; b; c; d; e; f; g; h; i] ->
  stdStamp 2 (canonicalOf a b c d e f g h i +:+ r)
  = Some (String a (String b "") +:+ ":" +:+ String c (String d "") +:+ ":"
            +:+ String e (String f ""),
          String g (String h (String i "")), r).
Proof.
  intros Hd. use_digits.
  change (canonicalOf a b c d e f g h i +:+ r)
    with (String a (String b (String ":" (String c (String d (String ":"
           (String e (String f (String "," (String g (String h (String i r)))))))))))).
  unfold stdStamp. step_digits. reflexivity.
Qed.

Lemma assTimes_clock (a b c d e f g h i a' b' c' d' e' f' g' h' i' : ascii) :
  Forall (fun ch => isDigit ch = true) [a; b; c; d; e; f; g; h; i] ->
  Forall (fun ch => isDigit ch = true) [a'; b'; c'; d'; e'; f'; g'; h'; i'] ->
  assTimes (canonicalOf a b c d e f g h i +:+ " --> "
              +:+ canonicalOf a' b' c' d' e' f' g' h' i')
  = Some (assClock a b c d e f g h, assClock a' b' c' d' e' f' g' h').
Proof.
  intros H1 H2.
  set (t2 := canonicalOf a' b' c' d' e' f' g' h' i').
  assert (Hc2 : Canonical t2) by (exists a', b', c', d', e', f', g', h', i'; now split).
  destruct (canonical_plain t2 Hc2) as (Hh & _).
  pose proof (stdStamp_groups a b c d e f g h i (" --> " +:+ t2) H1) as E1.
  pose proof (stdStamp_groups a' b' c' d' e' f' g' h' i' "" H2) as E2.
  rewrite append_nil_r in E2. fold t2 in E2.
  unfold assTimes.
  erewrite search_here.
  2:{ unfold stdAt, stdWith. rewrite E1. cbn [mbind option_bind].
      change (trimStart (" --> " +:+ t2))
        with (String "-" (String "-" (String ">" (String " " t2)))).
      cbn [arrow mbind option_bind].
      change (trimStart (String " " t2)) with (trimStart t2).
      rewrite (trimStart_id t2 Hh), E2. reflexivity. }
  cbv beta iota. now rewrite !convertToAssTime_clock.
Qed.

(** X12. The styled-event export writes a strict timing line
    HH:MM:SS,mmm --> HH:MM:SS,mmm as the clock pair H:MM:SS.cc: the hour
    loses a leading zero and the milliseconds are cut, not rounded, to
    centiseconds. *)
Theorem assTimes_strict (a b c d e f g h i a' b' c' d' e' f' g' h' i' : ascii) :
  Forall (fun ch => isDigit ch = true)
    [a; b; c; d; e; f; g; h; i; a'; b'; c'; d'; e'; f'; g'; h'; i'] ->
  assTimes (canonicalOf a b c d e f g h i +:+ " --> "
              +:+ canonicalOf a' b' c' d' e' f' g' h' i')
  = Some (assClock a b c d e f g h, assClock a' b' c' d' e' f' g' h').
Proof.
  intros Hd.
  change [a; b; c; d; e; f; g; h; i; a'; b'; c'; d'; e'; f'; g'; h'; i']
    with ([a; b; c; d; e; f; g; h; i] ++ [a'; b'; c'; d'; e'; f'; g'; h'; i']) in Hd.
  apply Forall_app in Hd as [H1 H2]. now apply assTimes_clock.
Qed.

Lemma assTimes_strict_witness :
  assTimes "01:02:03,456 --> 12:34:56,789" = Some ("1:02:03.45", "12:34:56.78").
Proof.
  apply (assTimes_strict "0" "1" "0" "2" "0" "3" "4" "5" "6"
           "1" "2" "3" "4" "5" "6" "7" "8" "9").
  repeat constructor.
Defined.

(** ** Blocks with and without an index line *)

Lemma findTiming_cases (lines : list string) :
  Forall (fun l => includesArrow l = false) lines
  \/ exists pre line post,
       lines = pre ++ line :: post /\
       Forall (fun l => includesArrow l = false) pre /\
       includesArrow line = true.
Proof.
  induction lines as [|l lines IH]; [left; constructor|].
  destruct (includesArrow l) eqn:E.
  - right. exists [], l, lines. repeat split; [constructor | exact E].
  - destruct IH as [IH | (pre & line & post & -> & Hpre & Hline)].
    + left. now constructor.
    + right. exists (l :: pre), line, post. repeat split; [now constructor | exact Hline].
Qed.

Lemma textLinesOf_shift (x : string) (lines : list string) (k : nat) :
  textLinesOf (x :: lines) (S k) = textLinesOf lines k.
Proof. reflexivity. Qed.

(** The timing line and the text lines found after skipping a first line
    without an arrow. *)
Lemma findTiming_skip (x : string) (lines : list string) :
  includesArrow x = false ->
  fst (findTiming (x :: lines) 0) = fst (findTiming lines 0) /\
  (isEmpty (fst (findTiming lines 0)) = false ->
   textLinesOf (x :: lines) (snd (findTiming (x :: lines) 0))
   = textLinesOf lines (snd (findTiming lines 0))).
Proof.
  intros Hx. cbn [findTiming]. rewrite Hx.
  destruct (findTiming_cases lines) as [Hno | (pre & line & post & -> & Hpre & Hline)].
  - rewrite !findTiming_none by assumption. split; [reflexivity|]. discriminate.
  - rewrite !findTiming_arrow by assumption. cbn [fst snd]. split; [reflexivity|].
    intros _. apply textLinesOf_shift.
Qed.

(** X13. The index line of a block is optional: a first line without an
    arrow, in front of a block, changes neither the cue that
    [parseSrtToSubtitles] makes of the block nor the Dialogue record that
    [srtToAss] makes of it. *)
Theorem index_line_optional (index rest : string) :
  noBreak index = true -> includesArrow index = false ->
  cueOfBlock (index +:+ nl +:+ rest) = cueOfBlock rest
  /\ eventOfBlock (index +:+ nl +:+ rest) = eventOfBlock rest.
Proof.
  intros Hb Hx.
  assert (Hs : splitLines (index +:+ nl +:+ rest) = index :: splitLines rest)
    by (apply splitLines_append; [exact Hb | now left]).
  unfold cueOfBlock, eventOfBlock. rewrite Hs.
  pose proof (splitLines_nonempty rest) as Hne.
  destruct (findTiming_skip index (splitLines rest) Hx) as [Hline Htext].
  destruct (findTiming (index :: splitLines rest) 0) as [line1 k1].
  destruct (findTiming (splitLines rest) 0) as [line k] eqn:Hf.
  cbn [fst snd] in Hline, Htext. subst line1.
  destruct (isEmpty line) eqn:Hl.
  - split; now destruct (_ <? 2)%nat, (_ <? 2)%nat.
  - specialize (Htext eq_refl). rewrite Htext.
    destruct (splitLines rest) as [|l1 [|l2 lines]] eqn:El; [contradiction| |].
    + (* a block of one line has no text *)
      assert (Ht : textLinesOf [l1] k = []).
      { cbn in Hf. destruct (includesArrow l1); inversion Hf; subst; [reflexivity|].
        discriminate. }
      rewrite Ht. cbn [length Nat.ltb Nat.leb join isEmpty].
      split.
      * now repeat case_match.
      * now repeat case_match.
    + split; reflexivity.
Qed.

Lemma index_line_optional_witness :
  cueOfBlock ("7" +:+ nl +:+ join nl ["00:00:01,000 --> 00:00:04,000"; "Hello"])
  = cueOfBlock (join nl ["00:00:01,000 --> 00:00:04,000"; "Hello"])
  /\ eventOfBlock ("7" +:+ nl +:+ join nl ["00:00:01,000 --> 00:00:04,000"; "Hello"])
     = eventOfBlock (join nl ["00:00:01,000 --> 00:00:04,000"; "Hello"]).
Proof. apply (index_line_optional "7"); reflexivity. Defined.

(** ** The value of a canonical timestamp and the cue of a well-formed block *)

Lemma digitOf_digit (c : ascii) :
  isDigit c = true -> digitOf 10 c = Some (digitValue c).
Proof.
  intros H. apply digit_cases in H. cbn [In] in H.
  repeat destruct H as [<- | H]; first [reflexivity | contradiction].
Qed.

Lemma parseInt_digit (c : ascii) (s : string) :
  isDigit c = true ->
  parseInt (Some 10) (String c s) = Some (accDigits 10 (digitValue c) s).
Proof.
  intros H. apply digit_cases in H. cbn [In] in H.
  repeat destruct H as [<- | H]; first [reflexivity | contradiction].
Qed.

Lemma componentValue_two (a b : ascii) :
  isDigit a = true -> isDigit b = true ->
  componentValue (String a (String b "")) = 10 * digitValue a + digitValue b.
Proof.
  intros Ha Hb. unfold componentValue. rewrite (parseInt_digit a _ Ha).
  cbn [accDigits]. rewrite (digitOf_digit b Hb). lia.
Qed.

Lemma componentValue_three (a b c : ascii) :
  isDigit a = true -> isDigit b = true -> isDigit c = true ->
  componentValue (String a (String b (String c "")))
  = 100 * digitValue a + 10 * digitValue b + digitValue c.
Proof.
  intros Ha Hb Hc. unfold componentValue. rewrite (parseInt_digit a _ Ha).
  cbn [accDigits]. rewrite (digitOf_digit b Hb), (digitOf_digit c Hc). lia.
Qed.

Lemma timeToSeconds_stamp (a b c d e f g h i : ascii) :
  Forall (fun ch => isDigit ch = true) [a; b; c; d; e; f; g; h; i] ->
  timeToSeconds (canonicalOf a b c d e f g h i)
  = Some (stampSeconds a b c d e f g h i).
Proof.
  intros Hd. use_digits.
  change (canonicalOf a b c d e f g h i)
    with (stamp4 (String a (String b "")) (String c (String d ""))
            (String e (String f "")) (String g (String h (String i "")))).
  rewrite timeToSeconds_stamp4.
  - unfold stampSeconds. now rewrite !componentValue_two, componentValue_three.
  - repeat match goal with
           | H : isDigit _ = true |- _ => apply digit_plain in H as [? ?]
           end.
    unfold fieldsOk, noSep. cbn.
    repeat match goal with H : _ = false |- _ => rewrite H; clear H end.
    now repeat split.
Qed.

Lemma digitValue_range (c : ascii) : isDigit c = true -> 0 <= digitValue c <= 9.
Proof.
  intros H. apply digit_cases in H. cbn [In] in H.
  repeat destruct H as [<- | H]; first [contradiction | vm_compute; split; discriminate].
Qed.

(** X14. [timeToSeconds] reads a timestamp HH:MM:SS,mmm as the decimal
    number it shows: 3600 times the hours plus 60 times the minutes plus
    the seconds plus the milliseconds over 1000, every field read in base
    ten (a leading zero does not make it octal); the value is never
    negative. *)
Theorem timeToSeconds_canonical_value (a b c d e f g h i : ascii) :
  Forall (fun ch => isDigit ch = true) [a; b; c; d; e; f; g; h; i] ->
  timeToSeconds (canonicalOf a b c d e f g h i)
  = Some (stampSeconds a b c d e f g h i)
  /\ (0 <= stampSeconds a b c d e f g h i)%Q.
Proof.
  intros Hd. split; [now apply timeToSeconds_stamp|].
  use_digits.
  repeat match goal with
         | H : isDigit _ = true |- _ => apply digitValue_range in H
         end.
  unfold stampSeconds, secondsOf, Qle, Qdiv, Qmult, Qplus, Qinv, inject_Z.
  cbn [Qnum Qden]. rewrite !Pos.mul_1_l. lia.
Qed.

Lemma timeToSeconds_canonical_value_witness :
  timeToSeconds "01:02:03,456" = Some (stampSeconds "0" "1" "0" "2" "0" "3" "4" "5" "6")
  /\ (0 <= stampSeconds "0" "1" "0" "2" "0" "3" "4" "5" "6")%Q.
Proof.
  apply (timeToSeconds_canonical_value "0" "1" "0" "2" "0" "3" "4" "5" "6").
  repeat constructor.
Defined.

Lemma includesArrow_push (c : ascii) (s : string) :
  (c =? "-")%char = false -> includesArrow (String c s) = includesArrow s.
Proof.
  destruct c as [[] [] [] [] [] [] [] []]; intros H;
    first [discriminate H | reflexivity].
Qed.

Lemma includesArrow_append (s t : string) :
  noDash s = true -> includesArrow (s +:+ "-->" +:+ t) = true.
Proof.
  unfold noDash. induction s as [|c s IH]; [reflexivity|].
  cbn [allChars]. intros H. apply andb_true_iff in H as [Hc Hs].
  apply negb_true_iff in Hc.
  rewrite append_cons, (includesArrow_push c _ Hc). now apply IH.
Qed.

Lemma digit_noBreak (c : ascii) :
  isDigit c = true -> negb (c =? "013")%char && negb (c =? "010")%char = true.
Proof.
  intros H. apply digit_cases in H. cbn [In] in H.
  repeat destruct H as [<- | H]; first [reflexivity | contradiction].
Qed.

Lemma canonical_noBreak (a b c d e f g h i : ascii) :
  Forall (fun ch => isDigit ch = true) [a; b; c; d; e; f; g; h; i] ->
  noBreak (canonicalOf a b c d e f g h i) = true.
Proof.
  intros Hd. use_digits. unfold noBreak, canonicalOf. cbn [allChars].
  repeat match goal with
         | H : isDigit _ = true |- _ => apply digit_noBreak in H; rewrite H; clear H
         end.
  reflexivity.
Qed.

Lemma strictLine_shape (t1 t2 : string) :
  Canonical t1 -> Canonical t2 ->
  noBreak (t1 +:+ " --> " +:+ t2) = true
  /\ includesArrow (t1 +:+ " --> " +:+ t2) = true
  /\ isEmpty (t1 +:+ " --> " +:+ t2) = false.
Proof.
  intros H1 H2.
  destruct (canonical_plain t1 H1) as (_ & _ & Hd1 & _).
  destruct H1 as (a & b & c & d & e & f & g & h & i & D1 & ->).
  destruct H2 as (a' & b' & c' & d' & e' & f' & g' & h' & i' & D2 & ->).
  split; [|split].
  - unfold noBreak. rewrite !allChars_append.
    fold (noBreak (canonicalOf a b c d e f g h i)).
    fold (noBreak (canonicalOf a' b' c' d' e' f' g' h' i')).
    now rewrite !canonical_noBreak.
  - replace (canonicalOf a b c d e f g h i +:+ " --> "
               +:+ canonicalOf a' b' c' d' e' f' g' h' i')
      with ((canonicalOf a b c d e f g h i +:+ " ") +:+ "-->"
              +:+ (" " +:+ canonicalOf a' b' c' d' e' f' g' h' i'))
      by now rewrite !append_assoc.
    apply includesArrow_append. unfold noDash in *.
    rewrite allChars_append, Hd1. reflexivity.
  - reflexivity.
Qed.

Lemma filter_captionLines (textLines : list string) :
  Forall (fun l => captionLine l = true) textLines ->
  List.filter (fun l => negb (isEmpty (trim l))) textLines = textLines
  /\ Forall (fun l => noBreak l = true) textLines.
Proof.
  induction 1 as [|l ls Hl _ [IH1 IH2]]; [now split|].
  unfold captionLine in Hl. apply andb_true_iff in Hl as [Hb Ht].
  cbn [List.filter]. rewrite Ht, IH1. split; [reflexivity | now constructor].
Qed.

Lemma join_captionLines (sep : string) (textLines : list string) :
  textLines <> [] -> Forall (fun l => captionLine l = true) textLines ->
  isEmpty (join sep textLines) = false.
Proof.
  intros Hne H. destruct H as [|l ls Hl _]; [contradiction|].
  assert (El : isEmpty l = false).
  { unfold captionLine in Hl. apply andb_true_iff in Hl as [_ Ht].
    destruct l; [discriminate Ht | reflexivity]. }
  destruct ls as [|l2 ls]; [exact El|].
  rewrite join_cons by discriminate. now rewrite isEmpty_append, El.
Qed.

Lemma wellformed_block
  (index : string) (a b c d e f g h i a' b' c' d' e' f' g' h' i' : ascii)
  (textLines : list string) :
  noBreak index = true -> includesArrow index = false ->
  Forall (fun ch => isDigit ch = true) [a; b; c; d; e; f; g; h; i] ->
  Forall (fun ch => isDigit ch = true) [a'; b'; c'; d'; e'; f'; g'; h'; i'] ->
  textLines <> [] -> Forall (fun l => captionLine l = true) textLines ->
  let timing := canonicalOf a b c d e f g h i +:+ " --> "
                  +:+ canonicalOf a' b' c' d' e' f' g' h' i' in
  let block := join nl (index :: timing :: textLines) in
  cueOfBlock block
  = Some (mkCue (join " " textLines) (stampSeconds a b c d e f g h i)
            (stampSeconds a' b' c' d' e' f' g' h' i'))
  /\ eventOfBlock block
     = Some ("Dialogue: 0," +:+ assClock a b c d e f g h +:+ ","
             +:+ assClock a' b' c' d' e' f' g' h' +:+ ",Default,,0,0,0,,"
             +:+ join "\N" textLines).
Proof.
  intros Hb Hx D1 D2 Hne Ht timing block.
  set (t1 := canonicalOf a b c d e f g h i) in *.
  set (t2 := canonicalOf a' b' c' d' e' f' g' h' i') in *.
  assert (C1 : Canonical t1) by (exists a, b, c, d, e, f, g, h, i; now split).
  assert (C2 : Canonical t2) by (exists a', b', c', d', e', f', g', h', i'; now split).
  destruct (strictLine_shape t1 t2 C1 C2) as (Hlb & Hla & Hle). fold timing in Hlb, Hla, Hle.
  destruct (filter_captionLines textLines Ht) as [Hf Hbs].
  assert (Hs : splitLines block = index :: timing :: textLines).
  { apply splitLines_join; [now left | discriminate | now repeat constructor]. }
  assert (Hfind : findTiming (index :: timing :: textLines) 0 = (timing, 2%nat)).
  { cbn [findTiming]. now rewrite Hx, Hla. }
  assert (Htext : textLinesOf (index :: timing :: textLines) 2 = textLines).
  { unfold textLinesOf. cbn [drop]. rewrite drop_0. exact Hf. }
  unfold cueOfBlock, eventOfBlock. rewrite Hs, Hfind.
  cbn [length Nat.ltb Nat.leb]. rewrite Hle, Htext.
  rewrite !join_captionLines by assumption.
  split.
  - unfold timing. rewrite (strict_parts t1 t2 C1 C2).
    cbn [length Nat.eqb negb part nth]. unfold t1, t2.
    now rewrite !timeToSeconds_stamp.
  - unfold timing, t1, t2. now rewrite assTimes_clock.
Qed.

(** X15. A well-formed block, that is an index line, a timing line
    HH:MM:SS,mmm --> HH:MM:SS,mmm and one or more lines of text that are
    not blank, always gives a cue and a Dialogue record: the cue holds
    the text lines joined by single spaces and the two timestamps in
    seconds; the record holds the two clock strings and the text lines
    joined by the line-break mark of the styled-event format. *)
Theorem wellformed_block_kept
  (index : string) (a b c d e f g h i a' b' c' d' e' f' g' h' i' : ascii)
  (textLines : list string) :
  noBreak index = true -> includesArrow index = false ->
  Forall (fun ch => isDigit ch = true) [a; b; c; d; e; f; g; h; i] ->
  Forall (fun ch => isDigit ch = true) [a'; b'; c'; d'; e'; f'; g'; h'; i'] ->
  textLines <> [] -> Forall (fun l => captionLine l = true) textLines ->
  let timing := canonicalOf a b c d e f g h i +:+ " --> "
                  +:+ canonicalOf a' b' c' d' e' f' g' h' i' in
  let block := join nl (index :: timing :: textLines) in
  cueOfBlock block
  = Some (mkCue (join " " textLines) (stampSeconds a b c d e f g h i)
            (stampSeconds a' b' c' d' e' f' g' h' i'))
  /\ eventOfBlock block
     = Some ("Dialogue: 0," +:+ assClock a b c d e f g h +:+ ","
             +:+ assClock a' b' c' d' e' f' g' h' +:+ ",Default,,0,0,0,,"
             +:+ join "\N" textLines).
Proof.
  intros Hb Hx D1 D2 Hne Ht. now apply wellformed_block.
Qed.

Lemma wellformed_block_kept_witness :
  cueOfBlock (join nl ["1"; "00:00:01,000 --> 00:00:04,500"; "Hello"; "world"])
  = Some (mkCue "Hello world" (stampSeconds "0" "0" "0" "0" "0" "1" "0" "0" "0")
            (stampSeconds "0" "0" "0" "0" "0" "4" "5" "0" "0"))
  /\ eventOfBlock (join nl ["1"; "00:00:01,000 --> 00:00:04,500"; "Hello"; "world"])
     = Some ("Dialogue: 0,0:00:01.00,0:00:04.50,Default,,0,0,0,,Hello\Nworld").
Proof.
  apply (wellformed_block_kept "1" "0" "0" "0" "0" "0" "1" "0" "0" "0"
           "0" "0" "0" "0" "0" "4" "5" "0" "0" ["Hello"; "world"]);
    first [reflexivity | discriminate | repeat constructor].
Defined.

(** ** Code fences in the model's reply *)

Lemma stripFences_push (c : ascii) (s : string) :
  (c =? "`")%char = false ->
  stripFencesFrom None (String c s) = String c (stripFencesFrom None s).
Proof.
  destruct c as [[] [] [] [] [] [] [] []]; intros H;
    first [discriminate H | reflexivity].
Qed.

Lemma stripFences_buffer (buf : string) (c : ascii) (s : string) :
  (c =? "`")%char = false ->
  stripFencesFrom (Some buf) (String c s)
  = stripFencesFrom (Some (buf +:+ String c "")) s.
Proof.
  destruct c as [[] [] [] [] [] [] [] []]; intros H;
    first [discriminate H | reflexivity].
Qed.

Lemma stripFences_before (pre s : string) :
  noTick pre = true ->
  stripFencesFrom None (pre +:+ s) = pre +:+ stripFencesFrom None s.
Proof.
  unfold noTick. induction pre as [|c pre IH]; [now rewrite !append_nil_l|].
  cbn [allChars]. intros H. apply andb_true_iff in H as [Hc Hp].
  apply negb_true_iff in Hc.
  now rewrite !append_cons, (stripFences_push c _ Hc), (IH Hp).
Qed.

Lemma stripFences_closed (buf body post : string) :
  noTick body = true ->
  stripFencesFrom (Some buf) (body +:+ fence +:+ post) = stripFencesFrom None post.
Proof.
  unfold noTick. revert buf. induction body as [|c body IH]; intros buf.
  - intros _. rewrite append_nil_l. reflexivity.
  - cbn [allChars]. intros H. apply andb_true_iff in H as [Hc Hp].
    apply negb_true_iff in Hc.
    now rewrite append_cons, (stripFences_buffer buf c _ Hc), (IH _ Hp).
Qed.

Lemma stripFences_open (buf body : string) :
  noTick body = true ->
  stripFencesFrom (Some buf) body = fence +:+ buf +:+ body.
Proof.
  unfold noTick. revert buf. induction body as [|c body IH]; intros buf.
  - intros _. now rewrite append_nil_r.
  - cbn [allChars]. intros H. apply andb_true_iff in H as [Hc Hp].
    apply negb_true_iff in Hc.
    rewrite (stripFences_buffer buf c _ Hc), (IH _ Hp).
    now rewrite append_assoc.
Qed.

(** X16. What the fence pattern removes from a reply.  Text without a
    backquote is kept as it is; a block between two fences is removed
    together with everything inside it, and the scan goes on after the
    closing fence; a fence that is never closed is kept with the text
    that follows it. *)
Theorem stripFences_blocks (pre body post : string) :
  noTick pre = true -> noTick body = true ->
  stripFences pre = pre
  /\ stripFences (pre +:+ fence +:+ body +:+ fence +:+ post) = pre +:+ stripFences post
  /\ stripFences (pre +:+ fence +:+ body) = pre +:+ fence +:+ body.
Proof.
  intros Hp Hb. unfold stripFences. repeat split.
  - rewrite <- (append_nil_r pre) at 1. rewrite stripFences_before by exact Hp.
    now rewrite append_nil_r.
  - rewrite stripFences_before by exact Hp. f_equal.
    change (stripFencesFrom None (fence +:+ body +:+ fence +:+ post))
      with (stripFencesFrom (Some "") (body +:+ fence +:+ post)).
    now apply stripFences_closed.
  - rewrite stripFences_before by exact Hp. f_equal.
    change (stripFencesFrom None (fence +:+ body))
      with (stripFencesFrom (Some "") body).
    rewrite stripFences_open by exact Hb. now rewrite append_nil_l.
Qed.

Lemma stripFences_blocks_witness :
  stripFences "intro " = "intro "
  /\ stripFences ("intro " +:+ fence +:+ "srt 1" +:+ fence +:+ " outro") = "intro " +:+ stripFences " outro"
  /\ stripFences ("intro " +:+ fence +:+ "srt 1") = "intro " +:+ fence +:+ "srt 1".
Proof. apply (stripFences_blocks "intro " "srt 1" " outro"); reflexivity. Defined.





(** X18. A reply without a backquote is returned with the white space
    around it removed, and rejected only when nothing else is left; the
    content returned is never empty and never starts or ends with white
    space. *)
Theorem unfenced_reply_trimmed (text : string) :
  noTick text = true ->
  cleanGeminiReply text
  = (if isEmpty (trim text) then Throw "Empty SRT content received"
     else Ok (trim text))
  /\ forall srtContent, cleanGeminiReply text = Ok srtContent ->
       isEmpty srtContent = false /\ trim srtContent = srtContent.
Proof.
  intros H. unfold cleanGeminiReply.
  destruct (stripFences_blocks text "" "" H eq_refl) as (-> & _).
  split; [reflexivity|].
  intros srtContent. destruct (isEmpty (trim text)) eqn:E; [discriminate|].
  intros [= <-]. split; [exact E | apply trim_trim].
Qed.

Lemma unfenced_reply_trimmed_witness :
  cleanGeminiReply " 1 Hi " = Ok "1 Hi"
  /\ forall srtContent, cleanGeminiReply " 1 Hi " = Ok srtContent ->
       isEmpty srtContent = false /\ trim srtContent = srtContent.
Proof. apply (unfenced_reply_trimmed " 1 Hi "). reflexivity. Defined.

(** ** The stored configuration *)

Lemma getApiConfig_settled (parseJson : string -> option ApiConfig) (st : ConfigState) :
  getApiConfig parseJson (snd (getApiConfig parseJson st)) = getApiConfig parseJson st.
Proof.
  unfold getApiConfig.
  destruct (cachedConfig st) as [config|] eqn:Ec; cbn [snd]; [now rewrite Ec|].
  destruct (localStorage st !! configKey) as [stored|] eqn:El; cbn [snd];
    [|now rewrite Ec, El].
  destruct (isEmpty stored) eqn:Es; cbn [snd]; [now rewrite Ec, El, Es|].
  destruct (parseJson stored) as [config|] eqn:Ep; cbn [snd cachedConfig];
    [reflexivity | now rewrite Ec, El, Es, Ep].
Qed.

(** X19. The configuration store.  After [setApiConfig] the next
    [getApiConfig] returns the configuration just set, without reading
    the storage; after [clearApiConfig] it returns nothing, whatever was
    set before, and the storage key is gone; and asking twice gives the
    same answer and leaves the state of the first call. *)
Theorem config_set_get_clear
  (stringify : ApiConfig -> string) (parseJson : string -> option ApiConfig)
  (config : ApiConfig) (st : ConfigState) :
  getApiConfig parseJson (setApiConfig stringify config st)
  = (Some config, setApiConfig stringify config st)
  /\ getApiConfig parseJson (clearApiConfig st) = (None, clearApiConfig st)
  /\ localStorage (clearApiConfig (setApiConfig stringify config st)) !! configKey = None
  /\ getApiConfig parseJson (snd (getApiConfig parseJson st))
     = getApiConfig parseJson st.
Proof.
  repeat split.
  - unfold getApiConfig, clearApiConfig. cbn [cachedConfig localStorage].
    now rewrite lookup_delete_eq.
  - unfold clearApiConfig. cbn [localStorage]. apply lookup_delete_eq.
  - apply getApiConfig_settled.
Qed.

(** X20. The configuration survives a page load exactly when its
    stored text can be read back: if the serialized configuration is not
    the empty text and parses to the configuration, [getApiConfig] on a
    fresh page returns it and caches it again; if the stored text does
    not parse, [getApiConfig] returns nothing and changes nothing. *)
Theorem config_survives_reload
  (stringify : ApiConfig -> string) (parseJson : string -> option ApiConfig)
  (config : ApiConfig) (st : ConfigState) :
  isEmpty (stringify config) = false ->
  getApiConfig parseJson (reload (setApiConfig stringify config st))
  = match parseJson (stringify config) with
    | Some read =>
        (Some read,
         mkConfigState (Some read) (localStorage (setApiConfig stringify config st)))
    | None => (None, reload (setApiConfig stringify config st))
    end
  /\ (parseJson (stringify config) = Some config ->
      getApiConfig parseJson (reload (setApiConfig stringify config st))
      = (Some config, setApiConfig stringify config st)).
Proof.
  intros Hne.
  assert (E : getApiConfig parseJson (reload (setApiConfig stringify config st))
              = match parseJson (stringify config) with
                | Some read =>
                    (Some read,
                     mkConfigState (Some read)
                       (localStorage (setApiConfig stringify config st)))
                | None => (None, reload (setApiConfig stringify config st))
                end).
  { unfold getApiConfig, reload, setApiConfig. cbn [cachedConfig localStorage].
    rewrite lookup_insert_eq, Hne. reflexivity. }
  split; [exact E|]. intros Hp. rewrite E, Hp. reflexivity.
Qed.

Lemma config_survives_reload_witness :
  getApiConfig parseFixed (reload (setApiConfig stringifyFixed geminiConfig emptyConfigState))
  = (Some geminiConfig, setApiConfig stringifyFixed geminiConfig emptyConfigState).
Proof.
  apply (config_survives_reload stringifyFixed parseFixed geminiConfig emptyConfigState);
    reflexivity.
Defined.

(** X21. A client is built only for the configured provider and with
    the stored key: [getGeminiClient] succeeds exactly when a
    configuration is available whose provider is Google Gemini,
    [getOpenAIClient] exactly when it is OpenAI, so in no state do both
    succeed, and after [clearApiConfig] both throw. *)
Theorem clients_follow_provider
  (parseJson : string -> option ApiConfig) (st : ConfigState) (key : string) :
  (fst (getGeminiClient parseJson st) = Ok key
   <-> exists config, fst (getApiConfig parseJson st) = Some config
                      /\ provider config = GOOGLE_GEMINI /\ apiKey config = key)
  /\ (fst (getOpenAIClient parseJson st) = Ok key
      <-> exists config, fst (getApiConfig parseJson st) = Some config
                         /\ provider config = OPENAI /\ apiKey config = key)
  /\ ~ (exists k1 k2, fst (getGeminiClient parseJson st) = Ok k1
                      /\ fst (getOpenAIClient parseJson st) = Ok k2)
  /\ fst (getGeminiClient parseJson (clearApiConfig st))
     = Throw "Please configure Google Gemini API Key first"
  /\ fst (getOpenAIClient parseJson (clearApiConfig st))
     = Throw "Please configure OpenAI API Key first".
Proof.
  unfold getGeminiClient, getOpenAIClient.
  assert (Hc : getApiConfig parseJson (clearApiConfig st) = (None, clearApiConfig st)).
  { unfold getApiConfig, clearApiConfig. cbn [cachedConfig localStorage].
    now rewrite lookup_delete_eq. }
  rewrite Hc.
  destruct (getApiConfig parseJson st) as [[config|] st']; cbn [fst].
  - destruct config as [p k g o]; cbn [provider apiKey].
    destruct p; cbn [fst]; repeat split; try reflexivity.
    + intros [= <-]. eexists; repeat split; reflexivity.
    + intros (config & [= <-] & _ & <-). reflexivity.
    + discriminate.
    + intros (config & [= <-] & Hp & _). discriminate Hp.
    + intros (k1 & k2 & _ & H). discriminate H.
    + discriminate.
    + intros (config & [= <-] & Hp & _). discriminate Hp.
    + intros [= <-]. eexists; repeat split; reflexivity.
    + intros (config & [= <-] & _ & <-). reflexivity.
    + intros (k1 & k2 & H & _). discriminate H.
  - repeat split; try reflexivity; try discriminate.
    + intros (config & H & _). discriminate H.
    + intros (config & H & _). discriminate H.
    + intros (k1 & k2 & H & _). discriminate H.
Qed.

(** ** Transcription with the configured provider *)

Lemma getApiConfig_again (parseJson : string -> option ApiConfig)
    (st st' : ConfigState) (r : option ApiConfig) :
  getApiConfig parseJson st = (r, st') -> getApiConfig parseJson st' = (r, st').
Proof.
  intros H. pose proof (getApiConfig_settled parseJson st) as E.
  now rewrite H in E.
Qed.

(** X22. The outcome of [generateSrtFromAudio].  Without a
    configuration it throws "Please configure API Key first", not
    wrapped.  With one, the outcome is that of the call of the configured
    provider, made with the stored key (and, for Gemini, the configured
    model or gemini-2.0-flash-exp): the exception of the client getters
    cannot arise.  A Whisper reply is returned as it is, a Gemini reply
    after the removal of fences; every failure on the way is rethrown
    with the prefix "SRT generation failed: ".  The state left is the
    one [getApiConfig] leaves. *)
Theorem generateSrtFromAudio_outcome
  (parseJson : string -> option ApiConfig)
  (geminiCall : string -> string -> Result string)
  (whisperCall : string -> Result string) (st : ConfigState) :
  fst (generateSrtFromAudio parseJson geminiCall whisperCall st)
  = match fst (getApiConfig parseJson st) with
    | None => Throw "Please configure API Key first"
    | Some config =>
        match provider config with
        | GOOGLE_GEMINI =>
            match geminiCall (apiKey config) (geminiModelOf config) with
            | Ok text => wrapFailure (cleanGeminiReply text)
            | Throw message => wrapFailure (Throw message)
            end
        | OPENAI => wrapFailure (whisperCall (apiKey config))
        end
    end
  /\ snd (generateSrtFromAudio parseJson geminiCall whisperCall st)
     = snd (getApiConfig parseJson st).
Proof.
  unfold generateSrtFromAudio, generateSrtWithGemini, generateSrtWithOpenAI,
    getGeminiClient, getOpenAIClient.
  destruct (getApiConfig parseJson st) as [[config|] st'] eqn:E; [|now split].
  rewrite (getApiConfig_again parseJson st st' _ E). cbn [fst snd].
  destruct (provider config).
  - destruct (geminiCall (apiKey config) (geminiModelOf config)) as [text|message].
    + now destruct (cleanGeminiReply text).
    + now split.
  - now destruct (whisperCall (apiKey config)).
Qed.

(** ** What a frame shows *)




Section Frame.

Variable Image : Type.
Variable imageWidth imageHeight : Image -> Q.
Variable measureText : string -> Q.

Local Abbreviation ops := (frameOps Image imageWidth imageHeight measureText).




End Frame.


(** ** Documents of well-formed blocks *)

Lemma splitBlocks_plain (swallow : bool) (c : ascii) (s : string) :
  (c =? "013")%char = false -> (c =? "010")%char = false ->
  splitBlocksFrom swallow (String c s) = pushChar c (splitBlocksFrom false s).
Proof.
  destruct swallow; destruct c as [[] [] [] [] [] [] [] []]; intros H1 H2;
    first [discriminate H1 | discriminate H2 | reflexivity].
Qed.

Lemma splitBlocks_lf (c : ascii) (s : string) :
  (c =? "013")%char = false -> (c =? "010")%char = false ->
  splitBlocksFrom false (String "010" (String c s))
  = pushChar "010" (splitBlocksFrom false (String c s)).
Proof.
  destruct c as [[] [] [] [] [] [] [] []]; intros H1 H2;
    first [discriminate H1 | discriminate H2 | reflexivity].
Qed.

Lemma pushChar_prependHead (c : ascii) (a : string) (l : list string) :
  pushChar c (prependHead a l) = prependHead (String c a) l.
Proof. now destruct l. Qed.

(** A line without a line break is kept whole in front of what follows
    it. *)
Lemma splitBlocks_line (c : ascii) (a tail : string) :
  noBreak (String c a) = true ->
  splitBlocksFrom false (String c a +:+ tail)
  = prependHead (String c a) (splitBlocksFrom false tail).
Proof.
  unfold noBreak. revert c. induction a as [|d a IH]; intros c H;
    cbn [allChars] in H; apply andb_true_iff in H as [Hc Ha];
    apply andb_true_iff in Hc as [H1 H2]; apply negb_true_iff in H1, H2.
  - change (String c "" +:+ tail) with (String c tail).
    rewrite splitBlocks_plain by assumption.
    destruct (splitBlocksFrom false tail); reflexivity.
  - rewrite append_cons, splitBlocks_plain by assumption.
    rewrite (IH d Ha). apply pushChar_prependHead.
Qed.

(** The lines of a block, joined by LF, are kept whole in front of what
    follows the block. *)
Lemma splitBlocks_block (lines : list string) (tail : string) :
  lines <> [] ->
  Forall (fun l => noBreak l = true /\ isEmpty l = false) lines ->
  splitBlocksFrom false (join nl lines +:+ tail)
  = prependHead (join nl lines) (splitBlocksFrom false tail)
  /\ exists c s, join nl lines = String c s
                 /\ (c =? "013")%char = false /\ (c =? "010")%char = false.
Proof.
  intros Hne H. induction H as [|a lines [Ha Hea] Hrest IH]; [contradiction|].
  destruct a as [|c a]; [discriminate Hea|].
  assert (Hc : (c =? "013")%char = false /\ (c =? "010")%char = false).
  { unfold noBreak in Ha. cbn [allChars] in Ha.
    apply andb_true_iff in Ha as [Hc _]. apply andb_true_iff in Hc as [H1 H2].
    now apply negb_true_iff in H1, H2. }
  destruct lines as [|b lines].
  - cbn [join]. split; [now apply splitBlocks_line|]. now exists c, a.
  - destruct IH as [IH (d & s & Ej & Hd1 & Hd2)]; [discriminate|].
    rewrite join_cons by discriminate. split.
    + rewrite !append_assoc. rewrite splitBlocks_line by exact Ha.
      change (nl +:+ join nl (b :: lines) +:+ tail)
        with (String "010" (join nl (b :: lines) +:+ tail)).
      rewrite Ej at 1. rewrite append_cons.
      rewrite splitBlocks_lf by assumption.
      rewrite <- append_cons, <- Ej, IH.
      destruct (splitBlocksFrom false tail); cbn [prependHead pushChar];
        now rewrite ?append_assoc.
    + exists c, (a +:+ nl +:+ join nl (b :: lines)). now rewrite append_cons.
Qed.

(** Blocks separated by one blank line are the blocks of the document. *)
Lemma splitBlocks_document (blocks : list string) :
  blocks <> [] ->
  Forall (fun block => exists lines,
            block = join nl lines /\ lines <> [] /\
            Forall (fun l => noBreak l = true /\ isEmpty l = false) lines) blocks ->
  splitBlocks (join blankLine blocks) = blocks.
Proof.
  unfold splitBlocks. intros Hne H.
  induction H as [|b blocks (lines & -> & Hl & Hf) Hrest IH]; [contradiction|].
  destruct (splitBlocks_block lines "" Hl Hf) as [E0 _].
  destruct blocks as [|b2 blocks].
  - cbn [join]. rewrite append_nil_r in E0. rewrite E0. cbn.
    now rewrite append_nil_r.
  - rewrite join_cons by discriminate.
    destruct (splitBlocks_block lines (blankLine +:+ join blankLine (b2 :: blocks)) Hl Hf)
      as [E _].
    rewrite E. clear E E0.
    change (splitBlocksFrom false (blankLine +:+ join blankLine (b2 :: blocks)))
      with ("" :: splitBlocksFrom true (join blankLine (b2 :: blocks))).
    cbn [prependHead]. rewrite append_nil_r. f_equal.
    specialize (IH ltac:(discriminate)).
    inversion Hrest as [|? ? (lines2 & E2 & Hl2 & Hf2) _]; subst.
    destruct (splitBlocks_block lines2 "" Hl2 Hf2) as [_ (c & s & Ej & H1 & H2)].
    assert (Ed : exists s', join blankLine (join nl lines2 :: blocks) = String c s').
    { destruct blocks; [now exists s|].
      rewrite join_cons by discriminate. rewrite Ej, append_cons. now eexists. }
    destruct Ed as [s' Ed]. rewrite Ed in IH |- *.
    rewrite splitBlocks_plain by assumption.
    rewrite splitBlocks_plain in IH by assumption. exact IH.
Qed.

Lemma isCanonical_digits (t : string) :
  isCanonical t = true ->
  exists a b c d e f g h i,
    Forall (fun ch => isDigit ch = true) [a; b; c; d; e; f; g; h; i]
    /\ t = canonicalOf a b c d e f g h i.
Proof.
  intros H.
  do 12 (destruct t as [|? t]; [discriminate H|]).
  destruct t; [|discriminate H].
  unfold isCanonical in H.
  repeat match type of H with
         | (_ && _) = true => apply andb_true_iff in H as [H ?]
         end.
  repeat match goal with
         | E : (_ =? _)%char = true |- _ => apply Ascii.eqb_eq in E; subst
         end.
  cbn [forallb] in H.
  repeat match type of H with
         | (_ && _) = true =>
             let Hd := fresh "Hd" in apply andb_true_iff in H as [Hd H]
         end.
  do 9 eexists. split; [|reflexivity]. now repeat constructor.
Qed.

(** A well-formed entry is written as a block that gives its cue and
    its Dialogue record, and whose lines are not empty. *)
Lemma wellFormed_block (e : Entry) :
  wellFormed e = true ->
  cueOfBlock (entryBlock e) = Some (entryCue e)
  /\ eventOfBlock (entryBlock e) = Some (entryEvent e)
  /\ exists lines,
       entryBlock e = join nl lines /\ lines <> [] /\
       Forall (fun l => noBreak l = true /\ isEmpty l = false) lines.
Proof.
  destruct e as [index t1 t2 textLines]. unfold wellFormed.
  cbn [entryIndex entryStart entryEnd entryLines]. intros H.
  repeat match type of H with
         | (_ && _) = true =>
             let Hd := fresh "Hw" in apply andb_true_iff in H as [H Hd]
         end.
  apply negb_true_iff in Hw0, Hw3, Hw4.
  apply isCanonical_digits in Hw1, Hw2.
  destruct Hw2 as (a & b & c & d & e & f & g & h & i & D1 & ->).
  destruct Hw1 as (a' & b' & c' & d' & e' & f' & g' & h' & i' & D2 & ->).
  assert (Ht : Forall (fun l => captionLine l = true) textLines).
  { apply List.Forall_forall. intros l Hl. now apply (proj1 (forallb_forall _ _) Hw). }
  assert (Hne : textLines <> []) by (destruct textLines; [discriminate Hw0 | discriminate]).
  destruct (wellformed_block index a b c d e f g h i a' b' c' d' e' f' g' h' i'
              textLines H Hw3 D1 D2 Hne Ht) as [Hc He].
  split; [exact Hc|]. split; [exact He|].
  eexists. split; [reflexivity|]. split; [discriminate|].
  constructor; [now split|]. constructor.
  - assert (C1 : Canonical (canonicalOf a b c d e f g h i))
      by (exists a, b, c, d, e, f, g, h, i; now split).
    assert (C2 : Canonical (canonicalOf a' b' c' d' e' f' g' h' i'))
      by (exists a', b', c', d', e', f', g', h', i'; now split).
    destruct (strictLine_shape _ _ C1 C2) as (Hb & _ & Hn). now split.
  - eapply Forall_impl; [exact Ht|]. intros l Hl. unfold captionLine in Hl.
    apply andb_true_iff in Hl as [Hb Hn]. split; [exact Hb|].
    destruct l; [discriminate Hn | reflexivity].
Qed.

Lemma omap_entries {A} (body : string -> option A) (out : Entry -> A)
    (entries : list Entry) :
  Forall (fun e => body (entryBlock e) = Some (out e)) entries ->
  omap body (map entryBlock entries) = map out entries.
Proof.
  induction 1 as [|e es He _ IH]; [reflexivity|].
  cbn [map omap list_omap]. rewrite He. cbn [map]. f_equal. exact IH.
Qed.

(** X25. A document of well-formed entries, one blank line between
    them and no white space at either end, is read in full: the cue parse
    returns one cue per entry, in order, with the text lines joined by
    spaces and the times the timestamps denote, and the styled-event
    export writes one Dialogue record per entry after the header. *)
Theorem wellformed_document (entries : list Entry) :
  Forall (fun e => wellFormed e = true) entries ->
  headOk (documentOf entries) = true -> lastOk (documentOf entries) = true ->
  parseSrtToSubtitles (documentOf entries) = map entryCue entries
  /\ srtToAss (documentOf entries) = assHeader +:+ join nl (map entryEvent entries).
Proof.
  intros Hw Hh Hl. unfold srtToAss, parseSrtToSubtitles, assEvents.
  rewrite (trim_id _ Hh Hl), parseBlocks_omap, assBlocks_omap. cbn [app].
  destruct entries as [|e0 entries]; [now split|].
  unfold documentOf. rewrite splitBlocks_document.
  - rewrite (omap_entries cueOfBlock entryCue), (omap_entries eventOfBlock entryEvent);
      [now split | |].
    + eapply Forall_impl; [exact Hw|].
      intros e He. now destruct (wellFormed_block e He) as (_ & H & _).
    + eapply Forall_impl; [exact Hw|].
      intros e He. now destruct (wellFormed_block e He) as (H & _).
  - discriminate.
  - eapply Forall_fmap, Forall_impl; [exact Hw|].
    intros e He. now destruct (wellFormed_block e He) as (_ & _ & H).
Qed.

Lemma wellformed_document_witness :
  parseSrtToSubtitles (documentOf [entryHello; entryBye])
  = map entryCue [entryHello; entryBye]
  /\ srtToAss (documentOf [entryHello; entryBye])
     = assHeader +:+ join nl (map entryEvent [entryHello; entryBye]).
Proof.
  apply (wellformed_document [entryHello; entryBye]);
    first [reflexivity | repeat constructor].
Defined.

(** ** Timing lines that start with the minutes *)

Lemma digit_not_commaDot (c : ascii) : isDigit c = true -> isCommaDot c = false.
Proof.
  intros H. apply digit_cases in H. cbn [In] in H.
  repeat destruct H as [<- | H]; first [reflexivity | contradiction].
Qed.

Lemma digit_not_commaColon (c : ascii) : isDigit c = true -> isCommaColon c = false.
Proof.
  intros H. apply digit_cases in H. cbn [In] in H.
  repeat destruct H as [<- | H]; first [reflexivity | contradiction].
Qed.

Ltac digit_facts :=
  repeat match goal with
         | H : isDigit ?x = true |- _ =>
             pose proof (digit_not_colon x H);
             pose proof (digit_not_commaDot x H);
             pose proof (digit_not_commaColon x H);
             pose proof (proj1 (digit_plain x H));
             pose proof (proj2 (digit_plain x H));
             revert H
         end; intros.

Ltac run_pattern :=
  repeat progress (cbn;
          repeat match goal with
          | H : isDigit ?x = true |- context [isDigit ?x] => rewrite H
          | H : isColon ?x = false |- context [isColon ?x] => rewrite H
          | H : isCommaDot ?x = false |- context [isCommaDot ?x] => rewrite H
          | H : isCommaColon ?x = false |- context [isCommaColon ?x] => rewrite H
          | H : isSep ?x = false |- context [isSep ?x] => rewrite H
          | H : isSpace ?x = false |- context [isSpace ?x] => rewrite H
          | |- context [isSpace (Ascii ?b1 ?b2 ?b3 ?b4 ?b5 ?b6 ?b7 ?b8)] =>
              let v := eval vm_compute in (isSpace (Ascii b1 b2 b3 b4 b5 b6 b7 b8)) in
              change (isSpace (Ascii b1 b2 b3 b4 b5 b6 b7 b8)) with v
          end).

Lemma search_skip {A} (at_ : string -> option A) (c : ascii) (s : string) :
  at_ (String c s) = None -> search at_ (String c s) = search at_ s.
Proof. intros H. cbn [search]. now rewrite H. Qed.

Lemma minute_line_std (s1 s2 a b c d e f g a' b' c' d' e' f' g' : ascii) :
  s1 = ":"%char \/ s1 = ","%char -> s2 = ":"%char \/ s2 = ","%char ->
  Forall (fun ch => isDigit ch = true) [a; b; c; d; e; f; g] ->
  Forall (fun ch => isDigit ch = true) [a'; b'; c'; d'; e'; f'; g'] ->
  search stdAt (minuteStamp s1 a b c d e f g +:+ " --> "
                  +:+ minuteStamp s2 a' b' c' d' e' f' g') = None.
Proof.
  intros Hs1 Hs2 H1 H2. use_digits. digit_facts.
  unfold minuteStamp. rewrite !append_cons, !append_nil_l.
  destruct Hs1 as [-> | ->], Hs2 as [-> | ->];
    repeat (rewrite search_skip
              by (unfold stdAt, stdWith, stdStamp; run_pattern; reflexivity));
    reflexivity.
Qed.

Lemma minute_line_ns (s1 s2 a b c d e f g a' b' c' d' e' f' g' : ascii) :
  s1 = ":"%char \/ s1 = ","%char -> s2 = ":"%char \/ s2 = ","%char ->
  Forall (fun ch => isDigit ch = true) [a; b; c; d; e; f; g] ->
  Forall (fun ch => isDigit ch = true) [a'; b'; c'; d'; e'; f'; g'] ->
  nsAt (minuteStamp s1 a b c d e f g +:+ " --> "
          +:+ minuteStamp s2 a' b' c' d' e' f' g')
  = Some (String a (String b ""), String c (String d ""),
          String e (String f (String g "")),
          String a' (String b' ""), String c' (String d' ""),
          String e' (String f' (String g' ""))).
Proof.
  intros Hs1 Hs2 H1 H2. use_digits. digit_facts.
  unfold minuteStamp. rewrite !append_cons, !append_nil_l.
  destruct Hs1 as [-> | ->], Hs2 as [-> | ->];
    unfold nsAt, nsWith, nsStamp; run_pattern; reflexivity.
Qed.

Lemma minute_seconds (sep a b c d e f g : ascii) :
  sep = ":"%char \/ sep = ","%char ->
  Forall (fun ch => isDigit ch = true) [a; b; c; d; e; f; g] ->
  timeToSeconds (minuteStamp sep a b c d e f g) = Some (minuteSeconds a b c d e f g).
Proof.
  intros Hs H. use_digits.
  rewrite timeToSeconds_readByShape. unfold readByShape.
  assert (E : splitSep (trim (minuteStamp sep a b c d e f g))
              = [String a (String b ""); String c (String d "");
                 String e (String f (String g ""))]).
  { digit_facts. unfold minuteStamp, trim.
    destruct Hs as [-> | ->]; unfold splitSep; run_pattern; reflexivity. }
  rewrite E. cbn [String.length Nat.eqb]. rewrite orb_true_r.
  unfold minuteSeconds. now rewrite !componentValue_two, componentValue_three.
Qed.

(** X26. A timing line whose timestamps start with the minutes,
    MM:SS:mmm or MM:SS,mmm, is read the same way by the two readers: the
    styled-event export, whose first pattern does not match it anywhere,
    writes the clock strings 0:MM:SS.cc, and the timestamp parser reads
    60 times the minutes plus the seconds plus the milliseconds over
    1000. *)
Theorem minute_line_read (s1 s2 a b c d e f g a' b' c' d' e' f' g' : ascii) :
  s1 = ":"%char \/ s1 = ","%char -> s2 = ":"%char \/ s2 = ","%char ->
  Forall (fun ch => isDigit ch = true) [a; b; c; d; e; f; g] ->
  Forall (fun ch => isDigit ch = true) [a'; b'; c'; d'; e'; f'; g'] ->
  assTimes (minuteStamp s1 a b c d e f g +:+ " --> "
              +:+ minuteStamp s2 a' b' c' d' e' f' g')
  = Some (minuteClock a b c d e f, minuteClock a' b' c' d' e' f')
  /\ timeToSeconds (minuteStamp s1 a b c d e f g) = Some (minuteSeconds a b c d e f g)
  /\ timeToSeconds (minuteStamp s2 a' b' c' d' e' f' g')
     = Some (minuteSeconds a' b' c' d' e' f' g').
Proof.
  intros Hs1 Hs2 H1 H2. split; [|split; now apply minute_seconds].
  unfold assTimes. rewrite minute_line_std by assumption.
  erewrite search_here by (now apply minute_line_ns). reflexivity.
Qed.

Lemma minute_line_read_witness :
  assTimes "00:13:300 --> 01:05,250" = Some ("0:00:13.30", "0:01:05.25")
  /\ timeToSeconds "00:13:300" = Some (minuteSeconds "0" "0" "1" "3" "3" "0" "0")
  /\ timeToSeconds "01:05,250" = Some (minuteSeconds "0" "1" "0" "5" "2" "5" "0").
Proof.
  apply (minute_line_read ":" "," "0" "0" "1" "3" "3" "0" "0" "0" "1" "0" "5" "2" "5" "0");
    first [now left | now right | repeat constructor].
Defined.

(** ** Captions that fit on one line *)

Section WrapShort.

Variable measureText : string -> Q.
Variable maxWidth : Q.

Lemma wrap_fold_short (rest : string) :
  forall cur,
    (forall p q, cur +:+ rest = p +:+ q -> (2 <= String.length p)%nat ->
                 (measureText p <= maxWidth)%Q) ->
    fold_left (wrapStep measureText maxWidth) (splitChars rest) ([], cur)
    = ([], cur +:+ rest).
Proof.
  induction rest as [|c rest IH]; intros cur H.
  - now rewrite append_nil_r.
  - cbn [splitChars fold_left wrapStep].
    assert (E : negb (Qle_bool (measureText (cur +:+ String c "")) maxWidth)
                && negb (isEmpty cur) = false).
    { destruct cur as [|d cur]; [apply andb_false_r|].
      rewrite andb_true_r. apply negb_false_iff, Qle_bool_iff.
      apply (H _ rest).
      - rewrite append_assoc. reflexivity.
      - rewrite length_append. cbn. lia. }
    rewrite E.
    replace (cur +:+ String c rest) with ((cur +:+ String c "") +:+ rest)
      by now rewrite append_assoc.
    apply IH. intros p q Hpq. apply (H p q). rewrite <- Hpq.
    now rewrite append_assoc.
Qed.

(** X27. A caption that fits is not broken: when every prefix of two
    or more characters of a non-empty caption measures at most
    [maxWidth], [wrapText] returns the caption as its only line (a first
    character wider than [maxWidth] does not matter), and the empty
    caption gives no line. *)
Theorem wrapText_one_line (text : string) :
  text <> "" ->
  (forall p q, text = p +:+ q -> (2 <= String.length p)%nat ->
               (measureText p <= maxWidth)%Q) ->
  wrapText measureText text maxWidth = [text]
  /\ wrapText measureText "" maxWidth = [].
Proof.
  intros Hne H. split; [|reflexivity]. unfold wrapText.
  rewrite (wrap_fold_short text ""); [|now rewrite append_nil_l].
  rewrite append_nil_l. apply isEmpty_false in Hne. now rewrite Hne.
Qed.

End WrapShort.

Lemma wrapText_one_line_witness :
  wrapText tenPerChar "abc" 100 = ["abc"] /\ wrapText tenPerChar "" 100 = [].
Proof.
  apply (wrapText_one_line tenPerChar 100 "abc"); [discriminate|].
  intros p q E _.
  assert (Hl : (String.length p <= 3)%nat).
  { apply (f_equal String.length) in E. rewrite length_append in E. cbn in E. lia. }
  unfold tenPerChar, Qle. cbn [Qnum Qden inject_Z]. lia.
Defined.
